(** * CourtScrapper: a shallow embedding of the Dallas County scraper

    The Python sources (scraper.py, captcha_handler.py, case_data_extractor.py,
    scraper_pool.py, result_exporter.py, config.py) are embedded module by
    module.  The browser, the portal and the captcha service are external:
    every answer they give is a field of an environment record, and the
    Python control flow around those answers is written out as it is in the
    source.  Text is ASCII ([string]); time is counted in integer
    milliseconds. *)

From stdpp Require Import base gmap strings list pretty.
From Stdlib Require Import ZArith QArith Ascii String Lia.

Open Scope string_scope.
Open Scope Z_scope.

(* ===================================================================== *)
(** ** Python string primitives used by the sources *)
(* ===================================================================== *)
Module Py.

(** [str.isspace] on ASCII: TAB, LF, VT, FF, CR, FS, GS, RS, US, SPACE. *)
Definition is_space (c : ascii) : bool :=
  let n := nat_of_ascii c in
  ((9 <=? n)%nat && (n <=? 13)%nat) || ((28 <=? n)%nat && (n <=? 32)%nat).

(** [str.isdigit] on ASCII. *)
Definition is_digit (c : ascii) : bool :=
  let n := nat_of_ascii c in (48 <=? n)%nat && (n <=? 57)%nat.

Fixpoint lstrip_list (l : list ascii) : list ascii :=
  match l with
  | c :: l' => if is_space c then lstrip_list l' else l
  | [] => []
  end.

Definition strip_list (l : list ascii) : list ascii :=
  rev (lstrip_list (rev (lstrip_list l))).

(** [s.strip()] *)
Definition strip (s : string) : string :=
  string_of_list_ascii (strip_list (list_ascii_of_string s)).

Definition lower_ascii (c : ascii) : ascii :=
  let n := nat_of_ascii c in
  if ((65 <=? n)%nat && (n <=? 90)%nat)%bool then ascii_of_nat (n + 32) else c.

Definition upper_ascii (c : ascii) : ascii :=
  let n := nat_of_ascii c in
  if ((97 <=? n)%nat && (n <=? 122)%nat)%bool then ascii_of_nat (n - 32) else c.

Fixpoint map_string (f : ascii -> ascii) (s : string) : string :=
  match s with
  | EmptyString => EmptyString
  | String c s' => String (f c) (map_string f s')
  end.

(** [s.lower()] and [s.upper()] *)
Definition lower : string -> string := map_string lower_ascii.
Definition upper : string -> string := map_string upper_ascii.

(** [needle in hay] *)
Fixpoint contains (needle hay : string) : bool :=
  String.prefix needle hay ||
  match hay with
  | EmptyString => false
  | String _ hay' => contains needle hay'
  end.

(** [s.startswith(p)] *)
Definition startswith (p s : string) : bool := String.prefix p s.

(** [any(char.isdigit() for char in s)] *)
Fixpoint any_digit (s : string) : bool :=
  match s with
  | EmptyString => false
  | String c s' => is_digit c || any_digit s'
  end.

(** Truth value of a [str]: non-empty. *)
Definition truthy (s : string) : bool :=
  match s with EmptyString => false | _ => true end.

(** [sep.join(parts)] *)
Fixpoint join (sep : string) (parts : list string) : string :=
  match parts with
  | [] => ""
  | [p] => p
  | p :: ps => p +:+ sep +:+ join sep ps
  end.

(** *** Further primitives: splitting, trimming, case *)

Definition rstrip_list (l : list ascii) : list ascii :=
  rev (lstrip_list (rev l)).

(** [s.rstrip()] *)
Definition rstrip (s : string) : string :=
  string_of_list_ascii (rstrip_list (list_ascii_of_string s)).

(** [s.strip(chars)]: the characters of [chars] are removed at both ends. *)
Definition in_chars (chars : list ascii) (c : ascii) : bool :=
  existsb (Ascii.eqb c) chars.

Fixpoint lstrip_chars_list (chars l : list ascii) : list ascii :=
  match l with
  | c :: l' => if in_chars chars c then lstrip_chars_list chars l' else l
  | [] => []
  end.

Definition strip_chars_list (chars l : list ascii) : list ascii :=
  rev (lstrip_chars_list chars (rev (lstrip_chars_list chars l))).

Definition strip_chars (chars s : string) : string :=
  string_of_list_ascii
    (strip_chars_list (list_ascii_of_string chars) (list_ascii_of_string s)).

(** [s.replace(old, new)] for one-character [old] and [new]. *)
Definition replace_char (old new : ascii) (s : string) : string :=
  map_string (fun c => if Ascii.eqb c old then new else c) s.

(** [s[:n]] *)
Definition slice_to (n : nat) (s : string) : string :=
  string_of_list_ascii (take n (list_ascii_of_string s)).

(** [text.split()]: the maximal runs of non-blank characters.  [word] is
    the run being read. *)
Fixpoint split_from (word l : list ascii) : list (list ascii) :=
  match l with
  | [] => match word with [] => [] | _ => [word] end
  | c :: l' =>
      if is_space c
      then match word with
           | [] => split_from [] l'
           | _ => word :: split_from [] l'
           end
      else split_from (word ++ [c])%list l'
  end.

Definition split (text : string) : list string :=
  map string_of_list_ascii (split_from [] (list_ascii_of_string text)).

(** Line boundaries of [str.splitlines] on ASCII: LF, VT, FF, CR, FS, GS,
    RS; CR LF counts as one. *)
Definition is_linebreak (c : ascii) : bool :=
  let n := nat_of_ascii c in
  ((10 <=? n)%nat && (n <=? 13)%nat) || ((28 <=? n)%nat && (n <=? 30)%nat).

(** [line] is the line being read; [after_cr] tells that the previous
    character was a CR that ended a line. *)
Fixpoint splitlines_from (line : list ascii) (after_cr : bool)
    (l : list ascii) : list (list ascii) :=
  match l with
  | [] => match line with [] => [] | _ => [line] end
  | c :: l' =>
      if after_cr && Ascii.eqb c "010" then splitlines_from [] false l'
      else if is_linebreak c
      then line :: splitlines_from [] (Ascii.eqb c "013") l'
      else splitlines_from (line ++ [c])%list false l'
  end.

(** [text.splitlines()] *)
Definition splitlines (text : string) : list string :=
  map string_of_list_ascii
      (splitlines_from [] false (list_ascii_of_string text)).

Definition is_alpha (c : ascii) : bool :=
  let n := nat_of_ascii c in
  ((65 <=? n)%nat && (n <=? 90)%nat) || ((97 <=? n)%nat && (n <=? 122)%nat).

(** [s.title()]: a letter that follows a letter is lower-cased, any other
    letter is upper-cased. *)
Fixpoint title_from (previous_is_cased : bool) (s : string) : string :=
  match s with
  | EmptyString => EmptyString
  | String c s' =>
      String (if is_alpha c
              then if previous_is_cased then lower_ascii c else upper_ascii c
              else c)
             (title_from (is_alpha c) s')
  end.

Definition title (s : string) : string := title_from false s.

(** [s.isdigit()]: non-empty and digits only. *)
Definition isdigit (s : string) : bool :=
  truthy s && forallb is_digit (list_ascii_of_string s).

(** [a or b] on strings that may be [None]. *)
Definition or_else (a : option string) (b : string) : string :=
  match a with
  | Some t => if truthy t then t else b
  | None => b
  end.

(** [s[:k]] for any integer [k]: a negative [k] counts from the end. *)
Definition slice_to_Z (k : Z) (s : string) : string :=
  if 0 <=? k then slice_to (Z.to_nat k) s
  else slice_to (Z.to_nat (Z.of_nat (String.length s) + k)) s.

(** [str(n)] for a natural number: its decimal digits. *)
Definition str (n : nat) : string := pretty n.

(** *** Predicates used in the statements *)

(** A text without blanks at its ends. *)
Definition trimmed (l : list ascii) : Prop :=
  match l with
  | [] => True
  | c :: _ => is_space c = false /\ is_space (List.last l c) = false
  end.

End Py.

(* ===================================================================== *)
(** ** config.py *)
(* ===================================================================== *)
Module Config.

Definition CASE_TYPE : string := "FELONY".
Definition CHARGE_KEYWORDS : list string := ["ASSAULT"].
(** [int(os.getenv("MINIMUM_CASE_YEAR", "2025"))]: the default. *)
Definition MINIMUM_CASE_YEAR : Z := 2025.
Definition ACTION_DELAY_SECONDS : Z := 3.
Definition ENABLE_SESSION_RECOVERY : bool := true.
Definition USE_CAPTCHA_SERVICE : bool := true.
Definition CAPTCHA_API_KEY : string := "".

End Config.

(* ===================================================================== *)
(** ** The case record ([case_data] plus the attorney keys) *)
(* ===================================================================== *)

Record CaseRecord := mkCaseRecord {
  case_number : string;
  file_date : string;
  judicial_officer : string;
  case_status : string;
  case_type : string;
  charge_description : string;
  bond_amount : string;
  disposition : string;
  sentencing_info : string;
  attorney_name : string;
  attorney_first_name : string;
  attorney_last_name : string
}.

Record Attorney := mkAttorney {
  first_name : string;
  last_name : string
}.

(* ===================================================================== *)
(** ** case_data_extractor.py *)
(* ===================================================================== *)
Module CaseDataExtractor.

Definition BOND_AMOUNT_DISQUALIFIERS : list string :=
  [ "due"; "owed"; "balance"; "paid"; "fee"; "fees"; "financial";
    "assessment"; "assessments"; "transaction"; "transactions"; "credit";
    "credits"; "payment"; "payments"; "total"; "fine"; "fines"; "cost";
    "costs" ].

(** *** Field bookkeeping *)

(** [ensure_field_extracted]: [inl v] is the returned value, [inr tt] the
    raised [FieldExtractionError]. *)
Definition ensure_field_extracted (value : string) (required : bool)
  : string + unit :=
  let value := Py.strip value in
  if Py.truthy value then inl value
  else if required then inr tt
  else inl "".

(** [record_field_extraction]: returns the value and the updated
    [field_errors] list. *)
Definition record_field_extraction (field_label value : string)
    (field_errors : list string) (required : bool) : string * list string :=
  match ensure_field_extracted value required with
  | inl v => (v, field_errors)
  | inr _ => ("", (field_errors ++ [field_label])%list)
  end.

(** *** The bond part of a case detail page *)

(** One [td[role="gridcell"]] as the loop of step 1 reads it: its text and
    the text of its enclosing row, or an exception raised by the driver. *)
Inductive GridCell :=
  | Cell (cell_text row_text : string)
  | CellRaises.

(** What [#settingInformationDiv] shows at one moment. *)
Record SettingsView := mkSettingsView {
  hold_without_bond : bool;            (* div.tyler-span-2:has-text("Hold Without Bond") *)
  amount_divs : option (list string)   (* text of each div[style*="padding-left:30px"];
                                          None: the driver raises while reading them *)
}.

Inductive GridProbe :=
  | GridRaises                         (* the driver raises in step 3 *)
  | NoGrid                             (* bond_settings_grid.count() == 0 *)
  | Grid (icon_classes : list string). (* class attribute of each expand icon *)

Record BondSettings := mkBondSettings {
  view_now : SettingsView;               (* content visible on arrival *)
  grid : GridProbe;
  view_expanded : option SettingsView    (* content after last_icon.click();
                                            None: the click or the wait raises *)
}.

Inductive SettingsProbe :=
  | SettingsRaises                      (* the driver raises in steps 2-4 *)
  | NoSettings                          (* bond_settings_section.count() == 0 *)
  | Settings (s : BondSettings).

Record BondDom := mkBondDom {
  gridcells : list GridCell;
  settings : SettingsProbe
}.

Definition is_dollar_amount (text : string) : bool :=
  Py.startswith "$" text && Py.any_digit text.

(** [any(disqualifier in row_text for disqualifier in BOND_AMOUNT_DISQUALIFIERS)]
    on the lower-cased row text. *)
Definition row_disqualified (row_text : string) : bool :=
  existsb (fun d => Py.contains d (Py.lower row_text)) BOND_AMOUNT_DISQUALIFIERS.

(** Step 1: the loop over the grid cells.  The first dollar cell in a row
    without a disqualifier is returned; an exception ends the step. *)
Fixpoint scan_gridcells (cells : list GridCell) : option (string * string) :=
  match cells with
  | [] => None
  | CellRaises :: _ => None
  | Cell cell_text row_text :: rest =>
      let cell_text := Py.strip cell_text in
      if is_dollar_amount cell_text && negb (row_disqualified row_text)
      then Some (cell_text, row_text)
      else scan_gridcells rest
  end.

(** Step 4: the loop over the amount divs of the expanded row. *)
Fixpoint scan_amount_divs (divs : list string) : option string :=
  match divs with
  | [] => None
  | div_text :: rest =>
      let div_text := Py.strip div_text in
      if is_dollar_amount div_text
         && negb (Py.startswith "comment" (Py.lower div_text))
      then Some div_text
      else scan_amount_divs rest
  end.

Definition last_icon_class (icons : list string) : string :=
  List.last icons "".

(** Step 4 on the view that is on screen after step 3. *)
Definition extract_from_view (view : SettingsView) : string :=
  if hold_without_bond view then "Hold Without Bond"
  else match amount_divs view with
       | None => "No bond amount set"
       | Some divs =>
           match scan_amount_divs divs with
           | Some amount => amount
           | None => "No bond amount set"
           end
       end.

(** Steps 2 to 4 once [#settingInformationDiv] is found. *)
Definition extract_bond_settings (s : BondSettings) : string :=
  if hold_without_bond (view_now s) then "Hold Without Bond"
  else match grid s with
  | GridRaises => "No bond amount set"
  | NoGrid => "No bond amount set"
  | Grid [] => "No bond amount set"
  | Grid icons =>
      if Py.contains "k-plus" (last_icon_class icons)
      then match view_expanded s with
           | Some view => extract_from_view view
           | None => "No bond amount set"
           end
      else extract_from_view (view_now s)
  end.

Definition extract_bond_amount (dom : BondDom) : string :=
  match scan_gridcells (gridcells dom) with
  | Some (cell_text, _) => cell_text
  | None =>
      match settings dom with
      | SettingsRaises => "No bond amount set"
      | NoSettings => "No bond amount set"
      | Settings s => extract_bond_settings s
      end
  end.

(** *** Disposition and sentencing *)

(** The three sources [extract_disposition_and_sentencing] consults:
    the joined text of the Disposition Events grid, and for the Confinement
    and the community-service sections the value their parsers return
    ([None] when the section has no text). *)
Record DispositionDom := mkDispositionDom {
  disposition_events : string;          (* extract_disposition(page) *)
  confinement_value : option string;    (* parse_confinement_details(...) *)
  probation_value : option string       (* parse_probation_details(...) *)
}.

Definition labelled (label : string) (v : option string) : list string :=
  match v with
  | Some value => if Py.truthy value then [label +:+ value] else []
  | None => []
  end.

Definition extract_disposition_and_sentencing (d : DispositionDom)
  : string * string :=
  let confinement_and_probation_value :=
    (labelled "Confinement: " (confinement_value d)
     ++ labelled "Probation: " (probation_value d))%list in
  (disposition_events d, Py.join " || " confinement_and_probation_value).

(** *** The case detail page *)

Record DetailPage := mkDetailPage {
  body_text : string;                 (* page.locator("body").text_content() *)
  load_idle : bool;                   (* wait_for_load_state("networkidle") returns *)
  found_case_number : string;         (* lines lookup or selector fallback *)
  found_file_date : string;
  found_judicial_officer : string;
  found_case_status : string;
  found_case_type : string;
  found_charge_description : string;  (* extract_charge_description(page) *)
  bond_dom : BondDom;
  disposition_dom : DispositionDom
}.

Definition empty_case_data : CaseRecord :=
  mkCaseRecord "" "" "" "" "" "" "" "" "" "" "" "".

(** The decision of lines 276-287: the values handed to the last two
    [record_field_extraction] calls, and whether
    [extract_disposition_and_sentencing] was called. *)
Definition disposition_values (status : string) (d : DispositionDom)
  : string * string * bool :=
  let case_status_value := Py.upper (Py.strip status) in
  if bool_decide (case_status_value = "ACTIVE")
     || bool_decide (case_status_value = "OPEN")
  then ("NA", "NA", false)
  else
    let '(disposition_value, confinement_and_probation_value) :=
      extract_disposition_and_sentencing d in
    (if Py.truthy disposition_value then disposition_value else "NA",
     if Py.truthy confinement_and_probation_value
     then confinement_and_probation_value else "NA",
     true).

(** [extract_case_details], returning besides [case_data] the logged
    [field_errors] and whether disposition extraction was attempted. *)
Definition extract_case_details_log (page : DetailPage)
  : CaseRecord * list string * bool :=
  if negb (load_idle page) then (empty_case_data, [], false)
  else
    let errs := [] in
    let '(v_number, errs) :=
      record_field_extraction "Case Number" (found_case_number page) errs true in
    let '(v_date, errs) :=
      record_field_extraction "File Date" (found_file_date page) errs true in
    let '(v_officer, errs) :=
      record_field_extraction "Judicial Officer" (found_judicial_officer page) errs true in
    let '(v_status, errs) :=
      record_field_extraction "Case Status" (found_case_status page) errs true in
    let '(v_type, errs) :=
      record_field_extraction "Case Type" (found_case_type page) errs false in
    let '(v_charge, errs) :=
      record_field_extraction "Charge Description"
        (found_charge_description page) errs true in
    let '(v_bond, errs) :=
      record_field_extraction "Bond Amount"
        (extract_bond_amount (bond_dom page)) errs true in
    let '(disposition_value, sentencing_value, attempted) :=
      disposition_values v_status (disposition_dom page) in
    let '(v_disposition, errs) :=
      record_field_extraction "Disposition" disposition_value errs false in
    let '(v_sentencing, errs) :=
      record_field_extraction "Disposition / Sentencing" sentencing_value errs false in
    (mkCaseRecord v_number v_date v_officer v_status v_type v_charge v_bond
       v_disposition v_sentencing "" "" "",
     errs, attempted).

Definition extract_case_details (page : DetailPage) : CaseRecord :=
  fst (fst (extract_case_details_log page)).

(** [check_for_charge_keyword] *)
Definition check_for_charge_keyword (page : DetailPage)
    (charge_keywords : list string) : bool :=
  let page_text_lower := Py.lower (body_text page) in
  existsb (fun keyword => Py.contains (Py.lower keyword) page_text_lower)
          charge_keywords.

(** *** Predicates used in the statements *)

(** A grid cell that step 1 reads and passes over: its text is no dollar
    amount, or its row holds a disqualifier word. *)
Definition passed_over (c : GridCell) : Prop :=
  match c with
  | Cell cell_text row_text =>
      is_dollar_amount (Py.strip cell_text) = false \/
      exists d, In d BOND_AMOUNT_DISQUALIFIERS /\
                Py.contains d (Py.lower row_text) = true
  | CellRaises => False
  end.

(** A settings view with neither the marker nor a dollar figure. *)
Definition view_has_nothing (v : SettingsView) : Prop :=
  hold_without_bond v = false /\
  forall divs, amount_divs v = Some divs ->
  forall div_text, In div_text divs ->
    is_dollar_amount (Py.strip div_text) = false.

(** *** Text of a section *)

(** [" ".join(text.split())] *)
Definition collapse_whitespace (text : string) : string :=
  Py.join " " (Py.split text).

Definition normalize_section_lines (section_text : string) : list string :=
  if negb (Py.truthy section_text) then []
  else map Py.strip
           (List.filter (fun line => Py.truthy (Py.strip line))
                        (Py.splitlines section_text)).

(** *** Regular expressions of the module

    The matchers follow the backtracking order of [re]: a greedy
    repetition first takes all it can and gives characters back one by one;
    an optional item is first taken; alternatives are tried from left to
    right.  All patterns are compiled with [re.IGNORECASE]. *)

Definition same_letter (a c : ascii) : bool :=
  Ascii.eqb (Py.lower_ascii a) (Py.lower_ascii c).

(** A literal at the head of the input: the rest of the input. *)
Fixpoint match_literal (literal s : list ascii) : option (list ascii) :=
  match literal, s with
  | [], _ => Some s
  | a :: literal', c :: s' =>
      if same_letter a c then match_literal literal' s' else None
  | _ :: _, [] => None
  end.

(** Length of the longest prefix of [s] in the class [cl]. *)
Fixpoint run_length (cl : ascii -> bool) (s : list ascii) : nat :=
  match s with
  | c :: s' => if cl c then S (run_length cl s') else O
  | [] => O
  end.

(** The continuation [k] after [j], [j-1], ..., [least] characters. *)
Fixpoint give_back {A : Type} (j least : nat) (s : list ascii)
    (k : list ascii -> option A) : option A :=
  if (j <? least)%nat then None
  else match k (drop j s) with
       | Some r => Some r
       | None => match j with
                 | O => None
                 | S j' => give_back j' least s k
                 end
       end.

(** [cl*] and [cl+] followed by [k]. *)
Definition zero_or_more {A : Type} (cl : ascii -> bool) (s : list ascii)
    (k : list ascii -> option A) : option A :=
  give_back (run_length cl s) 0 s k.

Definition one_or_more {A : Type} (cl : ascii -> bool) (s : list ascii)
    (k : list ascii -> option A) : option A :=
  give_back (run_length cl s) 1 s k.

(** [c?] followed by [k]. *)
Definition zero_or_one {A : Type} (ch : ascii) (s : list ascii)
    (k : list ascii -> option A) : option A :=
  match s with
  | c :: s' =>
      if Ascii.eqb c ch
      then match k s' with Some r => Some r | None => k s end
      else k s
  | [] => k s
  end.

Definition not_newline (c : ascii) : bool := negb (Ascii.eqb c "010").

(** [(.+)$]: the group.  [$] matches at the end and before a final LF. *)
Definition rest_of_line (s : list ascii) : option (list ascii) :=
  let n := run_length not_newline s in
  match n, drop n s with
  | O, _ => None
  | _, [] => Some (take n s)
  | _, [_] => Some (take n s)        (* the character is the final LF *)
  | _, _ => None
  end.

(** [\s*:?\s*(.+)$] on what follows the label: the group. *)
Definition value_after_label (s : list ascii) : option (list ascii) :=
  zero_or_more Py.is_space s (fun s =>
    zero_or_one ":" s (fun s => zero_or_more Py.is_space s rest_of_line)).

(** [re.compile(rf"^{re.escape(label)}\s*:?\s*(.+)$", re.IGNORECASE).match(line)]:
    group 1. *)
Definition match_label_line (label line : string) : option string :=
  match match_literal (list_ascii_of_string label) (list_ascii_of_string line) with
  | None => None
  | Some s =>
      match value_after_label s with
      | Some value => Some (string_of_list_ascii value)
      | None => None
      end
  end.

Fixpoint extract_value_from_lines (lines : list string) (label : string)
  : string :=
  match lines with
  | [] => ""
  | line :: rest =>
      match rest with
      | next :: _ =>
          if String.eqb (Py.lower line) (Py.lower label) then Py.strip next
          else match match_label_line label line with
               | Some value => Py.strip value
               | None => extract_value_from_lines rest label
               end
      | [] =>
          match match_label_line label line with
          | Some value => Py.strip value
          | None => ""
          end
      end
  end.

(** The alternatives of a unit, left to right: the matched text. *)
Fixpoint match_unit (units : list string) (s : list ascii)
  : option (list ascii) :=
  match units with
  | [] => None
  | u :: units' =>
      match match_literal (list_ascii_of_string u) s with
      | Some _ => Some (take (String.length u) s)
      | None => match_unit units' s
      end
  end.

(** [\d+\s*(?:u1|u2|...)] at the head of [s]: the matched text. *)
Definition duration_at (units : list string) (s : list ascii)
  : option (list ascii) :=
  one_or_more Py.is_digit s (fun s1 =>
    zero_or_more Py.is_space s1 (fun s2 =>
      match match_unit units s2 with
      | Some u =>
          Some (take (List.length s - List.length s2) s ++ u)%list
      | None => None
      end)).

(** [pattern.search(line)]: the leftmost match, group 1. *)
Fixpoint search_duration (units : list string) (s : list ascii)
  : option (list ascii) :=
  match duration_at units s with
  | Some m => Some m
  | None => match s with
            | _ :: s' => search_duration units s'
            | [] => None
            end
  end.

Definition duration_search (units : list string) (line : string)
  : option string :=
  match search_duration units (list_ascii_of_string line) with
  | Some m => Some (string_of_list_ascii m)
  | None => None
  end.

(** *** Confinement and probation *)

Definition facility_labels : list string :=
  [ "STATE JAIL"; "COUNTY JAIL"; "PENITENTIARY"; "PRISON"; "JAIL" ].

Definition confinement_units : list string := [ "days"; "months"; "years" ].

Definition probation_units : list string :=
  [ "days"; "day"; "months"; "month"; "years"; "year" ].

Definition mentions_facility (line : string) : bool :=
  existsb (fun label => Py.contains (Py.lower label) (Py.lower line))
          facility_labels.

(** The inner [for label in facility_labels] loop. *)
Definition first_facility (lower_line : string) : string :=
  match List.find (fun label => Py.contains (Py.lower label) lower_line)
                  facility_labels with
  | Some label => label
  | None => ""
  end.

(** The loop over [ordered_lines], with [duration] and [facility] as
    found so far. *)
Fixpoint scan_confinement (ordered_lines : list string)
    (duration facility : string) : string * string :=
  match ordered_lines with
  | [] => (duration, facility)
  | line :: rest =>
      let lower_line := Py.lower line in
      let duration :=
        if negb (Py.truthy duration) then
          match duration_search confinement_units lower_line with
          | Some m => Py.title (Py.strip m)
          | None => duration
          end
        else duration in
      let facility :=
        if negb (Py.truthy facility) then first_facility lower_line
        else facility in
      if Py.truthy duration && Py.truthy facility then (duration, facility)
      else scan_confinement rest duration facility
  end.

Definition parse_confinement_details (lines : list string) : string :=
  match lines with
  | [] => ""
  | _ =>
      let prioritized_lines := List.filter mentions_facility lines in
      let other_lines :=
        List.filter (fun line => negb (mentions_facility line)) lines in
      let ordered_lines := (prioritized_lines ++ other_lines)%list in
      let '(duration, facility) := scan_confinement ordered_lines "" "" in
      if Py.truthy duration && Py.truthy facility
      then duration +:+ ", " +:+ facility
      else if Py.truthy duration then duration
      else if Py.truthy facility then facility
      else ""
  end.

Definition probation_keywords : list string :=
  [ "cscd"; "probation"; "community service" ].

Definition mentions_probation (line : string) : bool :=
  existsb (fun keyword => Py.contains keyword (Py.lower line))
          probation_keywords.

(** The first loop of [parse_probation_details]. *)
Fixpoint first_duration (ordered_lines : list string) : option string :=
  match ordered_lines with
  | [] => None
  | line :: rest =>
      match duration_search probation_units line with
      | Some m => Some (Py.title (Py.strip m))
      | None => first_duration rest
      end
  end.

(** The second loop. *)
Fixpoint first_text (ordered_lines : list string) : string :=
  match ordered_lines with
  | [] => ""
  | line :: rest =>
      let cleaned := Py.strip line in
      if Py.truthy cleaned then cleaned else first_text rest
  end.

Definition parse_probation_details (lines : list string) : string :=
  match lines with
  | [] => ""
  | _ =>
      let priority_lines := List.filter mentions_probation lines in
      let other_lines :=
        List.filter (fun line => negb (mentions_probation line)) lines in
      let ordered_lines := (priority_lines ++ other_lines)%list in
      match first_duration ordered_lines with
      | Some duration => duration
      | None => first_text ordered_lines
      end
  end.

(** *** The Disposition Events grid *)

(** One row of the grid: the [div[title]] inside its last cell (its
    [title] attribute and its text), the text of that cell and the text of
    the row; or an exception raised while the row is read. *)
Record EventRow := mkEventRow {
  titled_div : option (option string * option string);
  target_cell_text : option string;
  event_row_text : option string
}.

Inductive EventRowProbe :=
  | RowRead (r : EventRow)
  | RowRaises.

(** The rows one table selector matches; [None]: the driver raises. *)
Definition TableProbe := option (list EventRowProbe).

Definition table_selectors : list string :=
  [ "div[id^='CriminalDispositions'] table tbody tr";
    "p:has-text('Disposition Events') ~ div .k-grid table tbody tr";
    "p:has-text('Disposition Events') ~ div table tbody tr" ].

Definition event_text (r : EventRow) : string :=
  match titled_div r with
  | Some (title, text) => Py.or_else title (Py.or_else text "")
  | None => Py.or_else (target_cell_text r) (Py.or_else (event_row_text r) "")
  end.

(** The selector loop: [None] when the driver raises, else the rows of the
    first selector that matches any ([[]] when none does). *)
Fixpoint first_table (tables : list TableProbe)
  : option (list EventRowProbe) :=
  match tables with
  | [] => Some []
  | None :: _ => None
  | Some [] :: rest => first_table rest
  | Some rows :: _ => Some rows
  end.

(** The loop over the rows; [None]: a row raised. *)
Fixpoint collect_events (rows : list EventRowProbe) (events : list string)
  : option (list string) :=
  match rows with
  | [] => Some events
  | RowRaises :: _ => None
  | RowRead r :: rest =>
      let cleaned := collapse_whitespace (event_text r) in
      let events :=
        if Py.truthy cleaned then (events ++ [cleaned])%list else events in
      if (4 <=? List.length events)%nat then Some events
      else collect_events rest events
  end.

Definition extract_disposition (tables : string -> TableProbe) : string :=
  match first_table (map tables table_selectors) with
  | None => ""
  | Some [] => ""
  | Some rows =>
      match collect_events rows [] with
      | Some events => Py.join " | " events
      | None => ""
      end
  end.

(** *** The charge description *)

Inductive SpanProbe :=
  | SpanRaises
  | SpanAbsent                                  (* charge_span.count() == 0 *)
  | SpanFound (title text : option string).

(** A row of the charge table as [extract_description_from_row] reads it. *)
Inductive ChargeRow :=
  | ChargeRowRaises
  | ChargeCells (second_cell : option string)   (* cells.count() >= 2 *)
  | ChargeRowOnly (text : option string).

Record ChargeDom := mkChargeDom {
  charge_span : SpanProbe;
  charge_rows : option (list ChargeRow);        (* None: the driver raises *)
  charge_section_text : string                  (* get_section_text(page, "Charge") *)
}.

Definition extract_description_from_row (row_handle : ChargeRow) : string :=
  match row_handle with
  | ChargeRowRaises => ""
  | ChargeCells desc_text => collapse_whitespace (Py.or_else desc_text "")
  | ChargeRowOnly row_text => collapse_whitespace (Py.or_else row_text "")
  end.

Fixpoint first_description (rows : list ChargeRow) : string :=
  match rows with
  | [] => ""
  | row :: rest =>
      let description := extract_description_from_row row in
      if Py.truthy description then description else first_description rest
  end.

Definition excluded_tokens : list string :=
  [ "charge"; "charges"; "description"; "statute"; "level"; "date" ].

Definition excluded (token : string) : bool :=
  existsb (String.eqb token) excluded_tokens.

(** The loop of the text fallback. *)
Fixpoint charge_from_lines (lines : list string) : string :=
  match lines with
  | [] => ""
  | line :: rest =>
      if excluded (Py.lower line) then charge_from_lines rest
      else
        match rest with
        | candidate :: _ =>
            if Py.isdigit (Py.strip line) && negb (excluded (Py.lower candidate))
            then Py.strip candidate
            else charge_from_lines rest
        | [] => ""
        end
  end.

Definition extract_charge_description (dom : ChargeDom) : string :=
  let from_span :=
    match charge_span dom with
    | SpanFound title text =>
        collapse_whitespace (Py.or_else title (Py.or_else text ""))
    | _ => ""
    end in
  if Py.truthy from_span then from_span
  else
    let from_table :=
      match charge_rows dom with
      | Some rows => first_description rows
      | None => ""
      end in
    if Py.truthy from_table then from_table
    else charge_from_lines (normalize_section_lines (charge_section_text dom)).

(** *** The sentencing sections as text *)

Record SentencingPage := mkSentencingPage {
  disposition_tables : string -> TableProbe;
  confinement_text : string;     (* get_section_text(page, "Confinement") *)
  probation_text : string        (* get_section_text(page, "TX CSCD and Community Service") *)
}.

(** What [extract_disposition_and_sentencing] reads off such a page. *)
Definition disposition_dom_of (page : SentencingPage) : DispositionDom :=
  mkDispositionDom
    (extract_disposition (disposition_tables page))
    (if Py.truthy (confinement_text page)
     then Some (parse_confinement_details
                  (normalize_section_lines (confinement_text page)))
     else None)
    (if Py.truthy (probation_text page)
     then Some (parse_probation_details
                  (normalize_section_lines (probation_text page)))
     else None).

(** *** Predicates used in the statements *)

(** The entry a required field leaves in [field_errors]. *)
Definition missing_field (field_label value : string) : list string :=
  if Py.truthy (Py.strip value) then [] else [field_label].

(** A line as [normalize_section_lines] returns it: not empty, no blank at
    either end, no line break inside. *)
Definition clean_line (line : string) : Prop :=
  line <> "" /\
  Py.trimmed (list_ascii_of_string line) /\
  Forall (fun c => Py.is_linebreak c = false) (list_ascii_of_string line).

(** The cleaned text of every row that shows one. *)
Definition shown_events (rows : list EventRow) : list string :=
  List.filter Py.truthy
    (map (fun r => collapse_whitespace (event_text r)) rows).

(** The duration of the first line that holds one, as
    [parse_confinement_details] formats it. *)
Fixpoint confinement_duration (ordered_lines : list string) : string :=
  match ordered_lines with
  | [] => ""
  | line :: rest =>
      match duration_search confinement_units (Py.lower line) with
      | Some m => Py.title (Py.strip m)
      | None => confinement_duration rest
      end
  end.

(** The facility of the first line that names one. *)
Definition confinement_facility (lines : list string) : string :=
  match List.find mentions_facility lines with
  | Some line => first_facility (Py.lower line)
  | None => ""
  end.

End CaseDataExtractor.

(* ===================================================================== *)
(** ** captcha_handler.py *)
(* ===================================================================== *)
Module CaptchaHandler.

(** *** The thread-local flag

    [thread_local] holds, per thread, the attribute
    [use_manual_captcha_only] once it has been written. *)

Definition get_manual_captcha_flag (tid : nat) (thread_local : gmap nat bool)
  : bool * gmap nat bool :=
  match thread_local !! tid with
  | Some flag => (flag, thread_local)
  | None => (false, <[tid := false]> thread_local)
  end.

Definition set_manual_captcha_flag (tid : nat) (value : bool)
    (thread_local : gmap nat bool) : gmap nat bool :=
  <[tid := value]> thread_local.

(** *** Manual solving *)

(** The person in front of the browser, seen from one call of
    [solve_captcha_manually]: what the k-th look at the checkbox finds, and
    [time.time() - start_time] (in ms) at the k-th timeout test. *)
Record Human := mkHuman {
  checkbox_checked : nat -> bool;
  elapsed_ms : nat -> Z
}.

(** [solve_captcha_manually(page, timeout)], [timeout] in seconds.  The
    [while True] loop is unrolled [fuel] times from iteration [k]; [None]
    means the loop is still polling. *)
Fixpoint solve_captcha_manually_from (fuel : nat) (h : Human)
    (timeout : option Z) (k : nat) : option bool :=
  match fuel with
  | O => None
  | S fuel' =>
      if checkbox_checked h k then Some true
      else
        match timeout with
        | Some t =>
            if t * 1000 <? elapsed_ms h k then Some false
            else solve_captcha_manually_from fuel' h timeout (S k)
        | None => solve_captcha_manually_from fuel' h timeout (S k)
        end
  end.

Definition solve_captcha_manually (fuel : nat) (h : Human) (timeout : option Z)
  : option bool :=
  solve_captcha_manually_from fuel h timeout 0.

(** *** The 2captcha service *)

Inductive SubmitReply :=
  | SubmitRequestError                  (* requests.RequestException *)
  | SubmitBadJson                       (* response.json() raises ValueError *)
  | SubmitAccepted (captcha_id : string)(* status == 1 *)
  | SubmitRejected (error_code : string).

Inductive PollReply :=
  | PollRequestError
  | PollBadJson
  | PollSolved (token : string)         (* status == 1 *)
  | PollNotReady                        (* CAPCHA_NOT_READY / CAPTCHA_NOT_READY *)
  | PollError (error_code : string).

Record Service := mkService {
  balance : option Q;            (* check_2captcha_balance(api_key) in dollars;
                                    None when the check fails *)
  page_site_key : option string; (* get_recaptcha_site_key(page) *)
  submit_reply : nat -> SubmitReply;   (* reply to the n-th POST in.php *)
  poll_reply : nat -> PollReply;       (* reply to the n-th GET res.php *)
  token_verified : bool;         (* inject_recaptcha_token(page, token) *)
  service_raises : bool          (* an exception escapes inside the try block *)
}.

(** [balance < 0.003] *)
Definition below_minimum (balance : Q) : bool :=
  negb (Qle_bool (3 # 1000) balance).

Definition max_submit_retries : nat := 3.
Definition max_attempts : nat := 60.

(** The submission loop [for retry in range(max_submit_retries)].
    [None]: the function returns False. *)
Fixpoint submit_captcha (remaining retry : nat) (svc : Service)
  : option string :=
  match remaining with
  | O => None
  | S remaining' =>
      match submit_reply svc retry with
      | SubmitRequestError =>
          if bool_decide (retry = (max_submit_retries - 1)%nat) then None
          else submit_captcha remaining' (S retry) svc
      | SubmitBadJson => None
      | SubmitAccepted captcha_id => Some captcha_id
      | SubmitRejected _ => None
      end
  end.

(** The polling loop [while attempt < max_attempts], with the number of
    GET requests it made. *)
Fixpoint poll_solution (remaining attempt : nat) (svc : Service)
  : bool * nat :=
  match remaining with
  | O => (false, attempt)
  | S remaining' =>
      match poll_reply svc attempt with
      | PollRequestError => poll_solution remaining' (S attempt) svc
      | PollBadJson => (false, S attempt)
      | PollSolved token =>
          if (String.length token <? 100)%nat then (false, S attempt)
          else (token_verified svc, S attempt)
      | PollNotReady => poll_solution remaining' (S attempt) svc
      | PollError _ => (false, S attempt)
      end
  end.

Definition solve_recaptcha_v2_with_2captcha (svc : Service) (api_key : string)
  : bool :=
  if (String.length api_key <? 32)%nat then false
  else match page_site_key svc with
  | None => false
  | Some site_key =>
      if (String.length site_key <? 20)%nat then false
      else match submit_captcha max_submit_retries 0 svc with
           | None => false
           | Some _ => fst (poll_solution max_attempts 0 svc)
           end
  end.

(** *** History of one call, kept for the proofs *)

Inductive Event :=
  | AutomatedAttempt                 (* solve_recaptcha_v2_with_2captcha called *)
  | ManualWait (timeout : option Z). (* solve_captcha_manually called *)

(** What the page and the service answer during one [resolve_captcha]. *)
Record CaptchaEnv := mkCaptchaEnv {
  captcha_detected : bool;              (* detect_captcha(page) *)
  service : Service;
  human_in_service : Human;             (* the wait inside solve_captcha_with_service *)
  recaptcha_iframe_found : bool;        (* iframe_locator.count() != 0 *)
  checkbox_border_visible : option bool;(* None: is_visible raises *)
  checkbox_click_ok : bool;             (* checkbox_border.click does not raise *)
  human_in_fallback : Human             (* the wait of the manual fallback *)
}.

Record Outcome := mkOutcome {
  returned : option bool;               (* None: still waiting when fuel ran out *)
  thread_local_after : gmap nat bool;
  history : list Event
}.

(** [solve_captcha_with_service(page, api_key)] on thread [tid]. *)
Definition solve_captcha_with_service (fuel : nat) (env : CaptchaEnv)
    (tid : nat) (thread_local : gmap nat bool) (api_key : string) : Outcome :=
  let manual := solve_captcha_manually fuel (human_in_service env) (Some 300) in
  let '(flag, thread_local) := get_manual_captcha_flag tid thread_local in
  if flag then mkOutcome manual thread_local [ManualWait (Some 300)]
  else if negb (Py.truthy api_key)
  then mkOutcome manual thread_local [ManualWait (Some 300)]
  else if service_raises (service env)
  then mkOutcome manual (set_manual_captcha_flag tid true thread_local)
         [ManualWait (Some 300)]
  else
    match balance (service env) with
    | Some balance =>
        if below_minimum balance
        then mkOutcome manual (set_manual_captcha_flag tid true thread_local)
               [ManualWait (Some 300)]
        else if solve_recaptcha_v2_with_2captcha (service env) api_key
        then mkOutcome (Some true) thread_local [AutomatedAttempt]
        else mkOutcome manual (set_manual_captcha_flag tid true thread_local)
               [AutomatedAttempt; ManualWait (Some 300)]
    | None =>
        if solve_recaptcha_v2_with_2captcha (service env) api_key
        then mkOutcome (Some true) thread_local [AutomatedAttempt]
        else mkOutcome manual (set_manual_captcha_flag tid true thread_local)
               [AutomatedAttempt; ManualWait (Some 300)]
    end.

(** The manual fallback at the end of [resolve_captcha]. *)
Definition manual_fallback (fuel : nat) (env : CaptchaEnv)
  : option bool * list Event :=
  if negb (recaptcha_iframe_found env) then (Some false, [])
  else match checkbox_border_visible env with
  | None => (Some false, [])
  | Some false => (Some false, [])
  | Some true =>
      if negb (checkbox_click_ok env) then (Some false, [])
      else (solve_captcha_manually fuel (human_in_fallback env) None,
            [ManualWait None])
  end.

(** [resolve_captcha(page, api_key, use_service, action_delay)]. *)
Definition resolve_captcha (fuel : nat) (env : CaptchaEnv) (tid : nat)
    (thread_local : gmap nat bool) (api_key : option string)
    (use_service : bool) : Outcome :=
  if negb (captcha_detected env) then mkOutcome (Some true) thread_local []
  else
    let fallback tl hist :=
      let '(r, evs) := manual_fallback fuel env in
      mkOutcome r tl (hist ++ evs)%list in
    match api_key with
    | Some key =>
        if use_service && Py.truthy key then
          let o := solve_captcha_with_service fuel env tid thread_local key in
          match returned o with
          | None => o
          | Some true => o
          | Some false => fallback (thread_local_after o) (history o)
          end
        else fallback thread_local []
    | None => fallback thread_local []
    end.

(** *** Predicates used in the statements *)

(** A manual wait with the five-minute timeout. *)
Definition bounded_wait (e : Event) : Prop :=
  match e with
  | ManualWait timeout => timeout = Some 300
  | AutomatedAttempt => True
  end.

(** The manual fallback gets as far as [solve_captcha_manually(page)]. *)
Definition fallback_reaches_wait (env : CaptchaEnv) : bool :=
  recaptcha_iframe_found env
  && match checkbox_border_visible env with Some true => true | _ => false end
  && checkbox_click_ok env.

(** The three ways the automated path fails: an exception, a balance below
    $0.003, a failed solve. *)
Definition automated_fails (svc : Service) (key : string) : bool :=
  service_raises svc
  || match balance svc with Some b => below_minimum b | None => false end
  || negb (solve_recaptcha_v2_with_2captcha svc key).

(** *** Further predicates used in the statements *)

(** The timeout test of [solve_captcha_manually]. *)
Definition expired (timeout : option Z) (elapsed : Z) : bool :=
  match timeout with
  | Some t => t * 1000 <? elapsed
  | None => false
  end.




(** The paid service may be asked: the thread has not fallen back to
    manual solving, there is an API key, nothing raises on the way, and the
    balance, if it could be read, is at least $0.003. *)
Definition service_allowed (env : CaptchaEnv) (tid : nat)
    (thread_local : gmap nat bool) (api_key : string) : bool :=
  negb (fst (get_manual_captcha_flag tid thread_local))
  && Py.truthy api_key
  && negb (service_raises (service env))
  && match balance (service env) with
     | Some b => negb (below_minimum b)
     | None => true
     end.

Definition is_automated (e : Event) : bool :=
  match e with AutomatedAttempt => true | ManualWait _ => false end.

End CaptchaHandler.

(* ===================================================================== *)
(** ** datetime.strptime, for the four formats of scraper.py *)
(* ===================================================================== *)
Module Strptime.

Definition CharClass := ascii -> bool.

Definition chr (ch : ascii) : CharClass := fun c => Ascii.eqb c ch.
Definition between (lo hi : ascii) : CharClass :=
  fun c => ((nat_of_ascii lo <=? nat_of_ascii c)%nat
            && (nat_of_ascii c <=? nat_of_ascii hi)%nat)%bool.
Definition digit : CharClass := Py.is_digit.

Inductive Directive := dir_m | dir_d | dir_Y.

(** The regular expressions of CPython's [_strptime.TimeRE], one list of
    character classes per alternative, in the order of the alternation:
    [%m] is [1[0-2]|0[1-9]|[1-9]], [%d] is
    [3[0-1]|[1-2]\d|0[1-9]|[1-9]| [1-9]] and [%Y] is [\d\d\d\d]. *)
Definition regex_of (d : Directive) : list (list CharClass) :=
  match d with
  | dir_m => [ [chr "1"; between "0" "2"]; [chr "0"; between "1" "9"];
               [between "1" "9"] ]
  | dir_d => [ [chr "3"; between "0" "1"]; [between "1" "2"; digit];
               [chr "0"; between "1" "9"]; [between "1" "9"];
               [chr " "; between "1" "9"] ]
  | dir_Y => [ [digit; digit; digit; digit] ]
  end.

Inductive Item :=
  | Field (d : Directive)
  | Lit (c : ascii).

(** The format string, read as [_strptime] reads it. *)
Fixpoint parse_format (fmt : list ascii) : list Item :=
  match fmt with
  | [] => []
  | "%"%char :: "m"%char :: rest => Field dir_m :: parse_format rest
  | "%"%char :: "d"%char :: rest => Field dir_d :: parse_format rest
  | "%"%char :: "Y"%char :: rest => Field dir_Y :: parse_format rest
  | c :: rest => Lit c :: parse_format rest
  end.

(** One alternative against a prefix of the input. *)
Fixpoint match_seq (classes : list CharClass) (s : list ascii)
  : option (list ascii * list ascii) :=
  match classes with
  | [] => Some ([], s)
  | cl :: classes' =>
      match s with
      | c :: s' =>
          if cl c then
            match match_seq classes' s' with
            | Some (cap, rest) => Some (c :: cap, rest)
            | None => None
            end
          else None
      | [] => None
      end
  end.

(** [format_regex.match(data_string)]: backtracking over the alternatives,
    first match wins.  Returns the groups and the unmatched rest. *)
Fixpoint match_items (items : list Item) (s : list ascii)
  : option (list (Directive * list ascii) * list ascii) :=
  match items with
  | [] => Some ([], s)
  | Lit ch :: items' =>
      match s with
      | c :: s' => if Ascii.eqb c ch then match_items items' s' else None
      | [] => None
      end
  | Field d :: items' =>
      (fix try_alternatives (alts : list (list CharClass)) :=
         match alts with
         | [] => None
         | alt :: alts' =>
             match match_seq alt s with
             | Some (cap, rest) =>
                 match match_items items' rest with
                 | Some (groups, rest') => Some ((d, cap) :: groups, rest')
                 | None => try_alternatives alts'
                 end
             | None => try_alternatives alts'
             end
         end) (regex_of d)
  end.

(** [int(text)] for a group of digits, leading blanks ignored. *)
Definition int_of (l : list ascii) : Z :=
  fold_left (fun acc c => if Py.is_digit c
                          then acc * 10 + (Z.of_nat (nat_of_ascii c) - 48)
                          else acc) l 0.

Definition same_directive (a b : Directive) : bool :=
  match a, b with
  | dir_m, dir_m | dir_d, dir_d | dir_Y, dir_Y => true
  | _, _ => false
  end.

Fixpoint group (d : Directive) (groups : list (Directive * list ascii))
    (default : Z) : Z :=
  match groups with
  | [] => default
  | (d', cap) :: groups' =>
      if same_directive d d' then int_of cap else group d groups' default
  end.

Record date := mkDate { year : Z; month : Z; day : Z }.

Definition is_leap (y : Z) : bool :=
  (y mod 4 =? 0) && (negb (y mod 100 =? 0) || (y mod 400 =? 0)).

Definition days_in_month (y m : Z) : Z :=
  if m =? 2 then (if is_leap y then 29 else 28)
  else if (m =? 4) || (m =? 6) || (m =? 9) || (m =? 11) then 30
  else 31.

(** [datetime.date(year, month, day)] raises ValueError outside this range. *)
Definition valid_date (y m d : Z) : bool :=
  (1 <=? y) && (y <=? 9999) && (1 <=? m) && (m <=? 12)
  && (1 <=? d) && (d <=? days_in_month y m).

(** [datetime.strptime(data_string, format)]; [None] is ValueError. *)
Definition strptime (data_string format : string) : option date :=
  match match_items (parse_format (list_ascii_of_string format))
                    (list_ascii_of_string data_string) with
  | Some (groups, []) =>
      let y := group dir_Y groups 1900 in
      let m := group dir_m groups 1 in
      let d := group dir_d groups 1 in
      if valid_date y m d then Some (mkDate y m d) else None
  | Some (_, _ :: _) => None          (* unconverted data remains *)
  | None => None
  end.

(** *** Predicates used in the statements *)

(** The characters a group can hold. *)
Definition field_char (c : ascii) : bool := Py.is_digit c || Ascii.eqb c " ".

Definition field_text (d : Directive) (cap : list ascii) : Prop :=
  Forall (fun c => field_char c = true) cap /\
  match d with
  | dir_Y => List.length cap = 4%nat
  | _ => (List.length cap <= 2)%nat
  end.

End Strptime.

(* ===================================================================== *)
(** ** scraper.py: DallasCountyScraper *)
(* ===================================================================== *)
Module Scraper.

Import CaseDataExtractor.

(** *** What the portal shows *)

(** A link looked up inside a results row. *)
Inductive LinkProbe :=
  | LinkRaises                          (* the driver raises *)
  | LinkHidden                          (* count() == 0 or not visible *)
  | LinkText (text : option string).    (* text_content() *)

(** One [<tr>] of the results grid. *)
Record Row := mkRow {
  row_text : string;                    (* element.text_content() *)
  primary_link : LinkProbe;             (* a.caseLink, a[data-caseid] *)
  fallback_link : LinkProbe             (* td:first-child a, a[href*='CaseDetail'] *)
}.

(** A probe of the first row's File Date cell by one selector. *)
Inductive SelectorProbe :=
  | ProbeRaises
  | ProbeAbsent                         (* element.count() == 0 *)
  | ProbeText (text : option string).   (* element.text_content() *)

(** The wait for the 'Party Search Results' heading. *)
Inductive HeadingWait :=
  | HeadingAfter (ms : Z)               (* the heading shows up after [ms] ms *)
  | HeadingNever
  | WaitRaises.                         (* an error other than a timeout *)

(** One 'Search Results' tab selector, probed on the case detail page. *)
Record TabProbe := mkTabProbe {
  tab_count : option nat;               (* locator.count(); None: raises *)
  tab_visible : option bool;            (* is_visible(timeout=5000); None: raises *)
  tab_click_ok : bool;                  (* click(timeout=5000) does not raise *)
  heading : HeadingWait
}.

(** What a call of [setup_browser] (utils.py) meets.  The function starts
    Playwright, launches Chrome, creates the context and the page and
    patches the page, without any handler of its own: when a step raises,
    what the earlier steps started stays and no handle reaches the
    caller. *)
Inductive SetupOutcome :=
  | SetupReturns        (* the four handles are returned *)
  | SetupFailsToStart   (* sync_playwright().start() raises: nothing is left *)
  | SetupFailsLater.    (* a later step raises: Playwright, with Chrome once
                           launched, keeps running *)

(** One attempt of [recover_session], step by step. *)
Record Attempt := mkAttempt {
  att_setup_browser : SetupOutcome;     (* setup_browser(headless=HEADLESS) *)
  att_navigate : bool;                  (* navigate_to_search_page() *)
  att_select : bool;                    (* select_attorney_name_from_dropdown() *)
  att_fill : bool;                      (* fill_search_fields() *)
  att_captcha : bool;                   (* resolve_captcha(...) *)
  att_submit : bool                     (* click_submit_button() *)
}.

Inductive Fault :=
  | FaultBeforeOpen      (* an exception before the case link is clicked *)
  | FaultAfterMark.      (* an exception after the case was marked processed *)

(** The portal as the workflow meets it.  The first argument is the
    scraper's step counter: answers may change from one step to the next. *)
Record Portal := mkPortal {
  rows_by_selector : nat -> string -> option (list Row); (* None: raises *)
  open_case : nat -> Row -> option DetailPage;  (* click_case_link: the page
                                                   shown, None when it fails *)
  search_tab : nat -> string -> TabProbe;
  row_fault : nat -> option Fault;
  recovery : nat -> nat -> Attempt      (* step, attempt number *)
}.

(** *** The scraper object *)

Record State := mkState {
  attorney : Attorney;
  results : list CaseRecord;
  processed_case_numbers : gset string;
  current_attorney_case_count : nat;
  has_session : bool;          (* self.page, self.browser, ... are set *)
  step : nat;                  (* loop iterations so far *)
  (* history kept for the proofs *)
  live_sessions : nat;         (* Playwright instances started for the scraper
                                  and not stopped, each with the browser it
                                  launched *)
  opened_log : list string     (* row case number of every case link opened *)
}.

Definition set_results (s : State) (rs : list CaseRecord) (n : nat) : State :=
  mkState (attorney s) rs (processed_case_numbers s) n (has_session s) (step s)
          (live_sessions s) (opened_log s).

Definition mark_processed (s : State) (case_number : string) : State :=
  mkState (attorney s) (results s) ({[case_number]} ∪ processed_case_numbers s)
          (current_attorney_case_count s) (has_session s) (step s)
          (live_sessions s) (opened_log s).

Definition log_opened (s : State) (case_number : string) : State :=
  mkState (attorney s) (results s) (processed_case_numbers s)
          (current_attorney_case_count s) (has_session s) (step s)
          (live_sessions s) (opened_log s ++ [case_number]).

Definition next_step (s : State) : State :=
  mkState (attorney s) (results s) (processed_case_numbers s)
          (current_attorney_case_count s) (has_session s) (S (step s))
          (live_sessions s) (opened_log s).

(** [setup_browser] succeeded and its four handles were stored in [self]. *)
Definition store_session (s : State) : State :=
  mkState (attorney s) (results s) (processed_case_numbers s)
          (current_attorney_case_count s) true (step s)
          (S (live_sessions s)) (opened_log s).

(** [setup_browser] raised after it had started Playwright: the instance
    stays, and [self] is left as it was. *)
Definition abandon_session (s : State) : State :=
  mkState (attorney s) (results s) (processed_case_numbers s)
          (current_attorney_case_count s) (has_session s) (step s)
          (S (live_sessions s)) (opened_log s).

(** [self.playwright, self.browser, self.context, self.page =
    setup_browser(...)] inside its [try]: whether the call returned, and
    the scraper afterwards.  A worker thread runs one scraper at a time,
    and Playwright's sync API runs one instance per thread:
    [sync_playwright().start()] raises as long as an instance started
    earlier has not been stopped. *)
Definition setup_browser (outcome : SetupOutcome) (s : State) : bool * State :=
  if (0 <? live_sessions s)%nat then (false, s)
  else match outcome with
       | SetupReturns => (true, store_session s)
       | SetupFailsToStart => (false, s)
       | SetupFailsLater => (false, abandon_session s)
       end.

(** [cleanup]: closes what [self] still refers to and clears the fields. *)
Definition cleanup (s : State) : State :=
  if has_session s
  then mkState (attorney s) (results s) (processed_case_numbers s)
               (current_attorney_case_count s) false (step s)
               (Nat.pred (live_sessions s)) (opened_log s)
  else s.

(** [__init__] after [setup_browser] returned. *)
Definition init (a : Attorney) : State :=
  store_session (mkState a [] ∅ 0 false 0 0 []).

(** *** Step 7: the year cutoff *)

Definition file_date_selectors : list string :=
  [ "td.card-data.party-case-filedate[data-label='File Date']";
    "td[data-label='File Date']";
    "td.party-case-filedate";
    "td.card-data[data-label='File Date']" ].

(** The selector loop: [(date_element is set, date_text)]. *)
Fixpoint scan_file_date (probes : list SelectorProbe)
    (date_text : option string) : bool * option string :=
  match probes with
  | [] => (false, date_text)
  | ProbeRaises :: rest => scan_file_date rest date_text
  | ProbeAbsent :: rest => scan_file_date rest date_text
  | ProbeText text :: rest =>
      match text with
      | Some t =>
          if Py.truthy t && Py.truthy (Py.strip t) then (true, text)
          else scan_file_date rest text
      | None => scan_file_date rest text
      end
  end.

Definition date_formats : list string := ["%Y-%m-%d"; "%m-%d-%Y"; "%d/%m/%Y"].

(** The [for date_format in date_formats] loop of the [except ValueError]
    branch. *)
Fixpoint try_date_formats (date_text : string) (formats : list string)
    (minimum_case_year : Z) : bool :=
  match formats with
  | [] => true                           (* could not parse: proceed *)
  | date_format :: rest =>
      match Strptime.strptime date_text date_format with
      | Some parsed_date => minimum_case_year <=? Strptime.year parsed_date
      | None => try_date_formats date_text rest minimum_case_year
      end
  end.

Definition check_latest_file_date (first_row : string -> SelectorProbe)
    (minimum_case_year : Z) : bool :=
  match scan_file_date (map first_row file_date_selectors) None with
  | (true, Some date_text) =>
      if Py.truthy date_text then
        let date_text := Py.strip date_text in
        match Strptime.strptime date_text "%m/%d/%Y" with
        | Some parsed_date => minimum_case_year <=? Strptime.year parsed_date
        | None => try_date_formats date_text date_formats minimum_case_year
        end
      else true
  | _ => true                            (* date not found: proceed *)
  end.

(** *** Rows *)

Definition row_selectors : list string :=
  [ "table tr:not(:first-child)"; "tbody tr"; "[class*='case-row']";
    "tr:has(a[href*='case'])" ].

Definition case_type_filter : string := Py.lower (Py.strip Config.CASE_TYPE).

Fixpoint first_matching_rows (answers : list (option (list Row)))
  : list Row :=
  match answers with
  | [] => []
  | None :: rest => first_matching_rows rest
  | Some elements :: rest =>
      let filtered_rows :=
        List.filter (fun r => Py.contains case_type_filter
                                          (Py.lower (row_text r))) elements in
      match filtered_rows with
      | [] => first_matching_rows rest
      | _ => filtered_rows
      end
  end.

Definition get_case_type_rows (p : Portal) (s : State) : list Row :=
  first_matching_rows (map (rows_by_selector p (step s)) row_selectors).

Definition link_text (text : option string) : string :=
  Py.strip (match text with Some t => t | None => "" end).

Definition get_case_number_from_row (row : Row) : string :=
  match primary_link row with
  | LinkRaises => ""
  | LinkText text => link_text text
  | LinkHidden =>
      match fallback_link row with
      | LinkText text => link_text text
      | _ => ""
      end
  end.

(** *** Case details *)

Definition with_attorney (a : Attorney) (c : CaseRecord) : CaseRecord :=
  mkCaseRecord (case_number c) (file_date c) (judicial_officer c)
    (case_status c) (case_type c) (charge_description c) (bond_amount c)
    (disposition c) (sentencing_info c)
    (first_name a +:+ " " +:+ last_name a) (first_name a) (last_name a).

Definition process_case_details (s : State) (page : DetailPage) : State :=
  if check_for_charge_keyword page Config.CHARGE_KEYWORDS then
    let case_data := with_attorney (attorney s) (extract_case_details page) in
    set_results s (results s ++ [case_data])
                (S (current_attorney_case_count s))
  else s.

(** *** Going back to the results list *)

(** [wait_for_search_results_page(max_wait_seconds)]: the result and the
    time spent in [page.wait_for_selector], in ms. *)
Definition wait_for_search_results_page (w : HeadingWait)
    (max_wait_seconds : Z) : bool * Z :=
  let timeout_ms := max_wait_seconds * 10 in
  match w with
  | HeadingAfter ms =>
      if ms <? timeout_ms then (true, ms) else (false, timeout_ms)
  | HeadingNever => (false, timeout_ms)
  | WaitRaises => (false, 0)
  end.

Definition search_tab_selectors : list string :=
  [ "a#tcControllerLink_1"; "li#tcController_1 a";
    "a:has-text('Search Results')"; "p.step-label:has-text('Search Results')" ].

(** The selector loop of [navigate_back_to_search_results]. *)
Fixpoint try_search_tabs (tabs : list TabProbe) : bool :=
  match tabs with
  | [] => false
  | tab :: rest =>
      let match_count := match tab_count tab with Some n => n | None => O end in
      if (match_count =? 0)%nat then try_search_tabs rest
      else match tab_visible tab with
      | Some true =>
          if tab_click_ok tab then
            if fst (wait_for_search_results_page (heading tab) 120) then true
            else try_search_tabs rest
          else try_search_tabs rest
      | _ => try_search_tabs rest
      end
  end.

Definition navigate_back_to_search_results (p : Portal) (s : State) : bool :=
  try_search_tabs (map (search_tab p (step s)) search_tab_selectors).

(** *** Session recovery *)

Definition attempt_succeeds (a : Attempt) : bool :=
  att_navigate a && att_select a && att_fill a && att_captcha a && att_submit a.

(** The [for attempt in range(max_retries)] loop. *)
Fixpoint recovery_attempts (remaining attempt : nat) (p : Portal) (s : State)
  : bool * State :=
  match remaining with
  | O => (false, s)
  | S remaining' =>
      let a := recovery p (step s) attempt in
      let '(reinitialized, s') := setup_browser (att_setup_browser a) s in
      if reinitialized then
        if attempt_succeeds a then (true, s')
        else recovery_attempts remaining' (S attempt) p s'
      else recovery_attempts remaining' (S attempt) p s'
  end.

Definition recover_session (p : Portal) (s : State) : bool * State :=
  recovery_attempts 6 0 p (cleanup s).

(** *** The row loop of [process_felony_cases] *)

Inductive Control :=
  | Continue (felony_rows : list Row) (i : nat)
  | Return.

(** The [except Exception] handler of the loop body. *)
Definition on_exception (recovery_enabled : bool) (p : Portal) (s : State)
    (felony_rows : list Row) (i : nat) : State * Control :=
  if recovery_enabled then
    let '(ok, s) := recover_session p s in
    if ok then (s, Continue (get_case_type_rows p s) 0) else (s, Return)
  else (s, Continue felony_rows (S i)).

(** The first half of the body, up to the point where the workflow is
    about to leave the detail page. *)
Inductive Harvest :=
  | Skipped                    (* already processed: i += 1; continue *)
  | NotOpened                  (* click_case_link returned False *)
  | Harvested (s : State).     (* details processed, case marked *)

Definition harvest_row (p : Portal) (s : State) (row : Row) : Harvest :=
  let case_number := get_case_number_from_row row in
  if Py.truthy case_number
     && bool_decide (case_number ∈ processed_case_numbers s)
  then Skipped
  else
    match open_case p (step s) row with
    | None => NotOpened
    | Some page =>
        let s := log_opened s case_number in
        let s := process_case_details s page in
        Harvested (if Py.truthy case_number
                   then mark_processed s case_number else s)
    end.

(** The second half: back to the list, or recovery. *)
Definition leave_case (recovery_enabled : bool) (p : Portal) (s : State)
    (i : nat) : State * Control :=
  if navigate_back_to_search_results p s then
    (s, Continue (get_case_type_rows p s) (S i))
  else if recovery_enabled then
    let '(recovery_success, s) := recover_session p s in
    if recovery_success then (s, Continue (get_case_type_rows p s) 0)
    else (s, Return)
  else (s, Return).

Definition loop_body (recovery_enabled : bool) (p : Portal) (s : State)
    (felony_rows : list Row) (i : nat) (row : Row) : State * Control :=
  match row_fault p (step s) with
  | Some FaultBeforeOpen => on_exception recovery_enabled p s felony_rows i
  | fault =>
      match harvest_row p s row with
      | Skipped => (s, Continue felony_rows (S i))
      | NotOpened => (s, Continue felony_rows (S i))
      | Harvested s =>
          match fault with
          | Some _ => on_exception recovery_enabled p s felony_rows i
          | None => leave_case recovery_enabled p s i
          end
      end
  end.

(** [while i < len(felony_rows)], unrolled [fuel] times.  The boolean tells
    whether the loop has ended. *)
Fixpoint row_loop (fuel : nat) (recovery_enabled : bool) (p : Portal)
    (s : State) (felony_rows : list Row) (i : nat) : State * bool :=
  match felony_rows !! i with
  | None => (s, true)
  | Some row =>
      match fuel with
      | O => (s, false)
      | S fuel' =>
          let '(s, c) := loop_body recovery_enabled p s felony_rows i row in
          let s := next_step s in
          match c with
          | Continue felony_rows i => row_loop fuel' recovery_enabled p s felony_rows i
          | Return => (s, true)
          end
      end
  end.

Definition process_felony_cases (fuel : nat) (recovery_enabled : bool)
    (p : Portal) (s : State) (felony_rows : list Row) : State * bool :=
  row_loop fuel recovery_enabled p s felony_rows 0.

(** *** run *)

(** The answers the first pass through the search form gets. *)
Record Startup := mkStartup {
  st_navigate : bool;                   (* navigate_to_search_page() *)
  st_select : bool;                     (* select_attorney_name_from_dropdown():
                                           a failure is only logged *)
  st_fill : bool;                       (* fill_search_fields() *)
  st_captcha : bool;                    (* resolve_captcha(...) *)
  st_submit : bool;                     (* click_submit_button() *)
  st_first_row : string -> SelectorProbe
}.

(** [run()]: [None] while the row loop is still running, else the returned
    boolean; the second component tells whether [process_felony_cases] was
    entered. *)
Definition run (fuel : nat) (recovery_enabled : bool) (minimum_case_year : Z)
    (st : Startup) (p : Portal) (s : State) : option bool * bool * State :=
  if negb (st_navigate st) then (Some false, false, s)
  else if negb (st_fill st) then (Some false, false, s)
  else if negb (st_captcha st) then (Some false, false, s)
  else if negb (st_submit st) then (Some false, false, s)
  else if negb (check_latest_file_date (st_first_row st) minimum_case_year)
  then (Some false, false, s)
  else
    let felony_rows := get_case_type_rows p s in
    let '(s, finished) :=
      process_felony_cases fuel recovery_enabled p s felony_rows in
    (if finished then Some true else None, true, s).

(** *** Predicates used in the statements *)

(** The four formats, in the order [check_latest_file_date] tries them. *)
Definition candidate_formats : list string := "%m/%d/%Y" :: date_formats.

(** The heading is not there when the timeout expires. *)
Definition heading_missed (w : HeadingWait) (timeout_ms : Z) : Prop :=
  match w with
  | HeadingAfter ms => timeout_ms <= ms
  | HeadingNever => True
  | WaitRaises => False
  end.

(** Two states with the same harvest: results, processed set, log. *)
Definition same_harvest (s s' : State) : Prop :=
  results s' = results s /\
  processed_case_numbers s' = processed_case_numbers s /\
  opened_log s' = opened_log s /\ attorney s' = attorney s.

Definition numbers (s : State) : list string := map case_number (results s).

(** Every row that opens a keyword-bearing case shows a readable case
    number, the one the detail page shows. *)
Definition consistent_numbers (p : Portal) : Prop :=
  forall t row page,
    open_case p t row = Some page ->
    check_for_charge_keyword page Config.CHARGE_KEYWORDS = true ->
    get_case_number_from_row row <> "" /\
    case_number (extract_case_details page) = get_case_number_from_row row.

Definition no_duplicates (s : State) : Prop :=
  NoDup (numbers s) /\ forall n, n ∈ numbers s -> n ∈ processed_case_numbers s.

(** No case with a readable number was opened twice, and every such case
    is in the processed set. *)
Definition opened_once (s : State) : Prop :=
  NoDup (List.filter Py.truthy (opened_log s)) /\
  forall n, n ∈ opened_log s -> n <> "" -> n ∈ processed_case_numbers s.

(** The session fields as [__init__] and [cleanup] keep them. *)
Definition one_session (s : State) : Prop :=
  live_sessions s = (if has_session s then 1 else 0)%nat.

(** At most one Playwright instance runs, the one [self] refers to when
    [self] refers to any. *)
Definition session_kept (s : State) : Prop :=
  (live_sessions s <= 1)%nat /\
  (has_session s = true -> live_sessions s = 1%nat).

(** During recovery [setup_browser] never raises after having started
    Playwright. *)
Definition clean_setup (p : Portal) : Prop :=
  forall t attempt, att_setup_browser (recovery p t attempt) <> SetupFailsLater.

(** *** Further predicates used in the statements *)

(** A row matches the case-type filter. *)
Definition matches_case_type (row : Row) : bool :=
  Py.contains case_type_filter (Py.lower (row_text row)).

(** The record carries the three attorney keys of [a]. *)
Definition attributed (a : Attorney) (c : CaseRecord) : Prop :=
  attorney_name c = first_name a +:+ " " +:+ last_name a /\
  attorney_first_name c = first_name a /\
  attorney_last_name c = last_name a.

(** The first attempt in which [setup_browser] gets Playwright started,
    if there is one. *)
Definition first_start (attempts : list Attempt) : option Attempt :=
  List.find (fun a => match att_setup_browser a with
                      | SetupFailsToStart => false
                      | _ => true
                      end) attempts.

(** The tab is there, visible, clickable, and the results heading shows up
    within 1200 ms of the click. *)
Definition tab_confirms (tab : TabProbe) : bool :=
  match tab_count tab with Some (S _) => true | _ => false end
  && match tab_visible tab with Some true => true | _ => false end
  && tab_click_ok tab
  && match heading tab with HeadingAfter ms => ms <? 1200 | _ => false end.

(** A results list of at most [bound] rows, each with a readable case
    number out of [known]. *)
Definition listed (known : gset string) (bound : nat) (rows : list Row) : Prop :=
  (List.length rows <= bound)%nat /\
  forall row, In row rows ->
    get_case_number_from_row row <> "" /\ get_case_number_from_row row ∈ known.

(** The counter is the number of results, and every result carries the
    scraper's attorney. *)
Definition tallied (s : State) : Prop :=
  current_attorney_case_count s = List.length (results s) /\
  Forall (attributed (attorney s)) (results s).

(** Two states with the same results, counter and attorney. *)
Definition same_tally (s s' : State) : Prop :=
  results s' = results s /\
  current_attorney_case_count s' = current_attorney_case_count s /\
  attorney s' = attorney s.

(** The record was collected for [a] from a row that matched the case
    type and opened a page holding a charge keyword. *)
Definition collected_from (p : Portal) (a : Attorney) (c : CaseRecord) : Prop :=
  exists t row page,
    matches_case_type row = true /\
    open_case p t row = Some page /\
    check_for_charge_keyword page Config.CHARGE_KEYWORDS = true /\
    c = with_attorney a (extract_case_details page).

End Scraper.

(* ===================================================================== *)
(** ** scraper_pool.py *)
(* ===================================================================== *)
Module ScraperPool.

Import Scraper.

(** An element of the [attorneys] list: anything that is not a dict, or a
    dict whose two keys may be missing. *)
Inductive AttorneyEntry :=
  | NotADict
  | Dict (first_name last_name : option string).

Inductive Exn :=
  | ValueError (msg : string)
  | BrowserError                        (* raised by setup_browser *)
  | PoolError.                          (* raised by the executor *)

(** What one attorney's browser session meets. *)
Record Job := mkJob {
  browser_starts : bool;                (* setup_browser in __init__ returns *)
  startup : Startup;
  portal : Portal
}.

(** The tuple a worker returns, with the scraper it leaves behind. *)
Record WorkerReturn := mkWorkerReturn {
  w_index : nat;
  w_results : list CaseRecord;
  w_success : bool;
  w_error : option Exn;
  w_scraper : option State              (* None: no scraper was constructed *)
}.

Definition validation_failed (idx : nat) (msg : string) : WorkerReturn :=
  mkWorkerReturn idx [] false (Some (ValueError msg)) None.

(** [scrape_attorney_worker(attorney, attorney_index)]; [None] while
    [scraper.run()] has not returned. *)
Definition scrape_attorney_worker (fuel : nat) (recovery_enabled : bool)
    (minimum_case_year : Z) (entry : AttorneyEntry) (idx : nat) (job : Job)
  : option WorkerReturn :=
  match entry with
  | NotADict => Some (validation_failed idx "attorney must be a dict")
  | Dict (Some first) (Some last) =>
      if negb (Py.truthy first) || negb (Py.truthy last)
      then Some (validation_failed idx "first_name and last_name cannot be empty")
      else if negb (browser_starts job)
      then Some (mkWorkerReturn idx [] false (Some BrowserError) None)
      else
        let scraper := Scraper.init (mkAttorney first last) in
        let '(ret, _, scraper) :=
          Scraper.run fuel recovery_enabled minimum_case_year
                      (startup job) (portal job) scraper in
        match ret with
        | None => None
        | Some true =>
            Some (mkWorkerReturn idx (results scraper) true None
                                 (Some (cleanup scraper)))
        | Some false =>
            Some (mkWorkerReturn idx [] false None (Some (cleanup scraper)))
        end
  | Dict _ _ => Some (validation_failed idx "attorney dict missing required keys")
  end.

(** *** The executor *)

Record Pool := mkPool {
  jobs : nat -> Job;
  finish_time : nat -> nat;       (* when the future of attorney idx completes *)
  pool_breaks : bool              (* the executor raises while starting *)
}.

(** [as_completed]: the indices ordered by completion time, earlier
    submission first among equals. *)
Fixpoint insert_by (key : nat -> nat) (x : nat) (l : list nat) : list nat :=
  match l with
  | [] => [x]
  | y :: l' =>
      if (key x <=? key y)%nat then x :: l else y :: insert_by key x l'
  end.

Definition as_completed (key : nat -> nat) (n : nat) : list nat :=
  fold_right (insert_by key) [] (seq 0 n).

Inductive PyResult (A : Type) :=
  | Returned (a : A)
  | Raised (e : Exn).
Arguments Returned {A} a.
Arguments Raised {A} e.

(** The body of the [for future in as_completed(...)] loop, for all
    futures: [(shared_results, thread_exceptions)]. *)
Fixpoint collect (returns : list WorkerReturn)
  : list CaseRecord * list (nat * Exn) :=
  match returns with
  | [] => ([], [])
  | w :: rest =>
      let '(shared_results, thread_exceptions) := collect rest in
      ((w_results w ++ shared_results)%list,
       match w_error w with
       | Some e => (w_index w, e) :: thread_exceptions
       | None => thread_exceptions
       end)
  end.

(** All futures, in completion order; [None] while one is still running. *)
Fixpoint gather (fuel : nat) (recovery_enabled : bool) (minimum_case_year : Z)
    (attorneys : list AttorneyEntry) (pool : Pool) (order : list nat)
  : option (list WorkerReturn) :=
  match order with
  | [] => Some []
  | idx :: order' =>
      match attorneys !! idx with
      | None => gather fuel recovery_enabled minimum_case_year attorneys pool order'
      | Some entry =>
          match scrape_attorney_worker fuel recovery_enabled minimum_case_year
                  entry idx (jobs pool idx) with
          | None => None
          | Some w =>
              match gather fuel recovery_enabled minimum_case_year
                      attorneys pool order' with
              | None => None
              | Some ws => Some (w :: ws)
              end
          end
      end
  end.

(** [run_all_attorneys_concurrent(attorneys)] with the logged
    [thread_exceptions]; [None] while a worker is still running. *)
Definition run_all_attorneys_concurrent_log (fuel : nat)
    (recovery_enabled : bool) (minimum_case_year : Z)
    (attorneys : list AttorneyEntry) (pool : Pool)
  : option (PyResult (list CaseRecord) * list (nat * Exn)) :=
  match attorneys with
  | [] => Some (Returned [], [])
  | _ =>
      if pool_breaks pool then Some (Returned [], [])   (* outer except *)
      else
        match gather fuel recovery_enabled minimum_case_year attorneys pool
                (as_completed (finish_time pool) (List.length attorneys)) with
        | None => None
        | Some returns =>
            let '(shared_results, thread_exceptions) := collect returns in
            Some (Returned shared_results, thread_exceptions)
        end
  end.

Definition run_all_attorneys_concurrent (fuel : nat) (recovery_enabled : bool)
    (minimum_case_year : Z) (attorneys : list AttorneyEntry) (pool : Pool)
  : option (PyResult (list CaseRecord)) :=
  match run_all_attorneys_concurrent_log fuel recovery_enabled
          minimum_case_year attorneys pool with
  | Some (r, _) => Some r
  | None => None
  end.

(** *** Worker threads and the thread-local captcha flag

    A worker thread of the executor runs the tasks it picks up one after
    the other.  Of a task only its captcha encounters matter here: every
    [resolve_captcha] call it makes, in order. *)

Record CaptchaCall := mkCaptchaCall {
  call_env : CaptchaHandler.CaptchaEnv;
  call_api_key : option string;
  call_use_service : bool
}.

Definition Task := list CaptchaCall.

(** The calls of one task on thread [tid]: the flag each call finds, and
    the thread-local store afterwards. *)
Fixpoint run_task (fuel : nat) (tid : nat) (task : Task)
    (thread_local : gmap nat bool) : list bool * gmap nat bool :=
  match task with
  | [] => ([], thread_local)
  | c :: task' =>
      let flag := fst (CaptchaHandler.get_manual_captcha_flag tid thread_local) in
      let o := CaptchaHandler.resolve_captcha fuel (call_env c) tid thread_local
                 (call_api_key c) (call_use_service c) in
      let '(flags, tl) :=
        run_task fuel tid task' (CaptchaHandler.thread_local_after o) in
      (flag :: flags, tl)
  end.

(** The tasks in the order they are started, each with the worker thread
    that picked it up: for each task the flag it finds when it starts, and
    the final store. *)
Fixpoint run_tasks (fuel : nat) (schedule : list (nat * Task))
    (thread_local : gmap nat bool) : list bool * gmap nat bool :=
  match schedule with
  | [] => ([], thread_local)
  | (tid, task) :: schedule' =>
      let flag_at_start :=
        fst (CaptchaHandler.get_manual_captcha_flag tid thread_local) in
      let '(_, tl) := run_task fuel tid task thread_local in
      let '(flags, tl) := run_tasks fuel schedule' tl in
      (flag_at_start :: flags, tl)
  end.

(** The executor has [num_workers] threads, numbered from 0. *)
Definition fits_pool (num_workers : nat) (schedule : list (nat * Task)) : bool :=
  forallb (fun '(tid, _) => (tid <? num_workers)%nat) schedule.

(** [num_workers = min(len(attorneys), DEFAULT_MAX_WORKERS)] *)
Definition num_workers (n_attorneys default_max_workers : nat) : nat :=
  Nat.min n_attorneys default_max_workers.

(** *** Predicates used in the statements *)

(** The entry lacks a non-empty first_name or last_name. *)
Definition lacks_name (entry : AttorneyEntry) : bool :=
  match entry with
  | Dict (Some first) (Some last) => negb (Py.truthy first) || negb (Py.truthy last)
  | _ => true
  end.

End ScraperPool.

(* ===================================================================== *)
(** ** result_exporter.py *)
(* ===================================================================== *)
Module ResultExporter.

(** A result as the dict the scraper built: the nine keys of [case_data]
    in the order of the literal, then the three attorney keys. *)
Definition to_dict (c : CaseRecord) : list (string * string) :=
  [ ("case_number", case_number c);
    ("file_date", file_date c);
    ("judicial_officer", judicial_officer c);
    ("case_status", case_status c);
    ("case_type", case_type c);
    ("charge_description", charge_description c);
    ("bond_amount", bond_amount c);
    ("disposition", disposition c);
    ("sentencing_info", sentencing_info c);
    ("attorney_name", attorney_name c);
    ("attorney_first_name", attorney_first_name c);
    ("attorney_last_name", attorney_last_name c) ].

Fixpoint dict_get {V : Type} (key : string) (d : list (string * V))
  : option V :=
  match d with
  | [] => None
  | (k, v) :: d' => if String.eqb k key then Some v else dict_get key d'
  end.

Definition has_key (key : string) (keys : list string) : bool :=
  existsb (String.eqb key) keys.

(** A data frame: column labels and rows of cells ([None] is NaN). *)
Record DataFrame := mkDataFrame {
  columns : list string;
  data : list (list (option string))
}.

Definition add_key (keys : list string) (key : string) : list string :=
  if has_key key keys then keys else (keys ++ [key])%list.

(** [pd.DataFrame(results)]: the columns are the keys in order of first
    appearance; a record lacking a key gets NaN. *)
Definition DataFrame_of_records (results : list (list (string * string)))
  : DataFrame :=
  let cols :=
    fold_left (fun keys d => fold_left add_key (map fst d) keys) results [] in
  mkDataFrame cols (map (fun d => map (fun col => dict_get col d) cols) results).

Definition column_titles : list (string * string) :=
  [ ("attorney_name", "Attorney");
    ("attorney_first_name", "Attorney First Name");
    ("attorney_last_name", "Attorney Last Name");
    ("case_number", "Case Number");
    ("file_date", "File Date");
    ("judicial_officer", "Judicial Officer");
    ("case_status", "Case Status");
    ("case_type", "Case Type");
    ("charge_description", "Charge Description");
    ("bond_amount", "Bond Amount");
    ("disposition", "Disposition");
    ("sentencing_info", "Sentencing") ].

(** [df.rename(columns=mapping)] *)
Definition rename (mapping : list (string * string)) (df : DataFrame)
  : DataFrame :=
  mkDataFrame
    (map (fun col => match dict_get col mapping with
                     | Some title => title
                     | None => col
                     end) (columns df))
    (data df).

Definition column_order : list string :=
  [ "Attorney"; "Case Number"; "File Date"; "Judicial Officer"; "Case Status";
    "Case Type"; "Charge Description"; "Bond Amount"; "Disposition";
    "Sentencing" ].

Definition cell (col : string) (cols : list string)
    (row : list (option string)) : option string :=
  match dict_get col (combine cols row) with
  | Some v => v
  | None => None
  end.

(** [df[cols]] *)
Definition select (cols : list string) (df : DataFrame) : DataFrame :=
  mkDataFrame cols
    (map (fun row => map (fun col => cell col (columns df) row) cols) (data df)).

(** The rows as [to_json(orient="records")] writes them: one object per
    row, keyed by the column labels. *)
Definition to_records (df : DataFrame) : list (list (string * option string)) :=
  map (fun row => combine (columns df) row) (data df).

Inductive OutputFile :=
  | CsvFile (table : DataFrame)               (* cases_<timestamp>.csv *)
  | ExcelFile (all_cases : DataFrame)         (* sheet 'All Cases' of the .xlsx *)
  | JsonFile (records : list (list (string * option string))).

(** [export_results(results, output_dir)] for a given [OUTPUT_FORMAT];
    [None]: nothing is written. *)
Definition export_results (output_format : string)
    (results : list CaseRecord) : option OutputFile :=
  match results with
  | [] => None
  | _ =>
      let df := DataFrame_of_records (map to_dict results) in
      let df := rename column_titles df in
      let column_order :=
        List.filter (fun col => has_key col (columns df)) column_order in
      let df := select column_order df in
      let fmt := Py.lower output_format in
      if String.eqb fmt "csv" then Some (CsvFile df)
      else if String.eqb fmt "excel" then Some (ExcelFile df)
      else if String.eqb fmt "json" then Some (JsonFile (to_records df))
      else Some (ExcelFile df)
  end.

(** Modelled from the spec: the reload step of the round trip, which the
    repository does not contain.  Every stored cell is read back unchanged,
    one record per row, keyed by the column labels of the file. *)
Definition reload (file : OutputFile) : list (list (string * option string)) :=
  match file with
  | CsvFile table => to_records table
  | ExcelFile all_cases => to_records all_cases
  | JsonFile records => records
  end.

(** The column label a field is exported under. *)
Definition title_of (field : string) : string :=
  match dict_get field column_titles with
  | Some title => title
  | None => field
  end.

(** Modelled from the spec: a reloaded record has field values identical to
    the original when every field of the original is found, under its own
    name or its column label, with the same value. *)
Definition same_fields (c : CaseRecord) (r : list (string * option string))
  : bool :=
  forallb (fun '(field, value) =>
             match dict_get (title_of field) r, dict_get field r with
             | Some (Some v), _ => String.eqb v value
             | _, Some (Some v) => String.eqb v value
             | _, _ => false
             end) (to_dict c).

Fixpoint all_same_fields (cs : list CaseRecord)
    (rs : list (list (string * option string))) : bool :=
  match cs, rs with
  | [], [] => true
  | c :: cs', r :: rs' => same_fields c r && all_same_fields cs' rs'
  | _, _ => false
  end.

(** The round trip of the spec for one format. *)
Definition round_trips (output_format : string) (results : list CaseRecord)
  : bool :=
  match export_results output_format results with
  | Some file => all_same_fields results (reload file)
  | None => false
  end.

(** The ten fields a row of the exported table carries. *)
Definition exported_fields (c : CaseRecord) : list (string * option string) :=
  [ ("Attorney", Some (attorney_name c));
    ("Case Number", Some (case_number c));
    ("File Date", Some (file_date c));
    ("Judicial Officer", Some (judicial_officer c));
    ("Case Status", Some (case_status c));
    ("Case Type", Some (case_type c));
    ("Charge Description", Some (charge_description c));
    ("Bond Amount", Some (bond_amount c));
    ("Disposition", Some (disposition c));
    ("Sentencing", Some (sentencing_info c)) ].

(** The keys of a result, in insertion order. *)
Definition record_keys : list string :=
  [ "case_number"; "file_date"; "judicial_officer"; "case_status"; "case_type";
    "charge_description"; "bond_amount"; "disposition"; "sentencing_info";
    "attorney_name"; "attorney_first_name"; "attorney_last_name" ].

(** *** Sheet names of the Excel export *)

Definition invalid_chars : list ascii :=
  [ "/"; "\"; "?"; "*"; "["; "]"; ":" ]%char.

(** [sanitize_sheet_name(name, max_length)] *)
Definition sanitize_sheet_name (name : string) (max_length : nat) : string :=
  let name :=
    fold_left (fun name char => Py.replace_char char "-" name)
              invalid_chars name in
  let name := Py.strip_chars "'" (Py.strip name) in
  let name :=
    if (max_length <? String.length name)%nat
    then Py.rstrip (Py.slice_to max_length name)
    else name in
  if negb (Py.truthy name) then "Sheet" else name.

(** The [while sheet_name in used_sheet_names] loop of [export_excel],
    unrolled [fuel] times; [None]: the loop is still running. *)
Fixpoint unique_sheet_name (fuel : nat) (base_sheet_name : string)
    (used_sheet_names : gset string) (sheet_name : string) (counter : nat)
  : option string :=
  if bool_decide (sheet_name ∈ used_sheet_names) then
    match fuel with
    | O => None
    | S fuel' =>
        let available_length :=
          31 - Z.of_nat (String.length (Py.str counter)) - 1 in
        let base_name :=
          Py.rstrip (Py.slice_to_Z available_length base_sheet_name) in
        unique_sheet_name fuel' base_sheet_name used_sheet_names
          (base_name +:+ "-" +:+ Py.str counter) (S counter)
    end
  else Some sheet_name.

(** The loop [for attorney in attorneys] of [export_excel] over the
    distinct values of the Attorney column ([None] is NaN): the sheet name
    handed to [to_excel] for each attorney that gets a sheet.
    [written_as used name] is the title the workbook gives the sheet
    written under [name] when the names of [used] are taken; the set
    differs at every turn, so this covers whatever the workbook does. *)
Fixpoint attorney_sheets (fuel : nat)
    (written_as : gset string -> string -> string)
    (attorneys : list (option string)) (used_sheet_names : gset string)
  : option (list (string * string)) :=
  match attorneys with
  | [] => Some []
  | None :: rest => attorney_sheets fuel written_as rest used_sheet_names
  | Some attorney :: rest =>
      if String.eqb attorney "UNKNOWN"
      then attorney_sheets fuel written_as rest used_sheet_names
      else
        let base_sheet_name := sanitize_sheet_name attorney 31 in
        match unique_sheet_name fuel base_sheet_name used_sheet_names
                base_sheet_name 1 with
        | None => None
        | Some sheet_name =>
            let used_sheet_names := {[sheet_name]} ∪ used_sheet_names in
            let actual_sheet_name :=
              written_as used_sheet_names sheet_name in
            let used_sheet_names :=
              if String.eqb actual_sheet_name sheet_name then used_sheet_names
              else {[actual_sheet_name]} ∪ used_sheet_names in
            match attorney_sheets fuel written_as rest used_sheet_names with
            | None => None
            | Some sheets => Some ((sheet_name, attorney) :: sheets)
            end
        end
  end.

(** The attorneys that get a sheet of their own. *)
Definition with_sheet (attorneys : list (option string)) : list string :=
  List.filter (fun attorney => negb (String.eqb attorney "UNKNOWN"))
              (omap id attorneys).

(** The name the loop tries at [counter]: the base name cut to leave room
    for the number, a dash, the number. *)
Definition numbered_sheet_name (base_sheet_name : string) (counter : nat)
  : string :=
  let available_length :=
    31 - Z.of_nat (String.length (Py.str counter)) - 1 in
  Py.rstrip (Py.slice_to_Z available_length base_sheet_name)
    +:+ "-" +:+ Py.str counter.

(** A name Excel accepts for a sheet: not empty, at most 31 characters,
    none of the characters of [invalid_chars]. *)
Definition valid_sheet_name (name : string) : Prop :=
  name <> "" /\
  (String.length name <= 31)%nat /\
  forall c, In c (list_ascii_of_string name) -> ~ In c invalid_chars.

(** [used_sheet_names] once the sheet [sheet_name] has been written. *)
Definition used_after (written_as : gset string -> string -> string)
    (sheet_name : string) (used_sheet_names : gset string) : gset string :=
  let used_sheet_names := {[sheet_name]} ∪ used_sheet_names in
  let actual_sheet_name := written_as used_sheet_names sheet_name in
  if String.eqb actual_sheet_name sheet_name then used_sheet_names
  else {[actual_sheet_name]} ∪ used_sheet_names.

End ResultExporter.

(* ===================================================================== *)
(** ** utils.py: configuration *)
(* ===================================================================== *)
Module Utils.

Import ScraperPool.

(** The error messages of [validate_config]; [position] is the
    [idx+1] of the message. *)
Inductive ConfigError :=
  | NoAttorneys
  | NotADictionary (position : nat)
  | MissingKeys (position : nat)
  | EmptyName (position : nat)
  | NoChargeKeywords.

(** The loop [for idx, attorney in enumerate(ATTORNEYS)]. *)
Fixpoint validate_attorneys (attorneys : list AttorneyEntry) (idx : nat)
  : option ConfigError :=
  match attorneys with
  | [] => None
  | NotADict :: _ => Some (NotADictionary (idx + 1))
  | Dict (Some first) (Some last) :: rest =>
      if negb (Py.truthy first) || negb (Py.truthy last)
      then Some (EmptyName (idx + 1))
      else validate_attorneys rest (S idx)
  | Dict _ _ :: _ => Some (MissingKeys (idx + 1))
  end.

(** [validate_config()], with [ATTORNEYS] and [CHARGE_KEYWORDS] as
    arguments. *)
Definition validate_config (attorneys : list AttorneyEntry)
    (charge_keywords : list string) : bool * option ConfigError :=
  match attorneys with
  | [] => (false, Some NoAttorneys)
  | _ =>
      match validate_attorneys attorneys 0 with
      | Some error => (false, Some error)
      | None =>
          match charge_keywords with
          | [] => (false, Some NoChargeKeywords)
          | _ => (true, None)
          end
      end
  end.

(** *** Waiting for Chrome *)

(** The outcome of one [requests.get] on the debug endpoint followed by
    [raise_for_status]. *)
Inductive EndpointReply :=
  | EndpointOk
  | RequestFails          (* ConnectionError, Timeout or another RequestException *)
  | OtherFailure.         (* any other exception: it is not caught *)

(** A starting Chrome seen from the polling loop: the reply to the k-th
    request and [time.time() - start_time], in ms, at the k-th timeout
    test. *)
Record ChromeStart := mkChromeStart {
  endpoint_reply : nat -> EndpointReply;
  elapsed_at : nat -> Z
}.

Inductive WaitResult :=
  | EndpointReady (attempt : nat)     (* returns after [attempt] failed requests *)
  | WaitTimedOut (attempt : nat)      (* raises TimeoutError *)
  | WaitFailed.                       (* another exception escapes *)

Definition CHROME_STARTUP_TIMEOUT : Z := 10000.
Definition CHROME_STARTUP_POLL_INTERVAL : Z := 200.

(** [wait_for_chrome_debug_endpoint(debug_port, timeout, poll_interval)],
    times in ms; the [while True] loop is unrolled [fuel] times from
    [attempt], and [None] means that it is still polling. *)
Fixpoint wait_for_chrome_debug_endpoint_from (fuel : nat) (chrome : ChromeStart)
    (timeout : Z) (attempt : nat) : option WaitResult :=
  match fuel with
  | O => None
  | S fuel' =>
      if timeout <=? elapsed_at chrome attempt then Some (WaitTimedOut attempt)
      else
        match endpoint_reply chrome attempt with
        | EndpointOk => Some (EndpointReady attempt)
        | RequestFails =>
            wait_for_chrome_debug_endpoint_from fuel' chrome timeout (S attempt)
        | OtherFailure => Some WaitFailed
        end
  end.

Definition wait_for_chrome_debug_endpoint (fuel : nat) (chrome : ChromeStart)
    (timeout : Z) : option WaitResult :=
  wait_for_chrome_debug_endpoint_from fuel chrome timeout 0.

(** *** The user agent *)

(** The reply of the debugger endpoint to the final query. *)
Inductive VersionReply :=
  | VersionRequestFails
  | VersionNotJson
  | Version (user_agent : option string).   (* the "User-Agent" key, if any *)

(** What one extraction meets, step by step. *)
Record Extraction := mkExtraction {
  port_assigned : bool;             (* bind and getsockname succeed *)
  temp_dir_created : bool;          (* tempfile.mkdtemp succeeds *)
  chrome_started : bool;            (* subprocess.Popen succeeds *)
  chrome : ChromeStart;
  version_reply : VersionReply
}.

(** The module state: [ua_cache], and for the proofs the number of Chrome
    processes launched so far. *)
Record UserAgentState := mkUserAgentState {
  ua_cache : option string;
  launches : nat
}.

Definition fallback_ua : string :=
  "Mozilla/5.0 (Windows NT 10.0; Win64; x64) AppleWebKit/537.36 (KHTML, like Gecko) Chrome/133.0.0.0 Safari/537.36".

(** [get_chrome_user_agent()], one thread at a time; [None] while the wait
    for the endpoint is still polling. *)
Definition get_chrome_user_agent (fuel : nat) (e : Extraction)
    (st : UserAgentState) : option (string * UserAgentState) :=
  match ua_cache st with
  | Some cached => Some (cached, st)
  | None =>
      let fallback n := Some (fallback_ua, mkUserAgentState (Some fallback_ua) n) in
      if negb (port_assigned e) then fallback (launches st)
      else if negb (temp_dir_created e) then fallback (launches st)
      else if negb (chrome_started e) then fallback (launches st)
      else
        let launched := S (launches st) in
        match wait_for_chrome_debug_endpoint fuel (chrome e)
                CHROME_STARTUP_TIMEOUT with
        | None => None
        | Some (EndpointReady _) =>
            match version_reply e with
            | Version user_agent =>
                let user_agent :=
                  match user_agent with Some ua => ua | None => "" end in
                Some (user_agent, mkUserAgentState (Some user_agent) launched)
            | _ => fallback launched
            end
        | Some _ => fallback launched
        end
  end.

(** A series of calls, each meeting its own circumstances. *)
Fixpoint user_agents (fuel : nat) (calls : list Extraction)
    (st : UserAgentState) : option (list string * UserAgentState) :=
  match calls with
  | [] => Some ([], st)
  | e :: calls' =>
      match get_chrome_user_agent fuel e st with
      | None => None
      | Some (ua, st) =>
          match user_agents fuel calls' st with
          | None => None
          | Some (uas, st) => Some (ua :: uas, st)
          end
      end
  end.

(** *** Predicates used in the statements *)

(** The clock advances by at least [poll_interval] per iteration, as the
    [time.sleep(poll_interval)] of the loop ensures. *)
Definition sleeps (chrome : ChromeStart) (poll_interval : Z) : Prop :=
  forall k, poll_interval * Z.of_nat k <= elapsed_at chrome k.

End Utils.

(* ===================================================================== *)
(** ** main.py *)
(* ===================================================================== *)
Module Main.

Import ScraperPool ResultExporter Utils.

Inductive Outcome :=
  | ConfigRejected (error : option ConfigError)  (* logged, nothing is run *)
  | StillScraping                                (* a worker has not returned *)
  | Unexpected (e : Exn)                         (* "Unexpected error" is logged *)
  | NothingFound                                 (* "No matching cases found" *)
  | Exported (file : option OutputFile).         (* export_results was called *)

(** [main()] for a given configuration. *)
Definition main (fuel : nat) (recovery_enabled : bool) (minimum_case_year : Z)
    (attorneys : list AttorneyEntry) (charge_keywords : list string)
    (pool : Pool) (output_format : string) : Outcome :=
  let '(is_valid, error_message) := validate_config attorneys charge_keywords in
  if negb is_valid then ConfigRejected error_message
  else
    match run_all_attorneys_concurrent fuel recovery_enabled minimum_case_year
            attorneys pool with
    | None => StillScraping
    | Some (Raised e) => Unexpected e
    | Some (Returned results) =>
        match results with
        | [] => NothingFound
        | _ => Exported (export_results output_format results)
        end
    end.

End Main.

(* ===================================================================== *)
(** ** Concrete pages, portals and services used in the examples *)
(* ===================================================================== *)
Module Examples.

Import CaseDataExtractor CaptchaHandler Scraper ScraperPool.

Definition jane : Attorney := mkAttorney "JANE" "DOE".

(** *** Bond sections *)

Definition bond_fee_then_bond : BondDom :=
  mkBondDom [ Cell "$250.00" "Court Fee $250.00";
              Cell " $5,000.00 " "Surety Bond $5,000.00" ] NoSettings.

Definition bond_fee_only : BondDom :=
  mkBondDom [ Cell "$250.00" "Court Fee $250.00" ] NoSettings.

Definition bond_hold : BondDom :=
  mkBondDom [ Cell "$250.00" "Court Fee $250.00" ]
    (Settings (mkBondSettings (mkSettingsView true (Some [])) NoGrid None)).

(** Two setting dates, the last one collapsed. *)
Definition two_setting_rows : GridProbe :=
  Grid [ "k-icon k-minus"; "k-icon k-plus" ].

(** The marker shows up once the last settings row is expanded. *)
Definition bond_hold_expanded : BondDom :=
  mkBondDom [ Cell "$250.00" "Court Fee $250.00" ]
    (Settings (mkBondSettings (mkSettingsView false (Some []))
                 two_setting_rows
                 (Some (mkSettingsView true (Some []))))).

(** The amount shows up once the last settings row is expanded. *)
Definition bond_amount_expanded : BondDom :=
  mkBondDom [ Cell "$250.00" "Court Fee $250.00" ]
    (Settings (mkBondSettings (mkSettingsView false (Some []))
                 two_setting_rows
                 (Some (mkSettingsView false
                          (Some [ "Comment: cash or surety"; " $10,000.00 " ]))))).

(** *** Case detail pages *)

Definition page_of (number : string) : DetailPage :=
  mkDetailPage "Charges: ASSAULT FAM/HOUSE MEM IMPEDE BREATH" true
    number "01/15/2025" "HON. A. SMITH" "CLOSED" "FELONY"
    "ASSAULT FAM/HOUSE MEM IMPEDE BREATH"
    bond_fee_then_bond (mkDispositionDom "" None None).

Definition sentenced : DispositionDom :=
  mkDispositionDom "CONVICTED - PLEA OF GUILTY" (Some "2 Years, STATE JAIL") None.

Definition page_with_status (status : string) (loads : bool) : DetailPage :=
  mkDetailPage "Charges: ASSAULT FAM/HOUSE MEM IMPEDE BREATH" loads
    "F-2500003" "01/15/2025" "HON. A. SMITH" status "FELONY"
    "ASSAULT FAM/HOUSE MEM IMPEDE BREATH" bond_fee_then_bond sentenced.

(** *** Results rows and portals *)

Definition row_of (number : string) : Row :=
  mkRow (number +:+ " FELONY") (LinkText (Some number)) LinkHidden.

(** A row whose case link can be clicked but not read. *)
Definition row_without_number : Row :=
  mkRow "F-2500001 FELONY" LinkHidden LinkHidden.

Definition tab_confirmed : TabProbe :=
  mkTabProbe (Some 1%nat) (Some true) true (HeadingAfter 300).

Definition tab_timed_out : TabProbe :=
  mkTabProbe (Some 1%nat) (Some true) true HeadingNever.

Definition attempt_ok : Attempt :=
  mkAttempt SetupReturns true true true true true.

(** [setup_browser] launches Chrome and raises while it creates the
    context. *)
Definition attempt_setup_fails : Attempt :=
  mkAttempt SetupFailsLater true true true true true.

(** The way back fails once, at the first step; recovery then succeeds at
    the first attempt. *)
Definition portal_lost_navigation : Portal :=
  mkPortal (fun _ _ => Some [row_without_number])
           (fun _ _ => Some (page_of "F-2500001"))
           (fun t _ => if (t =? 0)%nat then tab_timed_out else tab_confirmed)
           (fun _ => None)
           (fun _ _ => attempt_ok).

Definition two_rows : list Row := [row_of "F-2500001"; row_of "F-2500002"].

(** The same failure with two readable rows. *)
Definition portal_two_cases : Portal :=
  mkPortal (fun _ _ => Some two_rows)
           (fun _ row =>
              let n := get_case_number_from_row row in
              if String.eqb n "F-2500001" then Some (page_of "F-2500001")
              else if String.eqb n "F-2500002" then Some (page_of "F-2500002")
              else None)
           (fun t _ => if (t =? 0)%nat then tab_timed_out else tab_confirmed)
           (fun _ => None)
           (fun _ _ => attempt_ok).

(** The first tab selector times out, the second one is confirmed. *)
Definition portal_second_tab : Portal :=
  mkPortal (fun _ _ => Some two_rows)
           (fun _ _ => Some (page_of "F-2500001"))
           (fun _ selector =>
              if String.eqb selector "a#tcControllerLink_1"
              then tab_timed_out else tab_confirmed)
           (fun _ => None)
           (fun _ _ => attempt_ok).

(** The way back fails once; in the first recovery attempt
    [setup_browser] raises after it launched Chrome, and so it does in
    every later attempt. *)
Definition portal_setup_fails : Portal :=
  mkPortal (fun _ _ => Some [row_of "F-2500001"])
           (fun _ _ => Some (page_of "F-2500001"))
           (fun t _ => if (t =? 0)%nat then tab_timed_out else tab_confirmed)
           (fun _ => None)
           (fun _ _ => attempt_setup_fails).

Definition first_row_dated (text : string) : string -> SelectorProbe :=
  fun selector =>
    if String.eqb selector "td[data-label='File Date']"
    then ProbeText (Some text) else ProbeAbsent.

Definition startup_dated (text : string) : Startup :=
  mkStartup true true true true true (first_row_dated text).

Definition job_setup_fails : Job :=
  mkJob true (startup_dated "01/15/2025") portal_setup_fails.

(** *** Captcha *)

Definition api_key_32 : string := "0123456789abcdef0123456789abcdef".

(** Nobody solves the captcha; the clock advances 2 s per poll. *)
Definition nobody : Human :=
  mkHuman (fun _ => false) (fun k => 2000 * Z.of_nat k).

(** 2captcha accepts the job and reports it unsolvable. *)
Definition service_unsolvable : Service :=
  mkService (Some (5 # 1)) (Some "6LcExampleSiteKey_0123456789")
            (fun _ => SubmitAccepted "71823469")
            (fun _ => PollError "ERROR_CAPTCHA_UNSOLVABLE")
            true false.

Definition captcha_unsolved : CaptchaEnv :=
  mkCaptchaEnv true service_unsolvable nobody true (Some true) true nobody.

(** An encounter without the manual fallback: the checkbox cannot be
    found, so [resolve_captcha] returns False. *)
Definition captcha_call_no_fallback : CaptchaCall :=
  mkCaptchaCall
    (mkCaptchaEnv true service_unsolvable nobody false None false nobody)
    (Some api_key_32) true.

(** Two attorneys on the single thread of a pool capped at one worker. *)
Definition one_thread_schedule : list (nat * Task) :=
  [ (0%nat, [captcha_call_no_fallback]); (0%nat, [captcha_call_no_fallback]) ].

Definition two_thread_schedule : list (nat * Task) :=
  [ (0%nat, [captcha_call_no_fallback]); (1%nat, [captcha_call_no_fallback]) ].

(** *** Export *)

Definition jane_case : CaseRecord :=
  mkCaseRecord "F-2500001" "01/15/2025" "HON. A. SMITH" "CLOSED" "FELONY"
    "ASSAULT FAM/HOUSE MEM IMPEDE BREATH" "$5,000.00" "NA" "NA"
    "JANE DOE" "JANE" "DOE".

(** *** The pool *)

(** One readable row; the way back fails once and recovery succeeds at the
    first attempt. *)
Definition portal_one_case : Portal :=
  mkPortal (fun _ _ => Some [row_of "F-2500001"])
           (fun _ _ => Some (page_of "F-2500001"))
           (fun t _ => if (t =? 0)%nat then tab_timed_out else tab_confirmed)
           (fun _ => None)
           (fun _ _ => attempt_ok).

Definition job_one_case : Job :=
  mkJob true (startup_dated "01/15/2025") portal_one_case.

(** Every attorney meets the portal of [job_one_case]; the futures
    complete in submission order. *)
Definition pool_one_case : Pool :=
  mkPool (fun _ => job_one_case) (fun idx => idx) false.

Definition jane_entry : AttorneyEntry := Dict (Some "JANE") (Some "DOE").

(** *** A person at the keyboard *)

(** The checkbox is found ticked from the fourth look on; the clock
    advances 2 s per poll. *)
Definition solver : Human :=
  mkHuman (fun k => (3 <=? k)%nat) (fun k => 2000 * Z.of_nat k).

(** No API key is configured; the checkbox is found and clicked, and the
    person solves the challenge. *)
Definition captcha_solved_by_hand : CaptchaEnv :=
  mkCaptchaEnv true service_unsolvable nobody true (Some true) true solver.



(** *** Disposition grids *)

Definition event_titled (title : string) : EventRow :=
  mkEventRow (Some (Some title, Some "...")) None None.

(** The first selector matches nothing; the second one shows five events,
    one of them blank. *)
Definition grid_of_five : string -> CaseDataExtractor.TableProbe :=
  fun selector =>
    if String.eqb selector "div[id^='CriminalDispositions'] table tbody tr"
    then Some []
    else Some (map RowRead
                 [ event_titled "CONVICTED -   PLEA OF GUILTY";
                   mkEventRow None (Some "  ") (Some "01/15/2025 Judgment");
                   event_titled "PROBATION REVOKED";
                   event_titled "SENTENCED";
                   event_titled "APPEAL FILED";
                   event_titled "MANDATE ISSUED" ]).

(** The driver fails at the second row. *)
Definition grid_failing : string -> CaseDataExtractor.TableProbe :=
  fun _ => Some [ RowRead (event_titled "DISMISSED"); RowRaises ].

(** *** Section texts *)

(** LF is written out, so that the text does not depend on the layout of
    this file. *)
Definition lf : string := String "010" "".

Definition case_information : string :=
  "Case Number" +:+ lf +:+ " F-2500001 " +:+ lf
  +:+ "File Date:  01/15/2025" +:+ lf +:+ "Case Status:".

Definition charge_section : string :=
  "Charge" +:+ lf +:+ "Description" +:+ lf +:+ "1" +:+ lf
  +:+ "ASSAULT FAM/HOUSE MEM IMPEDE BREATH" +:+ lf +:+ "22.01(b)(2)(B)".

Definition sentencing_page : SentencingPage :=
  mkSentencingPage grid_of_five "" ("TX CSCD and Community Service" +:+ lf +:+ "Term: 2 YEARS").

(** *** Chrome *)

(** Chrome answers the fourth request; a poll takes 250 ms. *)
Definition chrome_slow : Utils.ChromeStart :=
  Utils.mkChromeStart
    (fun k => if (k <? 3)%nat then Utils.RequestFails else Utils.EndpointOk)
    (fun k => 250 * Z.of_nat k).

Definition chrome_140 : string :=
  "Mozilla/5.0 (X11; Linux x86_64) AppleWebKit/537.36 (KHTML, like Gecko) Chrome/140.0.0.0 Safari/537.36".

Definition extraction_ok : Utils.Extraction :=
  Utils.mkExtraction true true true chrome_slow (Utils.Version (Some chrome_140)).

(** A later call during which Chrome could not even be started. *)
Definition extraction_no_chrome : Utils.Extraction :=
  Utils.mkExtraction true true false chrome_slow Utils.VersionRequestFails.

End Examples.

(* ===================================================================== *)
(** * Properties *)
(* ===================================================================== *)

(** ** Bond amount (case_data_extractor.py) *)
Section BondAmount.
Import CaseDataExtractor Examples.

Lemma scan_gridcells_sound cells text row :
  scan_gridcells cells = Some (text, row) ->
  exists raw, In (Cell raw row) cells /\ text = Py.strip raw
              /\ is_dollar_amount text = true /\ row_disqualified row = false.
Proof.
  induction cells as [|c cells IH]; simpl; [discriminate|].
  destruct c as [raw row'|]; [|discriminate].
  destruct (is_dollar_amount (Py.strip raw) && negb (row_disqualified row')) eqn:E.
  - intros [= <- <-]. apply andb_prop in E as [E1 E2].
    exists raw. repeat split; auto. now destruct (row_disqualified row').
  - intros H. destruct (IH H) as (raw0 & Hin & ?). exists raw0. split; auto.
Qed.

Lemma scan_gridcells_all_disqualified cells :
  (forall raw row, In (Cell raw row) cells ->
     is_dollar_amount (Py.strip raw) = true -> row_disqualified row = true) ->
  scan_gridcells cells = None.
Proof.
  intros H. destruct (scan_gridcells cells) as [[text row]|] eqn:E; [|reflexivity].
  apply scan_gridcells_sound in E as (raw & Hin & -> & Hd & Hq).
  rewrite (H raw row Hin Hd) in Hq. discriminate.
Qed.

Lemma row_disqualified_word d row_text :
  In d BOND_AMOUNT_DISQUALIFIERS ->
  Py.contains d (Py.lower row_text) = true ->
  row_disqualified row_text = true.
Proof.
  intros Hin Hc. unfold row_disqualified. apply existsb_exists. eauto.
Qed.

Lemma scan_amount_divs_dollar divs amount :
  scan_amount_divs divs = Some amount -> is_dollar_amount amount = true.
Proof.
  induction divs as [|d divs IH]; simpl; [discriminate|].
  destruct (is_dollar_amount (Py.strip d) && _) eqn:E; [|exact IH].
  intros [= <-]. now apply andb_prop in E as [E _].
Qed.

Lemma dollar_not_literal text :
  is_dollar_amount text = true ->
  text <> "No bond amount set" /\ text <> "Hold Without Bond".
Proof.
  intros H; split; intros ->; vm_compute in H; discriminate.
Qed.

Lemma scan_amount_divs_none divs :
  (forall div_text, In div_text divs ->
     is_dollar_amount (Py.strip div_text) = false) ->
  scan_amount_divs divs = None.
Proof.
  induction divs as [|d divs IH]; intros H; [reflexivity|]. simpl.
  rewrite (H d) by now left. simpl. apply IH. intros d' Hd'. apply H. now right.
Qed.

Lemma extract_from_view_nothing v :
  view_has_nothing v -> extract_from_view v = "No bond amount set".
Proof.
  intros [Hh Ha]. unfold extract_from_view. rewrite Hh.
  destruct (amount_divs v) as [divs|]; [|reflexivity].
  now rewrite (scan_amount_divs_none divs (Ha divs eq_refl)).
Qed.

Lemma row_disqualified_iff row_text :
  row_disqualified row_text = true <->
  exists d, In d BOND_AMOUNT_DISQUALIFIERS /\
            Py.contains d (Py.lower row_text) = true.
Proof. unfold row_disqualified. apply existsb_exists. Qed.

(** Step 1 returns the first dollar cell in a row without a disqualifier,
    every cell before it having been read and passed over. *)
Lemma scan_gridcells_first cells text row :
  scan_gridcells cells = Some (text, row) <->
  exists before raw after,
    cells = (before ++ Cell raw row :: after)%list /\
    text = Py.strip raw /\
    List.Forall passed_over before /\
    is_dollar_amount text = true /\ row_disqualified row = false.
Proof.
  split.
  - revert text row. induction cells as [|c cells IH]; simpl; [discriminate|].
    intros text row. destruct c as [raw row'|]; [|discriminate].
    destruct (is_dollar_amount (Py.strip raw)) eqn:Ed;
      [destruct (row_disqualified row') eqn:Eq|]; simpl.
    + intros H. destruct (IH _ _ H) as (before & raw0 & after & -> & Ht & Hb & Hd).
      exists (Cell raw row' :: before), raw0, after.
      split; [reflexivity|]. split; [exact Ht|]. split; [|exact Hd].
      constructor; [|exact Hb]. right. now apply row_disqualified_iff.
    + intros [= <- <-]. exists [], raw, cells.
      split; [reflexivity|]. split; [reflexivity|]. split; [constructor|].
      now split.
    + intros H. destruct (IH _ _ H) as (before & raw0 & after & -> & Ht & Hb & Hd).
      exists (Cell raw row' :: before), raw0, after.
      split; [reflexivity|]. split; [exact Ht|]. split; [|exact Hd].
      constructor; [|exact Hb]. now left.
  - intros (before & raw & after & -> & -> & Hb & Hd & Hq).
    induction Hb as [|c before Hc Hb IH]; simpl.
    + now rewrite Hd, Hq.
    + destruct c as [raw' row'|]; [|destruct Hc].
      destruct Hc as [Hc|Hc].
      * rewrite Hc. exact IH.
      * apply row_disqualified_iff in Hc. rewrite Hc, andb_false_r. exact IH.
Qed.

(** C7.  Bond-amount extraction.  (1) The amount taken from the grid cells
    is the trimmed text of one of the cells, a dollar amount in a row that
    contains no disqualifier word: the first such cell, every cell before
    it having been passed over; and the first such cell is returned.
    (2) When every dollar cell lies in a row containing a disqualifier,
    the grid cells yield nothing.  (3) When moreover the bond settings
    hold neither a dollar figure nor the "Hold Without Bond" marker, the
    result is exactly "No bond amount set".  (4) When the marker is
    present on arrival the result is never "No bond amount set", and it is
    "Hold Without Bond" unless a grid cell gave an amount.  (5) The same
    holds when the marker shows up after the last settings row, whose icon
    carries k-plus, was expanded.  (6) With no marker, step 4 returns the
    first dollar amount among the amount divs of the view then on screen:
    the expanded one when the last icon carries k-plus, else the one
    found on arrival. *)
Theorem bond_amount_extraction (dom : BondDom) :
  (forall text row,
      scan_gridcells (gridcells dom) = Some (text, row) ->
      extract_bond_amount dom = text /\
      (exists before raw after,
         gridcells dom = (before ++ Cell raw row :: after)%list /\
         text = Py.strip raw /\ List.Forall passed_over before) /\
      is_dollar_amount text = true /\
      forall d, In d BOND_AMOUNT_DISQUALIFIERS ->
                Py.contains d (Py.lower row) = false) /\
  (forall before raw row after,
      gridcells dom = (before ++ Cell raw row :: after)%list ->
      List.Forall passed_over before ->
      is_dollar_amount (Py.strip raw) = true ->
      (forall d, In d BOND_AMOUNT_DISQUALIFIERS ->
                 Py.contains d (Py.lower row) = false) ->
      extract_bond_amount dom = Py.strip raw) /\
  ((forall raw row, In (Cell raw row) (gridcells dom) ->
       is_dollar_amount (Py.strip raw) = true ->
       exists d, In d BOND_AMOUNT_DISQUALIFIERS /\
                 Py.contains d (Py.lower row) = true) ->
   scan_gridcells (gridcells dom) = None) /\
  ((forall raw row, In (Cell raw row) (gridcells dom) ->
       is_dollar_amount (Py.strip raw) = true -> row_disqualified row = true) ->
   (forall s, settings dom = Settings s ->
      view_has_nothing (view_now s) /\
      (forall v, view_expanded s = Some v -> view_has_nothing v)) ->
   extract_bond_amount dom = "No bond amount set") /\
  (forall s, settings dom = Settings s ->
     hold_without_bond (view_now s) = true ->
     extract_bond_amount dom <> "No bond amount set" /\
     (scan_gridcells (gridcells dom) = None ->
      extract_bond_amount dom = "Hold Without Bond")) /\
  (forall s icons v, settings dom = Settings s ->
     hold_without_bond (view_now s) = false ->
     grid s = Grid icons ->
     Py.contains "k-plus" (List.last icons "") = true ->
     view_expanded s = Some v ->
     hold_without_bond v = true ->
     extract_bond_amount dom <> "No bond amount set" /\
     (scan_gridcells (gridcells dom) = None ->
      extract_bond_amount dom = "Hold Without Bond")) /\
  (forall s icons v divs, settings dom = Settings s ->
     scan_gridcells (gridcells dom) = None ->
     hold_without_bond (view_now s) = false ->
     grid s = Grid icons -> icons <> [] ->
     (if Py.contains "k-plus" (List.last icons "")
      then view_expanded s = Some v else v = view_now s) ->
     hold_without_bond v = false ->
     amount_divs v = Some divs ->
     extract_bond_amount dom
     = match scan_amount_divs divs with
       | Some amount => amount
       | None => "No bond amount set"
       end).
Proof.
  assert (Hclean : forall row,
            row_disqualified row = false <->
            forall d, In d BOND_AMOUNT_DISQUALIFIERS ->
                      Py.contains d (Py.lower row) = false).
  { intros row. split.
    - intros Hq d Hd. destruct (Py.contains d (Py.lower row)) eqn:E; [|reflexivity].
      assert (row_disqualified row = true)
        by (apply row_disqualified_iff; eauto).
      congruence.
    - intros H. destruct (row_disqualified row) eqn:E; [|reflexivity].
      apply row_disqualified_iff in E as (d & Hd & Hc).
      rewrite (H d Hd) in Hc. discriminate. }
  assert (Hgrid : forall text row,
            scan_gridcells (gridcells dom) = Some (text, row) ->
            extract_bond_amount dom = text /\
            extract_bond_amount dom <> "No bond amount set").
  { intros text row H. unfold extract_bond_amount. rewrite H.
    split; [reflexivity|].
    apply scan_gridcells_first in H as (_ & _ & _ & _ & _ & _ & Hd & _).
    now apply dollar_not_literal in Hd as [? _]. }
  split; [|split; [|split; [|split; [|split; [|split]]]]].
  - intros text row H. split; [now apply (Hgrid text row)|].
    apply scan_gridcells_first in H
      as (before & raw & after & Hc & Ht & Hb & Hd & Hq).
    split; [now exists before, raw, after|]. split; [exact Hd|].
    now apply Hclean.
  - intros before raw row after Hc Hb Hd Hq.
    apply (Hgrid (Py.strip raw) row). apply scan_gridcells_first.
    exists before, raw, after. repeat split; auto. now apply Hclean.
  - intros Hall. apply scan_gridcells_all_disqualified.
    intros raw row Hin Hd. destruct (Hall raw row Hin Hd) as (d & Hd1 & Hd2).
    eapply row_disqualified_word; eauto.
  - intros Hcells Hs. unfold extract_bond_amount.
    rewrite (scan_gridcells_all_disqualified _ Hcells).
    destruct (settings dom) as [| |s]; try reflexivity.
    destruct (Hs s eq_refl) as [Hnow Hexp].
    unfold extract_bond_settings. destruct Hnow as [Hh Ha]. rewrite Hh.
    destruct (grid s) as [| |[|ic ics]]; try reflexivity.
    destruct (Py.contains _ _).
    + destruct (view_expanded s) as [v|]; [|reflexivity].
      now apply extract_from_view_nothing, Hexp.
    + now apply extract_from_view_nothing.
  - intros s Hs Hh.
    assert (Hnone : scan_gridcells (gridcells dom) = None ->
                    extract_bond_amount dom = "Hold Without Bond").
    { intros Hnone. unfold extract_bond_amount. rewrite Hnone, Hs.
      unfold extract_bond_settings. now rewrite Hh. }
    split; [|exact Hnone].
    destruct (scan_gridcells (gridcells dom)) as [[text row]|] eqn:E.
    + now apply (Hgrid text row).
    + rewrite (Hnone eq_refl). discriminate.
  - intros s icons v Hs Hh Hg Hk Hv Hm.
    assert (Hnone : scan_gridcells (gridcells dom) = None ->
                    extract_bond_amount dom = "Hold Without Bond").
    { intros Hnone. unfold extract_bond_amount. rewrite Hnone, Hs.
      unfold extract_bond_settings. rewrite Hh, Hg.
      destruct icons as [|ic ics]; [discriminate Hk|].
      unfold last_icon_class. rewrite Hk, Hv.
      unfold extract_from_view. now rewrite Hm. }
    split; [|exact Hnone].
    destruct (scan_gridcells (gridcells dom)) as [[text row]|] eqn:E.
    + now apply (Hgrid text row).
    + rewrite (Hnone eq_refl). discriminate.
  - intros s icons v divs Hs Hnone Hh Hg Hne Hv Hm Hd.
    unfold extract_bond_amount. rewrite Hnone, Hs.
    unfold extract_bond_settings. rewrite Hh, Hg.
    destruct icons as [|ic ics]; [now destruct Hne|].
    unfold last_icon_class.
    destruct (Py.contains "k-plus" (List.last (ic :: ics) "")).
    + rewrite Hv. unfold extract_from_view. now rewrite Hm, Hd.
    + subst v. unfold extract_from_view. now rewrite Hm, Hd.
Qed.

Lemma bond_amount_extraction_witness :
  extract_bond_amount bond_fee_then_bond = "$5,000.00" /\
  extract_bond_amount bond_fee_then_bond = Py.strip " $5,000.00 " /\
  scan_gridcells (gridcells bond_fee_only) = None /\
  extract_bond_amount bond_fee_only = "No bond amount set" /\
  extract_bond_amount bond_hold = "Hold Without Bond" /\
  extract_bond_amount bond_hold_expanded = "Hold Without Bond" /\
  extract_bond_amount bond_amount_expanded = "$10,000.00".
Proof.
  split; [|split; [|split; [|split; [|split; [|split]]]]].
  - apply (proj1 (bond_amount_extraction bond_fee_then_bond)
             "$5,000.00" "Surety Bond $5,000.00").
    reflexivity.
  - apply (proj1 (proj2 (bond_amount_extraction bond_fee_then_bond))
             [ Cell "$250.00" "Court Fee $250.00" ] " $5,000.00 "
             "Surety Bond $5,000.00" []).
    + reflexivity.
    + constructor; [|constructor]. right. exists "fee".
      split; [|reflexivity]. unfold BOND_AMOUNT_DISQUALIFIERS. simpl. tauto.
    + reflexivity.
    + intros d Hd. unfold BOND_AMOUNT_DISQUALIFIERS in Hd. simpl in Hd.
      repeat (destruct Hd as [<-|Hd]; [reflexivity|]). destruct Hd.
  - apply (proj1 (proj2 (proj2 (bond_amount_extraction bond_fee_only)))).
    intros raw row [[= <- <-]|[]] _. exists "fee". split; [|reflexivity].
    unfold BOND_AMOUNT_DISQUALIFIERS. simpl. tauto.
  - apply (proj1 (proj2 (proj2 (proj2 (bond_amount_extraction bond_fee_only))))).
    + intros raw row [[= <- <-]|[]] _. reflexivity.
    + intros s Hs. discriminate Hs.
  - apply (proj1 (proj2 (proj2 (proj2 (proj2 (bond_amount_extraction bond_hold)))))
             (mkBondSettings (mkSettingsView true (Some [])) NoGrid None)).
    + reflexivity.
    + reflexivity.
    + reflexivity.
  - apply (proj1 (proj2 (proj2 (proj2 (proj2 (proj2
             (bond_amount_extraction bond_hold_expanded))))))
             (mkBondSettings (mkSettingsView false (Some [])) two_setting_rows
                (Some (mkSettingsView true (Some []))))
             [ "k-icon k-minus"; "k-icon k-plus" ]
             (mkSettingsView true (Some [])));
      reflexivity.
  - apply (proj2 (proj2 (proj2 (proj2 (proj2 (proj2
             (bond_amount_extraction bond_amount_expanded))))))
             (mkBondSettings (mkSettingsView false (Some [])) two_setting_rows
                (Some (mkSettingsView false
                         (Some [ "Comment: cash or surety"; " $10,000.00 " ]))))
             [ "k-icon k-minus"; "k-icon k-plus" ]
             (mkSettingsView false
                (Some [ "Comment: cash or surety"; " $10,000.00 " ]))
             [ "Comment: cash or surety"; " $10,000.00 " ]);
      try reflexivity.
    discriminate.
Defined.

End BondAmount.

(** ** Disposition and sentencing (case_data_extractor.py) *)
Section Disposition.
Import CaseDataExtractor Examples.

Lemma record_optional_field label v errs :
  record_field_extraction label v errs false = (Py.strip v, errs).
Proof.
  unfold record_field_extraction, ensure_field_extracted.
  destruct (Py.strip v); reflexivity.
Qed.

Lemma record_field_errors label v errs required :
  exists w errs', record_field_extraction label v errs required = (w, errs')
                  /\ (w = Py.strip v).
Proof.
  unfold record_field_extraction, ensure_field_extracted.
  destruct (Py.strip v) eqn:E; simpl; destruct required; eauto.
Qed.

Lemma extract_case_details_log_loaded page :
  load_idle page = true ->
  exists errs,
    extract_case_details_log page =
    (let st := Py.strip (found_case_status page) in
     let '(dv, sv, attempted) := disposition_values st (disposition_dom page) in
     (mkCaseRecord (Py.strip (found_case_number page))
        (Py.strip (found_file_date page))
        (Py.strip (found_judicial_officer page))
        st
        (Py.strip (found_case_type page))
        (Py.strip (found_charge_description page))
        (Py.strip (extract_bond_amount (bond_dom page)))
        (Py.strip dv) (Py.strip sv) "" "" "", errs, attempted)).
Proof.
  intros Hl. unfold extract_case_details_log. rewrite Hl. simpl negb. cbv iota.
  destruct (record_field_errors "Case Number" (found_case_number page) [] true)
    as (w1 & e1 & -> & ->).
  destruct (record_field_errors "File Date" (found_file_date page) e1 true)
    as (w2 & e2 & -> & ->).
  destruct (record_field_errors "Judicial Officer" (found_judicial_officer page) e2 true)
    as (w3 & e3 & -> & ->).
  destruct (record_field_errors "Case Status" (found_case_status page) e3 true)
    as (w4 & e4 & -> & ->).
  destruct (record_field_errors "Case Type" (found_case_type page) e4 false)
    as (w5 & e5 & -> & ->).
  destruct (record_field_errors "Charge Description" (found_charge_description page) e5 true)
    as (w6 & e6 & -> & ->).
  destruct (record_field_errors "Bond Amount" (extract_bond_amount (bond_dom page)) e6 true)
    as (w7 & e7 & -> & ->).
  destruct (disposition_values _ _) as [[dv sv] attempted].
  rewrite !record_optional_field. eauto.
Qed.

(** C6 (amended).  For every case page whose load wait returns: when the
    extracted case status, trimmed and upper-cased, is "ACTIVE" or "OPEN",
    disposition and sentencing_info are both "NA" and
    extract_disposition_and_sentencing is not called; for every other
    status it is called, and a field is "NA" exactly when its extraction
    yields the empty string (a non-empty value is stored trimmed). *)
Theorem disposition_short_circuit page c errs attempted d s :
  load_idle page = true ->
  extract_case_details_log page = (c, errs, attempted) ->
  extract_disposition_and_sentencing (disposition_dom page) = (d, s) ->
  let status := Py.upper (Py.strip (case_status c)) in
  (status = "ACTIVE" \/ status = "OPEN" ->
     attempted = false /\ disposition c = "NA" /\ sentencing_info c = "NA") /\
  (status <> "ACTIVE" -> status <> "OPEN" ->
     attempted = true /\
     disposition c = (if Py.truthy d then Py.strip d else "NA") /\
     sentencing_info c = (if Py.truthy s then Py.strip s else "NA")).
Proof.
  intros Hl Hlog Hd.
  destruct (extract_case_details_log_loaded page Hl) as [errs' E].
  rewrite Hlog in E. unfold disposition_values in E. rewrite Hd in E.
  cbv zeta in E. cbv zeta.
  destruct (bool_decide (Py.upper (Py.strip (Py.strip (found_case_status page))) = "ACTIVE")
            || bool_decide (Py.upper (Py.strip (Py.strip (found_case_status page))) = "OPEN")) eqn:B;
    injection E as -> _ ->; simpl case_status; simpl disposition; simpl sentencing_info.
  - split; [intros _; repeat split; reflexivity|].
    intros H1 H2. apply orb_prop in B as [B|B]; apply bool_decide_eq_true in B; congruence.
  - apply orb_false_elim in B as [B1 B2].
    apply bool_decide_eq_false in B1, B2.
    split; [intros [H|H]; congruence|].
    intros _ _. repeat split; [destruct (Py.truthy d)|destruct (Py.truthy s)]; reflexivity.
Qed.

Lemma disposition_short_circuit_witness :
  let c := extract_case_details (page_with_status "CLOSED" true) in
  disposition c = "CONVICTED - PLEA OF GUILTY" /\
  sentencing_info c = "Confinement: 2 Years, STATE JAIL".
Proof.
  pose (page := page_with_status "CLOSED" true).
  pose (r := extract_case_details_log page).
  destruct (disposition_short_circuit page (fst (fst r)) (snd (fst r)) (snd r)
              "CONVICTED - PLEA OF GUILTY" "Confinement: 2 Years, STATE JAIL"
              eq_refl eq_refl eq_refl) as [_ H].
  destruct H as (_ & H1 & H2); [discriminate|discriminate|].
  split; [exact H1|exact H2].
Defined.

(** C6, as stated, fails: a page whose status reads "Active" is neither
    "ACTIVE" nor "OPEN", yet no extraction is attempted; and a page whose
    load wait times out yields empty fields without any attempt. *)
Lemma mixed_case_status_skips_extraction :
  (let r := extract_case_details_log (page_with_status "Active" true) in
   case_status (fst (fst r)) = "Active" /\
   case_status (fst (fst r)) <> "ACTIVE" /\
   case_status (fst (fst r)) <> "OPEN" /\
   snd r = false /\ disposition (fst (fst r)) = "NA") /\
  (let r := extract_case_details_log (page_with_status "CLOSED" false) in
   case_status (fst (fst r)) = "" /\ snd r = false /\
   disposition (fst (fst r)) = "" /\ sentencing_info (fst (fst r)) = "").
Proof.
  split; cbv zeta; repeat split; try reflexivity; vm_compute; discriminate.
Qed.

End Disposition.

(** ** The year cutoff (scraper.py, step 7) *)
Section StrptimeFacts.
Import Strptime Scraper.

Lemma match_seq_spec alt : forall s cap rest,
  match_seq alt s = Some (cap, rest) ->
  s = (cap ++ rest)%list /\ List.length cap = List.length alt /\
  Forall2 (fun cl c => cl c = true) alt cap.
Proof.
  induction alt as [|cl alt IH]; intros s cap rest; simpl.
  - intros [= <- <-]. repeat split. constructor.
  - destruct s as [|c s]; [discriminate|].
    destruct (cl c) eqn:Hc; [|discriminate].
    destruct (match_seq alt s) as [[cap' rest']|] eqn:E; [|discriminate].
    intros [= <- <-]. destruct (IH _ _ _ E) as (-> & Hlen & Hall).
    repeat split; simpl; [congruence|]. now constructor.
Qed.

Lemma match_field d items s groups rest :
  match_items (Field d :: items) s = Some (groups, rest) ->
  exists alt cap s' groups',
    In alt (regex_of d) /\ match_seq alt s = Some (cap, s') /\
    match_items items s' = Some (groups', rest) /\ groups = (d, cap) :: groups'.
Proof.
  simpl. generalize (regex_of d) as alts.
  induction alts as [|alt alts IH]; [discriminate|].
  destruct (match_seq alt s) as [[cap s']|] eqn:E.
  - destruct (match_items items s') as [[groups' rest']|] eqn:E'.
    + intros [= <- <-]. exists alt, cap, s', groups'. simpl; auto.
    + intros H. destruct (IH H) as (a & c & s0 & g & Hin & ?).
      exists a, c, s0, g. simpl; auto.
  - intros H. destruct (IH H) as (a & c & s0 & g & Hin & ?).
    exists a, c, s0, g. simpl; auto.
Qed.

Lemma match_lit ch items s groups rest :
  match_items (Lit ch :: items) s = Some (groups, rest) ->
  exists s', s = ch :: s' /\ match_items items s' = Some (groups, rest).
Proof.
  simpl. destruct s as [|c s]; [discriminate|].
  destruct (Ascii.eqb c ch) eqn:E; [|discriminate].
  apply Ascii.eqb_eq in E as ->. eauto.
Qed.

Lemma between_digits lo hi c :
  Py.is_digit lo = true -> Py.is_digit hi = true ->
  between lo hi c = true -> Py.is_digit c = true.
Proof.
  unfold between, Py.is_digit. intros H1 H2 H3.
  apply andb_prop in H1 as [H1 _]. apply andb_prop in H2 as [_ H2].
  apply andb_prop in H3 as [H3 H4].
  apply Nat.leb_le in H1, H2, H3, H4. apply andb_true_intro.
  split; apply Nat.leb_le; lia.
Qed.

Lemma chr_eq ch c : chr ch c = true -> c = ch.
Proof. apply Ascii.eqb_eq. Qed.

Lemma class_field_char d alt cl c :
  In alt (regex_of d) -> In cl alt -> cl c = true -> field_char c = true.
Proof.
  unfold field_char.
  destruct d; simpl; intros Halt Hcl Hc;
    repeat (destruct Halt as [<-|Halt]; [|]); try contradiction;
    simpl in Hcl;
    repeat (destruct Hcl as [<-|Hcl]; [|]); try contradiction;
    try (apply chr_eq in Hc as ->; reflexivity);
    try (apply between_digits in Hc; [now rewrite Hc|reflexivity|reflexivity]);
    try (unfold digit in Hc; now rewrite Hc).
Qed.

Lemma alt_length d alt :
  In alt (regex_of d) ->
  match d with
  | dir_Y => List.length alt = 4%nat
  | _ => (List.length alt <= 2)%nat
  end.
Proof.
  destruct d; simpl; intros H;
    repeat (destruct H as [<-|H]; [simpl; lia|]); contradiction.
Qed.

Lemma classes_field_chars (alt : list CharClass) (cap : list ascii) :
  Forall2 (fun cl c => cl c = true) alt cap ->
  (forall cl c, In cl alt -> cl c = true -> field_char c = true) ->
  Forall (fun c => field_char c = true) cap.
Proof.
  induction 1 as [|cl c alt' cap' Hc Hall IH]; intros Hcls; constructor.
  - apply (Hcls cl c); [now left|exact Hc].
  - apply IH. intros cl' c' Hin. apply Hcls. now right.
Qed.

Lemma field_text_of d alt s cap rest :
  In alt (regex_of d) -> match_seq alt s = Some (cap, rest) ->
  s = (cap ++ rest)%list /\ field_text d cap.
Proof.
  intros Hin Hm. destruct (match_seq_spec _ _ _ _ Hm) as (-> & Hlen & Hall).
  split; [reflexivity|]. split.
  - apply (classes_field_chars alt cap Hall).
    intros cl c Hcl. now apply (class_field_char d alt).
  - pose proof (alt_length d alt Hin) as Hl. destruct d; lia.
Qed.

Lemma three_fields a sep b c s groups :
  match_items [Field a; Lit sep; Field b; Lit sep; Field c] s = Some (groups, []) ->
  exists f1 f2 f3,
    s = (f1 ++ sep :: f2 ++ sep :: f3)%list /\
    field_text a f1 /\ field_text b f2 /\ field_text c f3 /\
    groups = [(a, f1); (b, f2); (c, f3)].
Proof.
  intros H.
  apply match_field in H as (alt1 & f1 & s1 & g1 & Hin1 & Hm1 & H & ->).
  apply match_lit in H as (s2 & -> & H).
  apply match_field in H as (alt2 & f2 & s3 & g2 & Hin2 & Hm2 & H & ->).
  apply match_lit in H as (s4 & -> & H).
  apply match_field in H as (alt3 & f3 & s5 & g3 & Hin3 & Hm3 & H & ->).
  simpl in H. injection H as Hg Hs. subst g3 s5.
  destruct (field_text_of _ _ _ _ _ Hin1 Hm1) as [-> T1].
  destruct (field_text_of _ _ _ _ _ Hin2 Hm2) as [-> T2].
  destruct (field_text_of _ _ _ _ _ Hin3 Hm3) as [-> T3].
  exists f1, f2, f3. rewrite app_nil_r. auto.
Qed.

Lemma split_unique (a a' : list ascii) c c' t t' :
  Forall (fun x => field_char x = true) a ->
  Forall (fun x => field_char x = true) a' ->
  field_char c = false -> field_char c' = false ->
  (a ++ c :: t = a' ++ c' :: t')%list -> a = a' /\ c = c' /\ t = t'.
Proof.
  intros Ha. revert a'. induction Ha as [|x a Hx Ha IH]; intros a' Ha' Hc Hc' E.
  - destruct Ha' as [|x' a' Hx' Ha']; simpl in E.
    + injection E as -> ->. auto.
    + injection E as -> _. congruence.
  - destruct Ha' as [|x' a' Hx' Ha']; simpl in E.
    + injection E as -> _. congruence.
    + injection E as -> E. destruct (IH a' Ha' Hc Hc' E) as (-> & -> & ->). auto.
Qed.

Lemma strptime_groups t fmt d :
  strptime t fmt = Some d ->
  exists groups,
    match_items (parse_format (list_ascii_of_string fmt))
                (list_ascii_of_string t) = Some (groups, []) /\
    year d = group dir_Y groups 1900.
Proof.
  unfold strptime.
  destruct (match_items _ _) as [[groups [|]]|]; try discriminate.
  destruct (valid_date _ _ _); [|discriminate].
  intros [= <-]. eauto.
Qed.

Lemma year_agreement t f1 f2 d1 d2 :
  In f1 candidate_formats -> In f2 candidate_formats ->
  strptime t f1 = Some d1 -> strptime t f2 = Some d2 ->
  year d1 = year d2.
Proof.
  intros H1 H2 P1 P2.
  apply strptime_groups in P1 as (g1 & M1 & ->).
  apply strptime_groups in P2 as (g2 & M2 & ->).
  unfold candidate_formats, Scraper.date_formats in H1, H2. simpl in H1, H2.
  assert (Hsl : field_char "/" = false) by reflexivity.
  assert (Hda : field_char "-" = false) by reflexivity.
  destruct H1 as [<-|[<-|[<-|[<-|[]]]]]; destruct H2 as [<-|[<-|[<-|[<-|[]]]]];
    cbn [list_ascii_of_string parse_format] in M1, M2;
    apply three_fields in M1 as (a1 & b1 & c1 & E1 & (Ta1 & La1) & (Tb1 & Lb1) & (Tc1 & Lc1) & ->);
    apply three_fields in M2 as (a2 & b2 & c2 & E2 & (Ta2 & La2) & (Tb2 & Lb2) & (Tc2 & Lc2) & ->);
    rewrite E1 in E2;
    apply split_unique in E2 as (-> & Hsep & E2); auto; try discriminate;
    try (apply split_unique in E2 as (-> & _ & ->); auto; reflexivity);
    try (exfalso; lia).
Qed.
End StrptimeFacts.

Section YearCutoff.
Import Strptime Scraper ScraperPool Examples.

Lemma scan_file_date_found probes : forall seen raw,
  scan_file_date probes seen = (true, Some raw) -> Py.truthy raw = true.
Proof.
  induction probes as [|[| |[t|]] probes IH]; intros seen raw; simpl; try apply IH.
  - discriminate.
  - destruct (Py.truthy t && Py.truthy (Py.strip t)) eqn:E; [|apply IH].
    intros [= <-]. now apply andb_prop in E as [E _].
Qed.

Lemma scan_file_date_cases probes seen :
  (exists raw, scan_file_date probes seen = (true, Some raw)) \/
  (exists x, scan_file_date probes seen = (false, x)).
Proof.
  revert seen. induction probes as [|[| |[t|]] probes IH]; intros seen; simpl; eauto.
  destruct (Py.truthy t && Py.truthy (Py.strip t)); eauto.
Qed.

Lemma try_date_formats_parsed text min : forall formats fmt d,
  (forall f, In f formats -> In f candidate_formats) ->
  In fmt candidate_formats -> strptime text fmt = Some d ->
  In fmt formats ->
  try_date_formats text formats min = (min <=? year d).
Proof.
  induction formats as [|f formats IH]; intros fmt d Hsub Hfmt Hp Hin; [destruct Hin|].
  simpl. destruct (strptime text f) as [d'|] eqn:E.
  - rewrite (year_agreement text f fmt d' d); auto. apply Hsub. now left.
  - destruct Hin as [->|Hin]; [congruence|].
    apply (IH fmt d); auto. intros f' Hf'. apply Hsub. now right.
Qed.

Lemma try_date_formats_unparsed text min : forall formats,
  (forall f, In f formats -> strptime text f = None) ->
  try_date_formats text formats min = true.
Proof.
  induction formats as [|f formats IH]; intros H; [reflexivity|].
  simpl. rewrite (H f) by now left. apply IH. intros f' Hf'. apply H. now right.
Qed.

(** C5.  Year cutoff.  When the first row's file date parses, with any of
    the four candidate formats, to a date of year y, check_latest_file_date
    returns whether y >= the minimum year; when the date is not found or
    parses with no format it returns True.  After a successful search
    submission, a False check makes run return False at once, leaving the
    scraper untouched (no row is processed, the worker reports zero
    records); a True check leads into process_felony_cases. *)
Theorem year_cutoff_branch (first_row : string -> SelectorProbe) (min : Z) :
  let found := scan_file_date (map first_row file_date_selectors) None in
  (forall raw fmt d,
      found = (true, Some raw) -> In fmt candidate_formats ->
      strptime (Py.strip raw) fmt = Some d ->
      check_latest_file_date first_row min = (min <=? year d)) /\
  (forall raw,
      found = (true, Some raw) ->
      (forall fmt, In fmt candidate_formats -> strptime (Py.strip raw) fmt = None) ->
      check_latest_file_date first_row min = true) /\
  (forall x, found = (false, x) -> check_latest_file_date first_row min = true) /\
  (forall fuel recovery_enabled st p s,
      st_first_row st = first_row ->
      st_navigate st = true -> st_fill st = true ->
      st_captcha st = true -> st_submit st = true ->
      (check_latest_file_date first_row min = false ->
       run fuel recovery_enabled min st p s = (Some false, false, s) /\
       forall first last idx,
         Py.truthy first = true -> Py.truthy last = true ->
         scrape_attorney_worker fuel recovery_enabled min
           (Dict (Some first) (Some last)) idx (mkJob true st p)
         = Some (mkWorkerReturn idx [] false None
                   (Some (cleanup (init (mkAttorney first last)))))) /\
      (check_latest_file_date first_row min = true ->
       snd (fst (run fuel recovery_enabled min st p s)) = true /\
       snd (run fuel recovery_enabled min st p s)
       = fst (process_felony_cases fuel recovery_enabled p s
                (get_case_type_rows p s)))).
Proof.
  cbv zeta. split; [|split; [|split]].
  - intros raw fmt d Hf Hin Hp. unfold check_latest_file_date. rewrite Hf.
    rewrite (scan_file_date_found _ _ _ Hf).
    destruct (strptime (Py.strip raw) "%m/%d/%Y") as [d'|] eqn:E.
    + rewrite (year_agreement (Py.strip raw) "%m/%d/%Y" fmt d' d); auto. now left.
    + assert (Hin' : In fmt date_formats)
        by (destruct Hin as [<-|Hin]; [congruence|exact Hin]).
      apply (try_date_formats_parsed _ _ _ fmt d); auto.
      intros f Hf'. now right.
  - intros raw Hf Hnone. unfold check_latest_file_date. rewrite Hf.
    rewrite (scan_file_date_found _ _ _ Hf).
    rewrite (Hnone "%m/%d/%Y") by now left.
    apply try_date_formats_unparsed. intros f Hf'. apply Hnone. now right.
  - intros x Hf. unfold check_latest_file_date. now rewrite Hf.
  - intros fuel recovery_enabled st p s Hfr Hn Hfi Hc Hs. split.
    + intros Hchk.
      assert (Hrun : forall s0, run fuel recovery_enabled min st p s0
                                = (Some false, false, s0)).
      { intros s0. unfold run. now rewrite Hn, Hfi, Hc, Hs, Hfr, Hchk. }
      split; [apply Hrun|].
      intros first last idx Hfirst Hlast. unfold scrape_attorney_worker.
      rewrite Hfirst, Hlast. simpl. now rewrite Hrun.
    + intros Hchk. unfold run. rewrite Hn, Hfi, Hc, Hs, Hfr, Hchk. simpl.
      now destruct (process_felony_cases _ _ _ _ _).
Qed.

Lemma year_cutoff_branch_witness :
  let min := Config.MINIMUM_CASE_YEAR in
  check_latest_file_date (first_row_dated "01/15/2019") min = false /\
  check_latest_file_date (first_row_dated "15/01/2026") min = true /\
  check_latest_file_date (first_row_dated "n/a") min = true /\
  run 5 Config.ENABLE_SESSION_RECOVERY min (startup_dated "01/15/2019")
      portal_two_cases (init jane)
  = (Some false, false, init jane).
Proof.
  cbv zeta. split; [|split; [|split]].
  - apply (proj1 (year_cutoff_branch (first_row_dated "01/15/2019") 2025)
             "01/15/2019" "%m/%d/%Y" (mkDate 2019 1 15)).
    + reflexivity.
    + now left.
    + reflexivity.
  - apply (proj1 (year_cutoff_branch (first_row_dated "15/01/2026") 2025)
             "15/01/2026" "%d/%m/%Y" (mkDate 2026 1 15)).
    + reflexivity.
    + right; right; right; now left.
    + reflexivity.
  - apply (proj1 (proj2 (year_cutoff_branch (first_row_dated "n/a") 2025)) "n/a").
    + reflexivity.
    + intros fmt [<-|[<-|[<-|[<-|[]]]]]; reflexivity.
  - apply (proj2 (proj2 (proj2
             (year_cutoff_branch (first_row_dated "01/15/2019") 2025)))
             5%nat true (startup_dated "01/15/2019") portal_two_cases (init jane));
      reflexivity.
Defined.

End YearCutoff.

(** ** Going back to the results list (scraper.py) *)
Section NavigateBack.
Import Scraper Examples.

Lemma try_search_tabs_unconfirmed tabs :
  (forall tab, In tab tabs ->
     fst (wait_for_search_results_page (heading tab) 120) = false) ->
  try_search_tabs tabs = false.
Proof.
  induction tabs as [|tab tabs IH]; intros H; [reflexivity|]. simpl.
  assert (IH' : try_search_tabs tabs = false)
    by (apply IH; intros t Ht; apply H; now right).
  rewrite (H tab) by now left. rewrite IH'.
  destruct (match tab_count tab with Some n => n | None => 0%nat end =? 0)%nat;
    [reflexivity|].
  destruct (tab_visible tab) as [[]|]; try reflexivity.
  now destruct (tab_click_ok tab).
Qed.

Lemma wait_confirms tab :
  fst (wait_for_search_results_page (heading tab) 120)
  = match heading tab with HeadingAfter ms => ms <? 1200 | _ => false end.
Proof.
  unfold wait_for_search_results_page. destruct (heading tab) as [ms| |]; try reflexivity.
  change (120 * 10) with 1200. now destruct (ms <? 1200).
Qed.

Lemma try_search_tabs_confirms tabs :
  try_search_tabs tabs = existsb tab_confirms tabs.
Proof.
  induction tabs as [|tab tabs IH]; [reflexivity|]. simpl.
  rewrite wait_confirms, IH. unfold tab_confirms.
  destruct (tab_count tab) as [[|n]|], (tab_visible tab) as [[]|],
    (tab_click_ok tab), (heading tab) as [ms| |];
    simpl; try reflexivity; now destruct (ms <? 1200).
Qed.

(** A click is confirmed when the tab is there, visible and clickable and
    the wait that follows the click returns True. *)
Lemma tab_confirms_spec tab :
  tab_confirms tab = true <->
  (exists n, tab_count tab = Some (S n)) /\
  tab_visible tab = Some true /\
  tab_click_ok tab = true /\
  fst (wait_for_search_results_page (heading tab) 120) = true.
Proof.
  rewrite wait_confirms. unfold tab_confirms. split.
  - intros H. repeat (apply andb_prop in H as [H ?]).
    destruct (tab_count tab) as [[|n]|]; try discriminate.
    destruct (tab_visible tab) as [[]|]; try discriminate.
    repeat split; eauto.
  - intros ([n ->] & -> & -> & ->). reflexivity.
Qed.

(** C10 (amended).  For every call wait_for_search_results_page(n) with
    n > 0 the wait for the heading lasts at most n * 10 ms, one hundredth
    of n seconds (1200 ms for the default 120); when the heading is not
    there by then the function returns False.
    navigate_back_to_search_results then goes on to the remaining tab
    selectors: it returns False exactly when no selector's click is
    confirmed, that is when for every selector the tab is missing, hidden
    or not clickable, or the wait after its click returns False.  That
    failure starts session recovery when recovery is enabled and ends the
    row loop when it is not. *)
Theorem search_results_wait_bound (w : HeadingWait) (max_wait_seconds : Z) :
  0 < max_wait_seconds ->
  let timeout_ms := max_wait_seconds * 10 in
  snd (wait_for_search_results_page w max_wait_seconds) <= timeout_ms /\
  timeout_ms * 100 = max_wait_seconds * 1000 /\
  snd (wait_for_search_results_page HeadingNever 120) = 1200 /\
  (heading_missed w timeout_ms ->
   wait_for_search_results_page w max_wait_seconds = (false, timeout_ms)) /\
  (forall tabs,
      (forall tab, In tab tabs ->
         fst (wait_for_search_results_page (heading tab) 120) = false) ->
      try_search_tabs tabs = false) /\
  (forall tab,
      tab_confirms tab = true <->
      (exists n, tab_count tab = Some (S n)) /\
      tab_visible tab = Some true /\
      tab_click_ok tab = true /\
      fst (wait_for_search_results_page (heading tab) 120) = true) /\
  (forall tabs,
      try_search_tabs tabs = false <->
      forall tab, In tab tabs -> tab_confirms tab = false) /\
  (forall p s,
      navigate_back_to_search_results p s = false <->
      forall selector, In selector search_tab_selectors ->
        tab_confirms (search_tab p (step s) selector) = false) /\
  (forall p s i,
      navigate_back_to_search_results p s = false ->
      leave_case true p s i =
        (snd (recover_session p s),
         if fst (recover_session p s)
         then Continue (get_case_type_rows p (snd (recover_session p s))) 0
         else Return) /\
      leave_case false p s i = (s, Return)).
Proof.
  intros Hpos. cbv zeta.
  assert (Htabs : forall tabs,
            try_search_tabs tabs = false <->
            forall tab, In tab tabs -> tab_confirms tab = false).
  { intros tabs. rewrite try_search_tabs_confirms. split.
    - intros H tab Hin. destruct (tab_confirms tab) eqn:E; [|reflexivity].
      assert (existsb tab_confirms tabs = true) by (apply existsb_exists; eauto).
      congruence.
    - intros H. destruct (existsb tab_confirms tabs) eqn:E; [|reflexivity].
      apply existsb_exists in E as (tab & Hin & Hc).
      rewrite (H tab Hin) in Hc. discriminate. }
  split; [|split; [|split; [|split; [|split; [|split; [|split; [|split]]]]]]].
  - unfold wait_for_search_results_page. destruct w as [ms| |]; simpl; try lia.
    destruct (Z.ltb_spec ms (max_wait_seconds * 10)); simpl; lia.
  - lia.
  - reflexivity.
  - unfold heading_missed, wait_for_search_results_page.
    destruct w as [ms| |]; intros H; try reflexivity; [|destruct H].
    destruct (Z.ltb_spec ms (max_wait_seconds * 10)); [lia|reflexivity].
  - apply try_search_tabs_unconfirmed.
  - apply tab_confirms_spec.
  - exact Htabs.
  - intros p s. unfold navigate_back_to_search_results. rewrite Htabs. split.
    + intros H selector Hsel. apply H. now apply in_map.
    + intros H tab Hin. apply in_map_iff in Hin as (selector & <- & Hsel).
      now apply H.
  - intros p s i Hnav. unfold leave_case. rewrite Hnav.
    split; [|reflexivity].
    destruct (recover_session p s) as [[] s']; reflexivity.
Qed.

Lemma search_results_wait_bound_witness :
  wait_for_search_results_page HeadingNever 120 = (false, 1200) /\
  try_search_tabs [tab_timed_out; tab_timed_out] = false /\
  try_search_tabs [tab_timed_out; tab_confirmed] <> false /\
  navigate_back_to_search_results portal_second_tab (init jane) <> false.
Proof.
  destruct (search_results_wait_bound HeadingNever 120 eq_refl)
    as (_ & _ & _ & Hmiss & Htabs & _ & Hiff & Hnav & _).
  split; [|split; [|split]].
  - apply Hmiss. exact I.
  - apply Htabs. intros tab [<-|[<-|[]]]; reflexivity.
  - intros H.
    assert (Hc : tab_confirms tab_confirmed = false)
      by (apply (proj1 (Hiff _) H); right; now left).
    discriminate Hc.
  - intros H.
    assert (Hc : tab_confirms
                   (search_tab portal_second_tab (step (init jane))
                      "li#tcController_1 a") = false)
      by (apply (proj1 (Hnav _ _) H); right; now left).
    discriminate Hc.
Defined.

(** C10, as stated, fails: the wait after the first tab selector times out
    after 1200 ms and returns False, yet the second selector is confirmed,
    navigate_back_to_search_results returns True and the row loop goes on
    to the next row without any recovery. *)
Lemma timed_out_wait_without_recovery :
  wait_for_search_results_page (heading tab_timed_out) 120 = (false, 1200) /\
  search_tab portal_second_tab 0 "a#tcControllerLink_1" = tab_timed_out /\
  navigate_back_to_search_results portal_second_tab (init jane) = true /\
  leave_case true portal_second_tab (init jane) 0
  = (init jane, Continue two_rows 1).
Proof. repeat split. Qed.

End NavigateBack.

(** ** The row loop and session recovery (scraper.py) *)
Section RowLoop.
Import CaseDataExtractor Scraper Examples.

(** *** Steps that leave the harvest alone *)

Lemma same_harvest_refl s : same_harvest s s.
Proof. repeat split. Qed.

Lemma same_harvest_trans s1 s2 s3 :
  same_harvest s1 s2 -> same_harvest s2 s3 -> same_harvest s1 s3.
Proof. unfold same_harvest. intuition congruence. Qed.

Lemma cleanup_same s : same_harvest s (cleanup s).
Proof. unfold cleanup. destruct (has_session s); repeat split. Qed.

Lemma store_session_same s : same_harvest s (store_session s).
Proof. repeat split. Qed.

Lemma next_step_same s : same_harvest s (next_step s).
Proof. repeat split. Qed.

Lemma setup_browser_same outcome s :
  same_harvest s (snd (setup_browser outcome s)).
Proof.
  unfold setup_browser. destruct (0 <? live_sessions s)%nat; [repeat split|].
  destruct outcome; repeat split.
Qed.

Lemma recovery_attempts_same p : forall remaining attempt s,
  same_harvest s (snd (recovery_attempts remaining attempt p s)).
Proof.
  induction remaining as [|r IH]; intros attempt s; simpl; [apply same_harvest_refl|].
  pose proof (setup_browser_same
                (att_setup_browser (recovery p (step s) attempt)) s) as Hs.
  destruct (setup_browser _ s) as [[] s1]; simpl in Hs.
  - destruct (attempt_succeeds _); simpl; [exact Hs|].
    eapply same_harvest_trans; [exact Hs|apply IH].
  - eapply same_harvest_trans; [exact Hs|apply IH].
Qed.

Lemma recover_session_same p s : same_harvest s (snd (recover_session p s)).
Proof.
  unfold recover_session.
  eapply same_harvest_trans; [apply cleanup_same|apply recovery_attempts_same].
Qed.

Lemma on_exception_same rec p s rows i :
  same_harvest s (fst (on_exception rec p s rows i)).
Proof.
  unfold on_exception. destruct rec; [|apply same_harvest_refl].
  pose proof (recover_session_same p s) as H.
  destruct (recover_session p s) as [[] s']; exact H.
Qed.

Lemma leave_case_same rec p s i :
  same_harvest s (fst (leave_case rec p s i)).
Proof.
  unfold leave_case. destruct (navigate_back_to_search_results p s);
    [apply same_harvest_refl|].
  destruct rec; [|apply same_harvest_refl].
  pose proof (recover_session_same p s) as H.
  destruct (recover_session p s) as [[] s']; exact H.
Qed.

Lemma truthy_nonempty n : Py.truthy n = true <-> n <> "".
Proof. destruct n; simpl; split; congruence. Qed.

(* what harvesting a row does *)
Lemma harvest_row_spec p s row s' :
  harvest_row p s row = Harvested s' ->
  let n := get_case_number_from_row row in
  exists page,
    open_case p (step s) row = Some page /\
    (n = "" \/ n ∉ processed_case_numbers s) /\
    results s' = (results s ++
       (if check_for_charge_keyword page Config.CHARGE_KEYWORDS
        then [with_attorney (attorney s) (extract_case_details page)] else []))%list /\
    processed_case_numbers s' =
      (if Py.truthy n then {[n]} ∪ processed_case_numbers s
       else processed_case_numbers s) /\
    opened_log s' = (opened_log s ++ [n])%list /\ attorney s' = attorney s.
Proof.
  unfold harvest_row. cbv zeta.
  set (n := get_case_number_from_row row).
  destruct (Py.truthy n && bool_decide (n ∈ processed_case_numbers s)) eqn:E;
    [discriminate|].
  destruct (open_case p (step s) row) as [page|]; [|discriminate].
  intros [= <-]. exists page. split; [reflexivity|]. split.
  { apply andb_false_iff in E as [E|E].
    - left. destruct n; [reflexivity|discriminate].
    - right. now apply bool_decide_eq_false in E. }
  unfold process_case_details.
  destruct (check_for_charge_keyword page Config.CHARGE_KEYWORDS);
    destruct (Py.truthy n); simpl; rewrite ?app_nil_r; auto.
Qed.

Lemma loop_body_cases rec p s rows i row :
  same_harvest s (fst (loop_body rec p s rows i row)) \/
  exists s', harvest_row p s row = Harvested s' /\
             same_harvest s' (fst (loop_body rec p s rows i row)).
Proof.
  unfold loop_body.
  destruct (row_fault p (step s)) as [[]|];
    try (left; apply on_exception_same);
    (destruct (harvest_row p s row) as [| |s'] eqn:H;
     [left; apply same_harvest_refl|left; apply same_harvest_refl|]);
    right; exists s'; split; auto;
    [apply on_exception_same|apply leave_case_same].
Qed.

(* results only grow *)
Lemma loop_body_grows rec p s rows i row :
  exists more, results (fst (loop_body rec p s rows i row)) = (results s ++ more)%list.
Proof.
  destruct (loop_body_cases rec p s rows i row) as [(E & _)|(s' & H & (E & _))].
  - exists []. now rewrite app_nil_r.
  - apply harvest_row_spec in H as (page & _ & _ & Hr & _).
    rewrite E, Hr. eauto.
Qed.

Lemma row_loop_grows rec p : forall fuel s rows i,
  exists more, results (fst (row_loop fuel rec p s rows i)) = (results s ++ more)%list.
Proof.
  induction fuel as [|fuel IH]; intros s rows i; simpl;
    destruct (rows !! i) as [row|]; try (exists []; now rewrite app_nil_r).
  destruct (loop_body_grows rec p s rows i row) as [more1 E1].
  destruct (loop_body rec p s rows i row) as [s1 c]. simpl in E1.
  destruct c as [rows' i'|]; simpl.
  - destruct (IH (next_step s1) rows' i') as [more2 E2].
    exists (more1 ++ more2)%list. rewrite E2. simpl. rewrite E1. now rewrite app_assoc.
  - exists more1. exact E1.
Qed.

Lemma row_loop_keeps rec p : forall n k s rows i,
  exists more,
    results (fst (row_loop (n + k) rec p s rows i))
    = (results (fst (row_loop n rec p s rows i)) ++ more)%list.
Proof.
  induction n as [|n IH]; intros k s rows i.
  - simpl plus. destruct (row_loop_grows rec p k s rows i) as [more E].
    exists more. rewrite E. simpl. now destruct (rows !! i).
  - simpl. destruct (rows !! i) as [row|]; [|exists []; now rewrite app_nil_r].
    destruct (loop_body rec p s rows i row) as [s1 [rows' i'|]].
    + apply IH.
    + exists []. now rewrite app_nil_r.
Qed.

(* no duplicates *)
Lemma same_harvest_no_duplicates s s' :
  same_harvest s s' -> no_duplicates s -> no_duplicates s'.
Proof.
  unfold no_duplicates, numbers. intros (-> & -> & _) H. exact H.
Qed.

Lemma with_attorney_number a c : case_number (with_attorney a c) = case_number c.
Proof. reflexivity. Qed.

Lemma harvest_no_duplicates p s row s' :
  consistent_numbers p -> harvest_row p s row = Harvested s' ->
  no_duplicates s -> no_duplicates s'.
Proof.
  intros Hc H [Hnd Hin].
  apply harvest_row_spec in H as (page & Ho & Hn & Hr & Hp & _).
  unfold no_duplicates, numbers. rewrite Hr, Hp, map_app.
  destruct (check_for_charge_keyword page Config.CHARGE_KEYWORDS) eqn:K.
  - destruct (Hc _ _ _ Ho K) as [Hne Heq].
    destruct Hn as [Hn|Hn]; [congruence|].
    apply truthy_nonempty in Hne as Ht. rewrite Ht. simpl.
    rewrite Heq. split.
    + apply NoDup_app. repeat split; auto.
      * intros x Hx Hx'. apply list_elem_of_singleton in Hx' as ->. auto.
      * apply NoDup_singleton.
    + intros n Hn'. apply elem_of_app in Hn' as [Hn'|Hn'].
      * apply elem_of_union_r. auto.
      * apply list_elem_of_singleton in Hn' as ->. apply elem_of_union_l.
        now apply elem_of_singleton.
  - simpl. rewrite app_nil_r. split; auto.
    intros n Hn'. destruct (Py.truthy _); auto. apply elem_of_union_r. auto.
Qed.

Lemma loop_body_no_duplicates rec p s rows i row :
  consistent_numbers p -> no_duplicates s ->
  no_duplicates (fst (loop_body rec p s rows i row)).
Proof.
  intros Hc Hs.
  destruct (loop_body_cases rec p s rows i row) as [E|(s' & H & E)].
  - eapply same_harvest_no_duplicates; eauto.
  - eapply same_harvest_no_duplicates; eauto.
    eapply harvest_no_duplicates; eauto.
Qed.

Lemma row_loop_no_duplicates rec p : consistent_numbers p ->
  forall fuel s rows i, no_duplicates s ->
  no_duplicates (fst (row_loop fuel rec p s rows i)).
Proof.
  intros Hc. induction fuel as [|fuel IH]; intros s rows i Hs; simpl;
    destruct (rows !! i) as [row|]; auto.
  pose proof (loop_body_no_duplicates rec p s rows i row Hc Hs) as H1.
  destruct (loop_body rec p s rows i row) as [s1 [rows' i'|]]; simpl in *.
  - apply IH. eapply same_harvest_no_duplicates; [apply next_step_same|auto].
  - eapply same_harvest_no_duplicates; [apply next_step_same|auto].
Qed.

Lemma init_no_duplicates a : no_duplicates (init a).
Proof. split; [constructor|]. intros n H. inversion H. Qed.

(* opened once *)
Lemma same_harvest_opened_once s s' :
  same_harvest s s' -> opened_once s -> opened_once s'.
Proof.
  unfold opened_once. intros (_ & -> & -> & _) H. exact H.
Qed.

Lemma harvest_opened_once p s row s' :
  harvest_row p s row = Harvested s' -> opened_once s -> opened_once s'.
Proof.
  intros H [Hnd Hin].
  apply harvest_row_spec in H as (page & _ & Hn & _ & Hp & Hl & _).
  unfold opened_once. rewrite Hl, Hp, List.filter_app. simpl.
  destruct (Py.truthy (get_case_number_from_row row)) eqn:T.
  - apply truthy_nonempty in T as Hne.
    destruct Hn as [Hn|Hn]; [congruence|]. split.
    + apply NoDup_app. repeat split; auto.
      * intros x Hx Hx'. apply list_elem_of_singleton in Hx' as ->.
        apply list_elem_of_In, List.filter_In in Hx as [Hx _].
        apply list_elem_of_In in Hx. auto.
      * apply NoDup_singleton.
    + intros n Hn' Hne'. apply elem_of_app in Hn' as [Hn'|Hn'].
      * apply elem_of_union_r. auto.
      * apply list_elem_of_singleton in Hn' as ->. apply elem_of_union_l.
        now apply elem_of_singleton.
  - rewrite app_nil_r. split; auto.
    intros n Hn' Hne'. apply elem_of_app in Hn' as [Hn'|Hn']; auto.
    apply list_elem_of_singleton in Hn' as ->.
    apply truthy_nonempty in Hne'. congruence.
Qed.

Lemma loop_body_opened_once rec p s rows i row :
  opened_once s -> opened_once (fst (loop_body rec p s rows i row)).
Proof.
  intros Hs.
  destruct (loop_body_cases rec p s rows i row) as [E|(s' & H & E)].
  - eapply same_harvest_opened_once; eauto.
  - eapply same_harvest_opened_once; eauto.
    eapply harvest_opened_once; eauto.
Qed.

Lemma row_loop_opened_once rec p :
  forall fuel s rows i, opened_once s ->
  opened_once (fst (row_loop fuel rec p s rows i)).
Proof.
  induction fuel as [|fuel IH]; intros s rows i Hs; simpl;
    destruct (rows !! i) as [row|]; auto.
  pose proof (loop_body_opened_once rec p s rows i row Hs) as H1.
  destruct (loop_body rec p s rows i row) as [s1 [rows' i'|]]; simpl in *.
  - apply IH. eapply same_harvest_opened_once; [apply next_step_same|auto].
  - eapply same_harvest_opened_once; [apply next_step_same|auto].
Qed.

(* the set never shrinks *)
Lemma loop_body_processed_grows rec p s rows i row :
  processed_case_numbers s ⊆ processed_case_numbers (fst (loop_body rec p s rows i row)).
Proof.
  destruct (loop_body_cases rec p s rows i row) as [(_ & -> & _)|(s' & H & (_ & -> & _))];
    [set_solver|].
  apply harvest_row_spec in H as (page & _ & _ & _ & -> & _).
  destruct (Py.truthy _); set_solver.
Qed.

Lemma row_loop_processed_grows rec p :
  forall fuel s rows i,
  processed_case_numbers s ⊆ processed_case_numbers (fst (row_loop fuel rec p s rows i)).
Proof.
  induction fuel as [|fuel IH]; intros s rows i; simpl;
    destruct (rows !! i) as [row|]; try set_solver.
  pose proof (loop_body_processed_grows rec p s rows i row) as H1.
  destruct (loop_body rec p s rows i row) as [s1 [rows' i'|]]; simpl in *.
  - etransitivity; [exact H1|]. apply (IH (next_step s1)).
  - exact H1.
Qed.

Lemma init_opened_once a : opened_once (init a).
Proof. split; [constructor|]. intros n H. inversion H. Qed.

Lemma portal_two_cases_consistent : consistent_numbers portal_two_cases.
Proof.
  intros t row page Hopen _. simpl in Hopen.
  destruct (String.eqb (get_case_number_from_row row) "F-2500001") eqn:E1.
  - apply String.eqb_eq in E1. injection Hopen as <-. rewrite E1.
    split; [discriminate|reflexivity].
  - destruct (String.eqb (get_case_number_from_row row) "F-2500002") eqn:E2;
      [|discriminate].
    apply String.eqb_eq in E2. injection Hopen as <-. rewrite E2.
    split; [discriminate|reflexivity].
Defined.

(** C1 (amended).  For every run of the row loop, with any failures and
    recoveries: the result list at any moment is a prefix of the result
    list at any later moment, so no record already appended is lost; and
    when every row that opens a keyword-bearing case shows a readable case
    number equal to the one on the detail page, the result list never
    holds two records with the same case_number. *)
Theorem recovery_keeps_and_never_duplicates
    (recovery_enabled : bool) (p : Portal) (a : Attorney) (rows : list Row)
    (n k : nat) :
  let before := fst (process_felony_cases n recovery_enabled p (init a) rows) in
  let final := fst (process_felony_cases (n + k) recovery_enabled p (init a) rows) in
  (exists more, results final = (results before ++ more)%list) /\
  (consistent_numbers p -> NoDup (map case_number (results final))).
Proof.
  cbv zeta. unfold process_felony_cases. split.
  - apply row_loop_keeps.
  - intros Hc. apply (row_loop_no_duplicates recovery_enabled p Hc), init_no_duplicates.
Qed.

Lemma recovery_keeps_and_never_duplicates_witness :
  let final := fst (process_felony_cases (2 + 4) true portal_two_cases
                      (init jane) two_rows) in
  NoDup (map case_number (results final)) /\
  map case_number (results final) = ["F-2500001"; "F-2500002"].
Proof.
  cbv zeta. split.
  - apply (proj2 (recovery_keeps_and_never_duplicates true portal_two_cases
                    jane two_rows 2 4)).
    exact portal_two_cases_consistent.
  - reflexivity.
Defined.

(** C1, as stated, fails: the only row has a case link that can be clicked
    but not read; the way back fails after the case was harvested, recovery
    succeeds at its first attempt, the loop restarts from the top and the
    same case is harvested again. *)
Lemma recovery_duplicates_unreadable_row :
  let outcome := process_felony_cases 5 true portal_lost_navigation (init jane)
                   [row_without_number] in
  navigate_back_to_search_results portal_lost_navigation (init jane) = false /\
  fst (recover_session portal_lost_navigation (init jane)) = true /\
  snd outcome = true /\
  map case_number (results (fst outcome)) = ["F-2500001"; "F-2500001"] /\
  ~ NoDup (map case_number (results (fst outcome))).
Proof.
  cbv zeta. repeat split.
  intros H. change (NoDup ["F-2500001"; "F-2500001"]) in H.
  apply NoDup_cons_1_1 in H. apply H. left.
Qed.

(** C2 (amended).  In every state of the row loop: a row whose own case
    number (the text of its case link) is non-empty has that number in the
    processed set once its case was harvested, and the workflow leaves the
    detail page from that state; a row whose number is already in the set
    is skipped, never opened; through the whole loop, recoveries included,
    the set only grows and no case with a readable number is opened
    twice. *)
Theorem processed_set_invariant
    (recovery_enabled : bool) (p : Portal) (s : State) :
  (forall row s',
      harvest_row p s row = Harvested s' ->
      get_case_number_from_row row <> "" ->
      get_case_number_from_row row ∈ processed_case_numbers s') /\
  (forall rows i row s',
      row_fault p (step s) = None ->
      harvest_row p s row = Harvested s' ->
      loop_body recovery_enabled p s rows i row = leave_case recovery_enabled p s' i) /\
  (forall row,
      get_case_number_from_row row <> "" ->
      get_case_number_from_row row ∈ processed_case_numbers s ->
      harvest_row p s row = Skipped) /\
  (forall fuel rows i,
      let s' := fst (row_loop fuel recovery_enabled p s rows i) in
      processed_case_numbers s ⊆ processed_case_numbers s' /\
      (opened_once s -> opened_once s')).
Proof.
  split; [|split; [|split]].
  - intros row s' H Hne. apply harvest_row_spec in H as (page & _ & _ & _ & -> & _).
    apply truthy_nonempty in Hne as ->. set_solver.
  - intros rows i row s' Hf H. unfold loop_body. now rewrite Hf, H.
  - intros row Hne Hin. unfold harvest_row.
    apply truthy_nonempty in Hne as ->. now rewrite bool_decide_eq_true_2.
  - intros fuel rows i. cbv zeta. split.
    + apply row_loop_processed_grows.
    + apply row_loop_opened_once.
Qed.

Lemma processed_set_invariant_witness :
  let s := init jane in
  let s' := mark_processed
              (process_case_details (log_opened s "F-2500001")
                 (page_of "F-2500001")) "F-2500001" in
  harvest_row portal_two_cases s (row_of "F-2500001") = Harvested s' /\
  "F-2500001" ∈ processed_case_numbers s' /\
  harvest_row portal_two_cases s' (row_of "F-2500001") = Skipped.
Proof.
  cbv zeta. split; [reflexivity|]. split.
  - apply (proj1 (processed_set_invariant true portal_two_cases (init jane))
             (row_of "F-2500001")).
    + reflexivity.
    + discriminate.
  - apply (proj1 (proj2 (proj2 (processed_set_invariant true portal_two_cases
             (mark_processed
                (process_case_details (log_opened (init jane) "F-2500001")
                   (page_of "F-2500001")) "F-2500001"))))
             (row_of "F-2500001")).
    + discriminate.
    + apply (proj1 (processed_set_invariant true portal_two_cases (init jane))
               (row_of "F-2500001")).
      * reflexivity.
      * discriminate.
Defined.

(** C2, as stated, fails: a record with the non-empty case_number
    "F-2500001" is produced from the detail page of a row whose link text
    cannot be read; the number is not in the processed set when the
    workflow leaves the page, and after the recovery the same case is
    opened again. *)
Lemma unreadable_row_not_marked :
  let p := portal_lost_navigation in
  let s' := process_case_details (log_opened (init jane) "")
              (page_of "F-2500001") in
  harvest_row p (init jane) row_without_number = Harvested s' /\
  map case_number (results s') = ["F-2500001"] /\
  ("F-2500001" ∉ processed_case_numbers s') /\
  loop_body true p (init jane) [row_without_number] 0 row_without_number
  = leave_case true p s' 0 /\
  opened_log (fst (process_felony_cases 5 true p (init jane)
                     [row_without_number])) = [""; ""].
Proof.
  cbv zeta. split; [reflexivity|]. split; [reflexivity|].
  split; [|split; reflexivity].
  apply (bool_decide_eq_false_1 ("F-2500001" ∈ _)). reflexivity.
Qed.

(** *** Browser sessions *)

Lemma harvest_row_session p s row s' :
  harvest_row p s row = Harvested s' ->
  has_session s' = has_session s /\ live_sessions s' = live_sessions s.
Proof.
  unfold harvest_row.
  destruct (Py.truthy _ && _); [discriminate|].
  destruct (open_case p (step s) row) as [page|]; [|discriminate].
  intros [= <-]. unfold process_case_details.
  destruct (check_for_charge_keyword page Config.CHARGE_KEYWORDS);
    destruct (Py.truthy (get_case_number_from_row row)); split; reflexivity.
Qed.

Lemma cleanup_closed s : has_session (cleanup s) = false.
Proof. unfold cleanup. now destruct (has_session s) eqn:E. Qed.

Lemma cleanup_one_session s : one_session s -> live_sessions (cleanup s) = 0%nat.
Proof.
  unfold one_session, cleanup. destruct (has_session s); simpl; intros ->; reflexivity.
Qed.

Lemma cleanup_keeps_one_session s : one_session s -> one_session (cleanup s).
Proof.
  intros H. unfold one_session. now rewrite cleanup_closed, cleanup_one_session.
Qed.

Lemma cleanup_session_kept s : session_kept s -> session_kept (cleanup s).
Proof.
  unfold session_kept, cleanup. intros [Hle Hs].
  destruct (has_session s) eqn:E; simpl;
    [|split; [exact Hle|intros H; congruence]].
  rewrite (Hs eq_refl). simpl. split; [lia|discriminate].
Qed.

(** [setup_browser] does not start Playwright twice. *)
Lemma setup_browser_session_kept outcome s :
  session_kept s -> session_kept (snd (setup_browser outcome s)).
Proof.
  unfold session_kept, setup_browser. intros [Hle Hs].
  destruct (0 <? live_sessions s)%nat eqn:E; [now split|].
  apply Nat.ltb_ge in E.
  assert (H0 : live_sessions s = 0%nat) by lia.
  destruct (has_session s) eqn:Eh; [specialize (Hs eq_refl); lia|].
  destruct outcome; simpl; rewrite ?H0, ?Eh; split; auto; discriminate.
Qed.

Lemma setup_browser_one_session outcome s :
  outcome <> SetupFailsLater ->
  one_session s -> one_session (snd (setup_browser outcome s)).
Proof.
  unfold one_session, setup_browser. intros Hclean Hs.
  destruct (0 <? live_sessions s)%nat eqn:E; [exact Hs|].
  apply Nat.ltb_ge in E.
  destruct outcome; simpl; [|exact Hs|contradiction].
  f_equal. lia.
Qed.

Lemma recovery_attempts_session_kept p : forall remaining attempt s,
  session_kept s -> session_kept (snd (recovery_attempts remaining attempt p s)).
Proof.
  induction remaining as [|r IH]; intros attempt s Hs; simpl; [exact Hs|].
  pose proof (setup_browser_session_kept
                (att_setup_browser (recovery p (step s) attempt)) s Hs) as H1.
  destruct (setup_browser _ s) as [[] s1]; simpl in H1.
  - destruct (attempt_succeeds _); simpl; [exact H1|now apply IH].
  - now apply IH.
Qed.

Lemma recovery_attempts_one_session p : forall remaining attempt s,
  clean_setup p ->
  one_session s -> one_session (snd (recovery_attempts remaining attempt p s)).
Proof.
  induction remaining as [|r IH]; intros attempt s Hclean Hs; simpl; [exact Hs|].
  pose proof (setup_browser_one_session
                (att_setup_browser (recovery p (step s) attempt)) s
                (Hclean _ _) Hs) as H1.
  destruct (setup_browser _ s) as [[] s1]; simpl in H1.
  - destruct (attempt_succeeds _); simpl; [exact H1|now apply IH].
  - now apply IH.
Qed.

Lemma recover_session_session_kept p s :
  session_kept s -> session_kept (snd (recover_session p s)).
Proof.
  intros Hs. unfold recover_session.
  now apply recovery_attempts_session_kept, cleanup_session_kept.
Qed.

Lemma recover_session_one_session p s :
  clean_setup p -> one_session s -> one_session (snd (recover_session p s)).
Proof.
  intros Hclean Hs. unfold recover_session.
  now apply recovery_attempts_one_session, cleanup_keeps_one_session.
Qed.

(** The row loop keeps a property of the session fields that session
    recovery keeps, if recovery is enabled. *)
Lemma loop_body_sessions (P : State -> Prop) rec p :
  (forall s s', has_session s' = has_session s ->
                live_sessions s' = live_sessions s -> P s -> P s') ->
  (rec = true -> forall s, P s -> P (snd (recover_session p s))) ->
  forall s rows i row, P s -> P (fst (loop_body rec p s rows i row)).
Proof.
  intros Hext Hrec s rows i row Hs.
  assert (Hh : forall s', harvest_row p s row = Harvested s' -> P s').
  { intros s' H. apply harvest_row_session in H as [H1 H2].
    exact (Hext s s' H1 H2 Hs). }
  assert (Hr : forall s', P s' ->
                 P (fst (on_exception rec p s' rows i))).
  { intros s' Hs'. unfold on_exception. destruct rec; [|exact Hs'].
    specialize (Hrec eq_refl s' Hs').
    destruct (recover_session p s') as [[] s2]; exact Hrec. }
  unfold loop_body.
  destruct (row_fault p (step s)) as [[]|]; auto;
    destruct (harvest_row p s row) as [| |s'] eqn:H; simpl; auto.
  unfold leave_case.
  destruct (navigate_back_to_search_results p s'); simpl; auto.
  destruct rec; simpl; auto.
  specialize (Hrec eq_refl s' (Hh s' eq_refl)).
  destruct (recover_session p s') as [[] s2]; exact Hrec.
Qed.

Lemma row_loop_sessions (P : State -> Prop) rec p :
  (forall s s', has_session s' = has_session s ->
                live_sessions s' = live_sessions s -> P s -> P s') ->
  (rec = true -> forall s, P s -> P (snd (recover_session p s))) ->
  forall fuel s rows i, P s -> P (fst (row_loop fuel rec p s rows i)).
Proof.
  intros Hext Hrec.
  induction fuel as [|fuel IH]; intros s rows i Hs; simpl;
    destruct (rows !! i) as [row|]; auto.
  pose proof (loop_body_sessions P rec p Hext Hrec s rows i row Hs) as H1.
  destruct (loop_body rec p s rows i row) as [s1 [rows' i'|]]; simpl in *.
  - apply IH. exact (Hext s1 (next_step s1) eq_refl eq_refl H1).
  - exact (Hext s1 (next_step s1) eq_refl eq_refl H1).
Qed.

Lemma one_session_ext s s' :
  has_session s' = has_session s -> live_sessions s' = live_sessions s ->
  one_session s -> one_session s'.
Proof. unfold one_session. now intros -> ->. Qed.

Lemma session_kept_ext s s' :
  has_session s' = has_session s -> live_sessions s' = live_sessions s ->
  session_kept s -> session_kept s'.
Proof. unfold session_kept. now intros -> ->. Qed.

Lemma row_loop_one_session rec p fuel s rows i :
  rec = false \/ clean_setup p ->
  one_session s -> one_session (fst (row_loop fuel rec p s rows i)).
Proof.
  intros Hrec. apply (row_loop_sessions one_session rec p one_session_ext).
  intros -> s1 Hs1. destruct Hrec as [Hrec|Hclean]; [discriminate|].
  now apply recover_session_one_session.
Qed.

Lemma row_loop_session_kept rec p fuel s rows i :
  session_kept s -> session_kept (fst (row_loop fuel rec p s rows i)).
Proof.
  apply (row_loop_sessions session_kept rec p session_kept_ext).
  intros _ s1. apply recover_session_session_kept.
Qed.

End RowLoop.

(** ** The coordinator (scraper_pool.py) *)
Section Pool.
Import Scraper ScraperPool Examples.

Lemma run_all_never_raises fuel rec min attorneys pool :
  run_all_attorneys_concurrent fuel rec min attorneys pool = None \/
  exists records,
    run_all_attorneys_concurrent fuel rec min attorneys pool = Some (Returned records).
Proof.
  unfold run_all_attorneys_concurrent, run_all_attorneys_concurrent_log.
  destruct attorneys as [|a attorneys]; [right; eauto|].
  destruct (pool_breaks pool); [right; eauto|].
  destruct (gather _ _ _ _ _ _) as [returns|]; [|now left].
  destruct (collect returns) as [shared errs]. right; eauto.
Qed.

Lemma invalid_entry_reported fuel rec min entry idx job :
  lacks_name entry = true ->
  exists msg,
    scrape_attorney_worker fuel rec min entry idx job
    = Some (mkWorkerReturn idx [] false (Some (ValueError msg)) None).
Proof.
  destruct entry as [|[first|] [last|]]; simpl; intros H; try (eexists; reflexivity).
  rewrite H. eexists; reflexivity.
Qed.

Lemma collect_concat returns :
  fst (collect returns) = List.concat (map w_results returns).
Proof.
  induction returns as [|w returns IH]; [reflexivity|]. simpl.
  destruct (collect returns) as [shared errs]. simpl in *. now rewrite IH.
Qed.

Lemma collect_reports returns w e :
  In w returns -> w_error w = Some e -> In (w_index w, e) (snd (collect returns)).
Proof.
  induction returns as [|w' returns IH]; intros Hin He; [destruct Hin|]. simpl.
  destruct (collect returns) as [shared errs]. simpl in *.
  destruct Hin as [->|Hin].
  - rewrite He. now left.
  - destruct (w_error w'); [right|]; auto.
Qed.

Lemma insert_by_perm key x l : Permutation (insert_by key x l) (x :: l).
Proof.
  induction l as [|y l IH]; simpl; [reflexivity|].
  destruct (key x <=? key y)%nat; [reflexivity|].
  rewrite IH. apply perm_swap.
Qed.

Lemma as_completed_perm key n : Permutation (as_completed key n) (seq 0 n).
Proof.
  unfold as_completed. induction (seq 0 n) as [|x l IH]; simpl; [reflexivity|].
  rewrite insert_by_perm. now rewrite IH.
Qed.

Lemma gather_spec fuel rec min attorneys pool : forall order returns,
  gather fuel rec min attorneys pool order = Some returns ->
  forall idx entry, In idx order -> attorneys !! idx = Some entry ->
  exists w, In w returns /\
    scrape_attorney_worker fuel rec min entry idx (jobs pool idx) = Some w.
Proof.
  induction order as [|i order IH]; intros returns Hg idx entry Hin Hl;
    [destruct Hin|].
  simpl in Hg. destruct (attorneys !! i) as [e|] eqn:Ei.
  - destruct (scrape_attorney_worker fuel rec min e i (jobs pool i)) as [w|] eqn:Ew;
      [|discriminate].
    destruct (gather fuel rec min attorneys pool order) as [ws|] eqn:Eg;
      [|discriminate].
    injection Hg as <-. destruct Hin as [->|Hin].
    + rewrite Hl in Ei. injection Ei as <-. exists w. split; [now left|exact Ew].
    + destruct (IH ws eq_refl idx entry Hin Hl) as (w' & Hw' & Ew').
      exists w'. split; [now right|exact Ew'].
  - destruct Hin as [->|Hin]; [congruence|].
    exact (IH returns Hg idx entry Hin Hl).
Qed.

(** Every attorney of the list is served once the coordinator returns:
    the records of its worker are in the aggregate, and an entry lacking a
    name is in the error summary, whatever the other entries are. *)
Lemma coordinator_serves_every_attorney fuel rec min attorneys pool records errors :
  pool_breaks pool = false ->
  run_all_attorneys_concurrent_log fuel rec min attorneys pool
  = Some (Returned records, errors) ->
  forall idx entry, attorneys !! idx = Some entry ->
  exists w,
    scrape_attorney_worker fuel rec min entry idx (jobs pool idx) = Some w /\
    (forall c, In c (w_results w) -> In c records) /\
    (lacks_name entry = true -> exists msg, In (idx, ValueError msg) errors).
Proof.
  intros Hpool Hrun idx entry Hl. unfold run_all_attorneys_concurrent_log in Hrun.
  destruct attorneys as [|a attorneys]; [discriminate Hl|].
  rewrite Hpool in Hrun.
  destruct (gather _ _ _ _ _ _) as [returns|] eqn:Hg; [|discriminate].
  pose proof (collect_concat returns) as Hc.
  pose proof (collect_reports returns) as Hr.
  destruct (collect returns) as [shared errs] eqn:Ec. simpl in Hc, Hr.
  injection Hrun as <- <-.
  assert (Hin : In idx (as_completed (finish_time pool) (List.length (a :: attorneys)))).
  { apply (Permutation_in idx (Permutation_sym (as_completed_perm _ _))).
    apply in_seq. apply lookup_lt_Some in Hl. simpl in *. lia. }
  destruct (gather_spec _ _ _ _ _ _ _ Hg idx entry Hin Hl) as (w & Hw & Ew).
  exists w. split; [exact Ew|]. split.
  - intros c Hcw. rewrite Hc. apply in_concat.
    exists (w_results w). split; [|exact Hcw]. apply in_map_iff. eauto.
  - intros Hbad.
    destruct (invalid_entry_reported fuel rec min entry idx (jobs pool idx) Hbad)
      as [msg Emsg].
    rewrite Emsg in Ew. injection Ew as <-.
    exists msg. apply (Hr _ _ Hw). reflexivity.
Qed.

(** What the worker leaves of its browser sessions: a property that
    [__init__] establishes and the row loop and [cleanup] keep holds of the
    scraper the worker leaves behind, whose fields are cleared. *)
Lemma worker_sessions (P : State -> Prop) fuel rec min entry idx job w s :
  (forall a, P (init a)) ->
  (forall s rows, P s -> P (fst (row_loop fuel rec (portal job) s rows 0))) ->
  (forall s, P s -> P (cleanup s)) ->
  scrape_attorney_worker fuel rec min entry idx job = Some w ->
  w_scraper w = Some s -> P s /\ has_session s = false.
Proof.
  intros Hinit Hloop Hclean. unfold scrape_attorney_worker.
  destruct entry as [|[first|] [last|]]; try (intros [= <-]; discriminate).
  destruct (negb (Py.truthy first) || negb (Py.truthy last));
    [intros [= <-]; discriminate|].
  destruct (negb (browser_starts job)); [intros [= <-]; discriminate|].
  assert (Hrun : P (snd (run fuel rec min (startup job) (portal job)
                           (init (mkAttorney first last))))).
  { unfold run.
    repeat match goal with
           | |- context [if negb ?b then _ else _] =>
               destruct b; simpl; try apply Hinit
           end.
    pose proof (Hloop (init (mkAttorney first last))
                  (get_case_type_rows (portal job) (init (mkAttorney first last)))
                  (Hinit _)) as H.
    unfold process_felony_cases.
    destruct (row_loop _ _ _ _ _ _) as [s1 fin]. exact H. }
  destruct (run _ _ _ _ _ _) as [[ret entered] s1]. simpl in Hrun.
  destruct ret as [[]|]; [| |discriminate]; intros [= <-] [= <-];
    (split; [now apply Hclean|apply cleanup_closed]).
Qed.

(** With session recovery disabled, or when [setup_browser] never raises
    half-way during recovery, the worker releases every Playwright
    instance the scraper started, on every exit path. *)
Lemma worker_releases_session fuel rec min entry idx job w s :
  rec = false \/ clean_setup (portal job) ->
  scrape_attorney_worker fuel rec min entry idx job = Some w ->
  w_scraper w = Some s -> live_sessions s = 0%nat /\ has_session s = false.
Proof.
  intros Hrec Hw Hs.
  destruct (worker_sessions one_session fuel rec min entry idx job w s)
    as [Hone Hclosed]; auto.
  - intros a. reflexivity.
  - intros s' rows. now apply row_loop_one_session.
  - apply cleanup_keeps_one_session.
  - unfold one_session in Hone. rewrite Hclosed in Hone. now split.
Qed.

Lemma worker_releases_session_without_recovery fuel min entry idx job w s :
  scrape_attorney_worker fuel false min entry idx job = Some w ->
  w_scraper w = Some s -> live_sessions s = 0%nat /\ has_session s = false.
Proof. apply worker_releases_session. now left. Qed.

(** In every case the worker closes the session its scraper refers to, and
    leaves at most one Playwright instance behind: one started by a
    [setup_browser] that raised before it returned its handles. *)
Lemma worker_leaves_one_instance_at_most fuel rec min entry idx job w s :
  scrape_attorney_worker fuel rec min entry idx job = Some w ->
  w_scraper w = Some s -> (live_sessions s <= 1)%nat /\ has_session s = false.
Proof.
  intros Hw Hs.
  destruct (worker_sessions session_kept fuel rec min entry idx job w s)
    as [[Hle _] Hclosed]; auto.
  - intros a. split; [simpl; lia|reflexivity].
  - intros s' rows. apply row_loop_session_kept.
  - apply cleanup_session_kept.
Qed.

(** C8: the code at the failing input.  JANE DOE's way back to the results
    list fails once and session recovery starts.  In its first attempt
    [setup_browser] launches Chrome and raises before it returns, so no
    handle reaches the scraper; no later attempt gets a browser either,
    and recovery fails.  The worker returns its record and runs cleanup,
    which finds nothing to close: the Chrome of the first attempt is
    still running. *)
Theorem failed_setup_leaks_browser :
  match scrape_attorney_worker 5 Config.ENABLE_SESSION_RECOVERY
          Config.MINIMUM_CASE_YEAR (Dict (Some "JANE") (Some "DOE"))
          0 job_setup_fails with
  | Some w =>
      w_success w = true /\ List.length (w_results w) = 1%nat /\
      match w_scraper w with
      | Some s => has_session s = false /\ live_sessions s = 1%nat
      | None => False
      end
  | None => False
  end.
Proof. vm_compute. repeat split. Qed.

End Pool.

(** ** Captcha resolution (captcha_handler.py) *)
Section Captcha.
Import CaptchaHandler ScraperPool Examples.

Lemma manual_unbounded_never_returns h :
  (forall k, checkbox_checked h k = false) ->
  forall fuel k, solve_captcha_manually_from fuel h None k = None.
Proof.
  intros Hn. induction fuel as [|fuel IH]; intros k; simpl; [reflexivity|].
  rewrite Hn. apply IH.
Qed.

Lemma manual_bounded_returns h t :
  (forall k, 2000 * Z.of_nat k <= elapsed_ms h k) ->
  forall n k fuel,
    t * 1000 < 2000 * Z.of_nat (k + n) -> (n < fuel)%nat ->
    exists r, solve_captcha_manually_from fuel h (Some t) k = Some r.
Proof.
  intros Hclock. induction n as [|n IH]; intros k fuel Ht Hf;
    (destruct fuel as [|fuel]; [lia|]); simpl;
    destruct (checkbox_checked h k); eauto.
  - replace (k + 0)%nat with k in Ht by lia.
    pose proof (Hclock k). destruct (Z.ltb_spec (t * 1000) (elapsed_ms h k)); eauto. lia.
  - destruct (t * 1000 <? elapsed_ms h k); eauto.
    apply IH; [|lia]. replace (S k + n)%nat with (k + S n)%nat by lia. exact Ht.
Qed.

Lemma manual_fuel_mono h timeout r : forall fuel k extra,
  solve_captcha_manually_from fuel h timeout k = Some r ->
  solve_captcha_manually_from (fuel + extra) h timeout k = Some r.
Proof.
  induction fuel as [|fuel IH]; intros k extra; simpl; [discriminate|].
  destruct (checkbox_checked h k); auto.
  destruct timeout as [t|]; [destruct (t * 1000 <? elapsed_ms h k); auto|]; apply IH.
Qed.

Lemma poll_solution_bound svc : forall remaining attempt,
  (snd (poll_solution remaining attempt svc) <= attempt + remaining)%nat.
Proof.
  induction remaining as [|r IH]; intros attempt; simpl; [lia|].
  destruct (poll_reply svc attempt); simpl; try lia;
    try (specialize (IH (S attempt)); lia).
  destruct (String.length token <? 100)%nat; simpl; lia.
Qed.

Lemma service_history_bounded fuel env tid tl key :
  Forall bounded_wait (history (solve_captcha_with_service fuel env tid tl key)).
Proof.
  unfold solve_captcha_with_service.
  destruct (get_manual_captcha_flag tid tl) as [flag tl'].
  destruct flag; [repeat constructor|].
  destruct (negb (Py.truthy key)); [repeat constructor|].
  destruct (service_raises (service env)); [repeat constructor|].
  destruct (balance (service env)) as [b|];
    [destruct (below_minimum b); [repeat constructor|]|];
    destruct (solve_recaptcha_v2_with_2captcha (service env) key);
    repeat constructor.
Qed.

Lemma fallback_events fuel env :
  snd (manual_fallback fuel env) =
  if fallback_reaches_wait env then [ManualWait None] else [].
Proof.
  unfold manual_fallback, fallback_reaches_wait.
  destruct (recaptcha_iframe_found env); [|reflexivity].
  destruct (checkbox_border_visible env) as [[]|]; try reflexivity.
  destruct (checkbox_click_ok env); reflexivity.
Qed.

Lemma resolve_history fuel env tid tl key use_service :
  exists service_events fallback,
    history (resolve_captcha fuel env tid tl key use_service)
    = (service_events ++ fallback)%list /\
    Forall bounded_wait service_events /\
    (fallback = [] \/ fallback = [ManualWait None] /\ fallback_reaches_wait env = true).
Proof.
  unfold resolve_captcha.
  destruct (negb (captcha_detected env)).
  { exists [], []. simpl. auto. }
  assert (Hfb : forall tl0 hist, Forall bounded_wait hist ->
    exists service_events fallback,
      history (let '(r, evs) := manual_fallback fuel env in
               mkOutcome r tl0 (hist ++ evs)%list)
      = (service_events ++ fallback)%list /\
      Forall bounded_wait service_events /\
      (fallback = [] \/ fallback = [ManualWait None] /\ fallback_reaches_wait env = true)).
  { intros tl0 hist Hh. pose proof (fallback_events fuel env) as E.
    destruct (manual_fallback fuel env) as [r evs]. simpl in *.
    exists hist, evs. repeat split; auto.
    destruct (fallback_reaches_wait env); auto. }
  destruct key as [key|]; [|apply Hfb; constructor].
  destruct (use_service && Py.truthy key); [|apply Hfb; constructor].
  pose proof (service_history_bounded fuel env tid tl key) as Hs.
  destruct (returned (solve_captcha_with_service fuel env tid tl key)) as [[]|].
  - eexists _, []. rewrite app_nil_r. auto.
  - apply Hfb. exact Hs.
  - eexists _, []. rewrite app_nil_r. auto.
Qed.

Lemma service_wait_is_manual fuel env tid tl key timeout :
  In (ManualWait timeout) (history (solve_captcha_with_service fuel env tid tl key)) ->
  returned (solve_captcha_with_service fuel env tid tl key)
  = solve_captcha_manually fuel (human_in_service env) (Some 300).
Proof.
  unfold solve_captcha_with_service.
  destruct (get_manual_captcha_flag tid tl) as [flag tl'].
  destruct flag; [reflexivity|].
  destruct (negb (Py.truthy key)); [reflexivity|].
  destruct (service_raises (service env)); [reflexivity|].
  destruct (balance (service env)) as [b|];
    [destruct (below_minimum b); [reflexivity|]|];
    destruct (solve_recaptcha_v2_with_2captcha (service env) key);
    try reflexivity; simpl; intros [H|[]]; discriminate H.
Qed.

Lemma fallback_wait_is_unbounded fuel env :
  fallback_reaches_wait env = true ->
  manual_fallback fuel env
  = (solve_captcha_manually fuel (human_in_fallback env) None, [ManualWait None]).
Proof.
  unfold fallback_reaches_wait, manual_fallback.
  destruct (recaptcha_iframe_found env); [|discriminate].
  destruct (checkbox_border_visible env) as [[]|]; try discriminate.
  destruct (checkbox_click_ok env); [reflexivity|discriminate].
Qed.

(** C4 (amended).  Within one call of resolve_captcha: every manual wait
    started inside solve_captcha_with_service is
    solve_captcha_manually(page, timeout=300), whether or not an automated
    attempt came before it, and such a wait returns within 152 polls; the
    manual fallback at the end of resolve_captcha is
    solve_captcha_manually(page) without a timeout: it is the only such
    wait, it comes last, and it is reached whenever the checkbox can be
    clicked, also after the service path (automated attempt and bounded
    wait) has failed; without a timeout the wait never returns while the
    checkbox stays unchecked; the polling of the 2captcha service makes at
    most 60 requests. *)
Theorem manual_wait_timeouts (fuel : nat) (env : CaptchaEnv) (tid : nat)
    (thread_local : gmap nat bool) (key : string) (api_key : option string)
    (use_service : bool) (h : Human) :
  let o := solve_captcha_with_service fuel env tid thread_local key in
  Forall bounded_wait (history o) /\
  (forall timeout, In (ManualWait timeout) (history o) ->
     returned o = solve_captcha_manually fuel (human_in_service env) (Some 300)) /\
  (exists service_events fallback,
      history (resolve_captcha fuel env tid thread_local api_key use_service)
      = (service_events ++ fallback)%list /\
      Forall bounded_wait service_events /\
      (fallback = [] \/
       fallback = [ManualWait None] /\ fallback_reaches_wait env = true)) /\
  (fallback_reaches_wait env = true ->
   manual_fallback fuel env
   = (solve_captcha_manually fuel (human_in_fallback env) None,
      [ManualWait None])) /\
  ((forall k, 2000 * Z.of_nat k <= elapsed_ms h k) ->
   exists r, solve_captcha_manually 152 h (Some 300) = Some r) /\
  ((forall k, checkbox_checked h k = false) ->
   forall n, solve_captcha_manually n h None = None) /\
  (snd (poll_solution max_attempts 0 (service env)) <= 60)%nat.
Proof.
  cbv zeta.
  split; [apply service_history_bounded|].
  split; [apply service_wait_is_manual|].
  split; [apply resolve_history|].
  split; [apply fallback_wait_is_unbounded|].
  split; [|split].
  - intros Hclock. unfold solve_captcha_manually.
    apply (manual_bounded_returns h 300 Hclock 151 0 152); lia.
  - intros Hn n. apply manual_unbounded_never_returns. exact Hn.
  - apply (poll_solution_bound (service env) max_attempts 0%nat).
Qed.

Lemma manual_wait_timeouts_witness :
  (exists r, solve_captcha_manually 152 nobody (Some 300) = Some r) /\
  solve_captcha_manually 1000 nobody None = None.
Proof.
  destruct (manual_wait_timeouts 200 captcha_unsolved 0 ∅ api_key_32
              (Some api_key_32) true nobody) as (_ & _ & _ & _ & Hb & Hu & _).
  split.
  - apply Hb. intros k. simpl. lia.
  - apply Hu. intros k. reflexivity.
Defined.

(** C4, as stated, fails: the service accepts the job and reports it
    unsolvable (an automated attempt was made), the 300-second manual wait
    times out, and resolve_captcha then clicks the checkbox and waits with
    no timeout: after 200 polls it is still waiting. *)
Lemma unbounded_wait_after_automated_attempt :
  let o := resolve_captcha 200 captcha_unsolved 0 ∅ (Some api_key_32) true in
  solve_recaptcha_v2_with_2captcha service_unsolvable api_key_32 = false /\
  solve_captcha_manually 200 nobody (Some 300) = Some false /\
  history o = [AutomatedAttempt; ManualWait (Some 300); ManualWait None] /\
  returned o = None.
Proof. cbv zeta. repeat split. Qed.

(** With config.py as shipped (no API key) every captcha goes straight to
    the manual fallback, which waits without a timeout. *)
Lemma shipped_config_waits_without_timeout :
  let api_key := if Config.USE_CAPTCHA_SERVICE
                 then Some Config.CAPTCHA_API_KEY else None in
  history (resolve_captcha 200 captcha_unsolved 0 ∅ api_key
             Config.USE_CAPTCHA_SERVICE) = [ManualWait None].
Proof. reflexivity. Qed.

Lemma get_flag_after tid (tl : gmap nat bool) :
  snd (get_manual_captcha_flag tid tl) !! tid
  = Some (fst (get_manual_captcha_flag tid tl)).
Proof.
  unfold get_manual_captcha_flag. destruct (tl !! tid) eqn:E; simpl; auto.
  apply lookup_insert_eq.
Qed.

Lemma get_flag_other tid tid' (tl : gmap nat bool) :
  tid' <> tid -> snd (get_manual_captcha_flag tid tl) !! tid' = tl !! tid'.
Proof.
  intros Hne. unfold get_manual_captcha_flag. destruct (tl !! tid); simpl; auto.
  now apply lookup_insert_ne.
Qed.

Lemma get_flag_true tid (tl : gmap nat bool) :
  tl !! tid = Some true -> get_manual_captcha_flag tid tl = (true, tl).
Proof. intros H. unfold get_manual_captcha_flag. now rewrite H. Qed.

Lemma service_other fuel env tid tid' (tl : gmap nat bool) key :
  tid' <> tid ->
  thread_local_after (solve_captcha_with_service fuel env tid tl key) !! tid'
  = tl !! tid'.
Proof.
  intros Hne. unfold solve_captcha_with_service.
  pose proof (get_flag_other tid tid' tl Hne) as E.
  destruct (get_manual_captcha_flag tid tl) as [flag tl']. simpl in E.
  assert (Hset : set_manual_captcha_flag tid true tl' !! tid' = tl !! tid').
  { unfold set_manual_captcha_flag. now rewrite lookup_insert_ne. }
  destruct flag; [exact E|].
  destruct (negb (Py.truthy key)); [exact E|].
  destruct (service_raises (service env)); [exact Hset|].
  destruct (balance (service env)) as [b|];
    [destruct (below_minimum b); [exact Hset|]|];
    destruct (solve_recaptcha_v2_with_2captcha (service env) key); auto.
Qed.

Lemma service_sticky fuel env tid (tl : gmap nat bool) key :
  tl !! tid = Some true ->
  thread_local_after (solve_captcha_with_service fuel env tid tl key) !! tid
  = Some true.
Proof.
  intros H. unfold solve_captcha_with_service. now rewrite (get_flag_true _ _ H).
Qed.

Lemma service_sets_flag fuel env tid (tl : gmap nat bool) key :
  tl !! tid <> Some true -> Py.truthy key = true ->
  automated_fails (service env) key = true ->
  thread_local_after (solve_captcha_with_service fuel env tid tl key) !! tid
  = Some true.
Proof.
  intros Hf Hk Ha. unfold solve_captcha_with_service.
  pose proof (get_flag_after tid tl) as E.
  destruct (get_manual_captcha_flag tid tl) as [flag tl'] eqn:G. simpl in E.
  assert (Hset : set_manual_captcha_flag tid true tl' !! tid = Some true)
    by apply lookup_insert_eq.
  destruct flag; [exact E|]. rewrite Hk. simpl negb. cbv iota.
  unfold automated_fails in Ha.
  destruct (service_raises (service env)); [exact Hset|].
  destruct (balance (service env)) as [b|];
    [destruct (below_minimum b); [exact Hset|]|];
    simpl in Ha; destruct (solve_recaptcha_v2_with_2captcha (service env) key);
    simpl in Ha; try discriminate; exact Hset.
Qed.

Lemma resolve_after fuel env tid (tl : gmap nat bool) key use_service :
  thread_local_after (resolve_captcha fuel env tid tl key use_service) = tl \/
  exists k, thread_local_after (resolve_captcha fuel env tid tl key use_service)
            = thread_local_after (solve_captcha_with_service fuel env tid tl k).
Proof.
  unfold resolve_captcha.
  destruct (negb (captcha_detected env)); [now left|].
  destruct (manual_fallback fuel env) as [r evs].
  destruct key as [k|]; [|now left].
  destruct (use_service && Py.truthy k); [|now left].
  right. exists k.
  destruct (returned (solve_captcha_with_service fuel env tid tl k)) as [[]|];
    reflexivity.
Qed.

Lemma resolve_other fuel env tid tid' (tl : gmap nat bool) key use_service :
  tid' <> tid ->
  thread_local_after (resolve_captcha fuel env tid tl key use_service) !! tid'
  = tl !! tid'.
Proof.
  intros Hne.
  destruct (resolve_after fuel env tid tl key use_service) as [->|[k ->]]; auto.
  now apply service_other.
Qed.

Lemma resolve_sticky fuel env tid (tl : gmap nat bool) key use_service :
  tl !! tid = Some true ->
  thread_local_after (resolve_captcha fuel env tid tl key use_service) !! tid
  = Some true.
Proof.
  intros H.
  destruct (resolve_after fuel env tid tl key use_service) as [->|[k ->]]; auto.
  now apply service_sticky.
Qed.

Lemma run_task_other fuel tid tid' : forall task (tl : gmap nat bool),
  tid' <> tid -> snd (run_task fuel tid task tl) !! tid' = tl !! tid'.
Proof.
  induction task as [|c task IH]; intros tl Hne; simpl; auto.
  specialize (IH (thread_local_after
    (resolve_captcha fuel (call_env c) tid tl (call_api_key c) (call_use_service c))) Hne).
  destruct (run_task fuel tid task _) as [flags tl']. simpl in *.
  rewrite IH. now apply resolve_other.
Qed.

Lemma run_task_sticky fuel tid : forall task (tl : gmap nat bool),
  tl !! tid = Some true ->
  snd (run_task fuel tid task tl) !! tid = Some true /\
  Forall (fun flag => flag = true) (fst (run_task fuel tid task tl)).
Proof.
  induction task as [|c task IH]; intros tl H; simpl; auto.
  specialize (IH _ (resolve_sticky fuel (call_env c) tid tl (call_api_key c)
                      (call_use_service c) H)).
  destruct (run_task fuel tid task _) as [flags tl']. simpl in *.
  destruct IH as [IH1 IH2]. split; auto. constructor; auto.
  now rewrite (get_flag_true _ _ H).
Qed.

Lemma run_tasks_fresh fuel : forall schedule (tl : gmap nat bool),
  NoDup (map fst schedule) ->
  (forall tid, tid ∈ map fst schedule -> tl !! tid = None) ->
  Forall (fun flag => flag = false) (fst (run_tasks fuel schedule tl)).
Proof.
  induction schedule as [|[tid task] schedule IH]; intros tl Hnd Hfresh; simpl;
    [constructor|].
  apply NoDup_cons in Hnd as [Hnotin Hnd]. simpl in Hnotin.
  pose proof (run_task_other fuel tid) as Hother.
  destruct (run_task fuel tid task tl) as [fl tl1] eqn:E1.
  specialize (IH tl1 Hnd).
  destruct (run_tasks fuel schedule tl1) as [flags tl2]. simpl in *.
  constructor.
  - unfold get_manual_captcha_flag. rewrite Hfresh; [reflexivity|]. apply list_elem_of_here.
  - apply IH. intros tid' Hin.
    assert (tid' <> tid) by (intros ->; contradiction).
    specialize (Hother tid' task tl H). rewrite E1 in Hother. simpl in Hother.
    rewrite Hother. apply Hfresh. now apply list_elem_of_further.
Qed.

(** C3 (amended).  The flag belongs to the worker thread, not to the
    worker task.  On a thread that never wrote it the flag reads false;
    when the automated path fails (an exception, a balance below $0.003,
    or a failed solve) the flag of the calling thread becomes true; once
    true it stays true through every later resolve_captcha call and every
    later task on that thread; a task never changes the flag of another
    thread; and when every task runs on a thread of its own, every task
    starts with the flag false. *)
Theorem manual_flag_thread_scope (fuel : nat) (env : CaptchaEnv)
    (tid : nat) (thread_local : gmap nat bool) (key : string)
    (api_key : option string) (use_service : bool) :
  (thread_local !! tid = None ->
   fst (get_manual_captcha_flag tid thread_local) = false) /\
  (thread_local !! tid <> Some true -> Py.truthy key = true ->
   automated_fails (service env) key = true ->
   thread_local_after
     (solve_captcha_with_service fuel env tid thread_local key) !! tid
   = Some true) /\
  (thread_local !! tid = Some true ->
   thread_local_after
     (resolve_captcha fuel env tid thread_local api_key use_service) !! tid
   = Some true) /\
  (forall task, thread_local !! tid = Some true ->
   snd (run_task fuel tid task thread_local) !! tid = Some true /\
   Forall (fun flag => flag = true) (fst (run_task fuel tid task thread_local))) /\
  (forall tid' task, tid' <> tid ->
   snd (run_task fuel tid task thread_local) !! tid' = thread_local !! tid') /\
  (forall schedule, NoDup (map fst schedule) ->
   Forall (fun flag => flag = false) (fst (run_tasks fuel schedule ∅))).
Proof.
  split; [|split; [|split; [|split; [|split]]]].
  - intros H. unfold get_manual_captcha_flag. now rewrite H.
  - apply service_sets_flag.
  - apply resolve_sticky.
  - intros task H. now apply run_task_sticky.
  - intros tid' task H. now apply run_task_other.
  - intros schedule Hnd. apply run_tasks_fresh; auto.
Qed.


Lemma manual_flag_thread_scope_witness :
  thread_local_after
    (solve_captcha_with_service 200 captcha_unsolved 0 ∅ api_key_32) !! 0%nat
  = Some true /\
  Forall (fun flag => flag = false) (fst (run_tasks 200 two_thread_schedule ∅)).
Proof.
  destruct (manual_flag_thread_scope 200 captcha_unsolved 0 ∅ api_key_32
              (Some api_key_32) true) as (_ & Hset & _ & _ & _ & Hfresh).
  split.
  - apply Hset.
    + rewrite lookup_empty. discriminate.
    + reflexivity.
    + reflexivity.
  - apply Hfresh. simpl. apply NoDup_cons_2.
    + intros H. apply list_elem_of_singleton in H. discriminate H.
    + apply NoDup_singleton.
Defined.

(** C3, as stated, fails: with the pool capped at one worker both attorneys
    run on thread 0; the first one's automated solve fails, and the second
    attorney's Workflow starts with the flag already true. *)
Lemma flag_seen_by_next_attorney :
  num_workers 2 1 = 1%nat /\
  fits_pool (num_workers 2 1) one_thread_schedule = true /\
  fst (run_tasks 200 one_thread_schedule ∅) = [false; true].
Proof. repeat split. Qed.

End Captcha.

(** ** Export (result_exporter.py) *)
Section ExportedTable.
Import ResultExporter Examples.

Lemma columns_of_records (cs : list CaseRecord) :
  fold_left (fun keys d => fold_left add_key (map fst d) keys)
            (map to_dict cs) record_keys = record_keys.
Proof.
  induction cs as [|c cs IH]; [reflexivity|]. simpl map. simpl fold_left at 1.
  exact IH.
Qed.

Lemma frame_of_records c cs :
  DataFrame_of_records (map to_dict (c :: cs)) =
  mkDataFrame record_keys
    (map (fun c => map (fun col => dict_get col (to_dict c)) record_keys) (c :: cs)).
Proof.
  unfold DataFrame_of_records.
  change (fold_left _ (map to_dict (c :: cs)) [])
    with (fold_left (fun keys d => fold_left add_key (map fst d) keys)
            (map to_dict cs) record_keys).
  rewrite columns_of_records. now rewrite map_map.
Qed.

Lemma exported_table c cs :
  to_records
    (let df := rename column_titles (DataFrame_of_records (map to_dict (c :: cs))) in
     select (List.filter (fun col => has_key col (columns df)) column_order) df)
  = map exported_fields (c :: cs).
Proof.
  rewrite frame_of_records. cbv zeta. unfold rename, select, to_records.
  cbn [columns data]. rewrite !map_map. apply map_ext. intros r. reflexivity.
Qed.

(** C9 (amended).  Nothing is exported for an empty list.  For every
    non-empty list of N CaseRecords the table handed to the writer of the
    chosen format (csv, excel or json), read back cell by cell, has
    exactly N rows in the original order, and each row carries, under its
    column title, the unchanged value of the ten exported fields
    (attorney_name, case_number, file_date, judicial_officer, case_status,
    case_type, charge_description, bond_amount, disposition,
    sentencing_info).  attorney_first_name and attorney_last_name are not
    exported. *)
Theorem export_keeps_exported_fields (output_format : string)
    (results : list CaseRecord) :
  export_results output_format [] = None /\
  (results <> [] ->
   exists file,
     export_results output_format results = Some file /\
     reload file = map exported_fields results /\
     List.length (reload file) = List.length results).
Proof.
  split; [reflexivity|].
  intros Hne. destruct results as [|c cs]; [congruence|].
  pose proof (exported_table c cs) as E. cbv zeta in E.
  unfold export_results.
  destruct (String.eqb (Py.lower output_format) "csv");
    [|destruct (String.eqb (Py.lower output_format) "excel");
      [|destruct (String.eqb (Py.lower output_format) "json")]];
    eexists; (split; [reflexivity|]); cbn [reload]; rewrite E;
    (split; [reflexivity|apply length_map]).
Qed.

Lemma export_keeps_exported_fields_witness :
  exists file,
    export_results "json" [jane_case] = Some file /\
    reload file = [exported_fields jane_case] /\
    List.length (reload file) = 1%nat.
Proof.
  apply (proj2 (export_keeps_exported_fields "json" [jane_case])).
  discriminate.
Defined.

(** C9, as stated, fails: no format writes the attorney_first_name and
    attorney_last_name of a record, so no reload gives them back; and for
    the empty list no file is produced at all. *)
Lemma export_drops_attorney_names :
  round_trips "json" [jane_case] = false /\
  round_trips "csv" [jane_case] = false /\
  round_trips "excel" [jane_case] = false /\
  match export_results "json" [jane_case] with
  | Some file =>
      match reload file with
      | [r] => dict_get "Attorney First Name" r = None /\
               dict_get "attorney_first_name" r = None /\
               attorney_first_name jane_case = "JANE"
      | _ => False
      end
  | None => False
  end /\
  export_results "json" [] = None.
Proof. repeat split. Qed.

End ExportedTable.

(* ===================================================================== *)
(** * Further properties of the code *)
(* ===================================================================== *)

(** ** Python strings *)
Section PyFacts.
Import Py.

Lemma lstrip_list_head l :
  lstrip_list l = [] \/
  exists c l', lstrip_list l = c :: l' /\ is_space c = false.
Proof.
  induction l as [|c l IH]; [now left|]. simpl.
  destruct (is_space c) eqn:E; [exact IH|]. right. eauto.
Qed.

Lemma lstrip_list_keeps c l : is_space c = false -> lstrip_list (c :: l) = c :: l.
Proof. intros E. simpl. now rewrite E. Qed.

Lemma lstrip_list_snoc l c :
  is_space c = false -> lstrip_list (l ++ [c]) = (lstrip_list l ++ [c])%list.
Proof.
  intros E. induction l as [|a l IH]; simpl; [now rewrite E|].
  destruct (is_space a); [exact IH|reflexivity].
Qed.

Lemma lstrip_list_blank l :
  lstrip_list l = [] <-> forallb is_space l = true.
Proof.
  induction l as [|c l IH]; simpl; [tauto|].
  destruct (is_space c); simpl; [exact IH|]. split; discriminate.
Qed.

Lemma trimmed_rev l : trimmed l -> trimmed (rev l).
Proof.
  destruct l as [|c l]; [easy|]. intros [Hc Hl].
  destruct (rev (c :: l)) as [|d m] eqn:E.
  { apply (f_equal (@List.length _)) in E. rewrite length_rev in E. discriminate. }
  simpl.
  assert (Hd : d = List.last (c :: l) c).
  { rewrite <- (rev_involutive (c :: l)), E. simpl rev.
    now rewrite last_last. }
  assert (Hm : List.last (d :: m) d = c).
  { rewrite <- E. simpl rev. now rewrite last_last. }
  simpl in Hm. rewrite Hm, Hd. split; assumption.
Qed.

Lemma lstrip_list_trimmed l : trimmed l -> lstrip_list l = l.
Proof. destruct l as [|c l]; [easy|]. intros [Hc _]. now apply lstrip_list_keeps. Qed.

Lemma strip_list_of_trimmed l : trimmed l -> strip_list l = l.
Proof.
  intros H. unfold strip_list. rewrite (lstrip_list_trimmed l H).
  rewrite (lstrip_list_trimmed (rev l) (trimmed_rev l H)). apply rev_involutive.
Qed.

Lemma lstrip_list_suffix l : exists blanks,
  l = (blanks ++ lstrip_list l)%list /\ forallb is_space blanks = true.
Proof.
  induction l as [|c l (b & E & H)]; [now exists []|]. simpl.
  destruct (is_space c) eqn:Ec.
  - exists (c :: b). simpl. rewrite Ec, H. split; [now f_equal|reflexivity].
  - now exists [].
Qed.

Lemma last_app_cons {A} (l : list A) x m d :
  List.last (l ++ x :: m) d = List.last (x :: m) d.
Proof.
  induction l as [|a l IH]; [reflexivity|].
  rewrite <- IH. simpl. now destruct l.
Qed.

Lemma strip_list_trimmed l : trimmed (strip_list l).
Proof.
  unfold strip_list.
  destruct (lstrip_list_head l) as [E|(c & m & E & Hc)].
  { rewrite E. simpl. exact I. }
  rewrite E.
  destruct (lstrip_list_head (rev (c :: m))) as [E2|(d & n & E2 & Hd)].
  { rewrite E2. exact I. }
  rewrite E2. apply trimmed_rev. simpl. split; [exact Hd|].
  destruct (lstrip_list_suffix (rev (c :: m))) as (b & Eb & _).
  rewrite E2 in Eb.
  assert (Hl : List.last (rev (c :: m)) d = c).
  { simpl rev. now rewrite last_last. }
  rewrite Eb, last_app_cons in Hl. simpl in Hl. now rewrite Hl.
Qed.

Lemma strip_list_idem l : strip_list (strip_list l) = strip_list l.
Proof. apply strip_list_of_trimmed, strip_list_trimmed. Qed.

Lemma strip_idem s : strip (strip s) = strip s.
Proof.
  unfold strip. rewrite list_ascii_of_string_of_list_ascii.
  now rewrite strip_list_idem.
Qed.

Lemma forallb_rev {A} (f : A -> bool) l : forallb f (rev l) = forallb f l.
Proof.
  induction l as [|a l IH]; [reflexivity|]. simpl.
  rewrite forallb_app, IH. simpl. rewrite andb_true_r. apply andb_comm.
Qed.

Lemma strip_list_blank l : strip_list l = [] <-> forallb is_space l = true.
Proof.
  unfold strip_list. split.
  - intros H. apply (f_equal (@rev _)) in H. rewrite rev_involutive in H. simpl in H.
    apply lstrip_list_blank in H. rewrite forallb_rev in H.
    destruct (lstrip_list_suffix l) as (b & E & Hb).
    rewrite E, forallb_app, Hb, H. reflexivity.
  - intros H. apply lstrip_list_blank in H. rewrite H. reflexivity.
Qed.

Lemma forallb_fails {A} (f : A -> bool) l :
  forallb f l = false -> exists x, In x l /\ f x = false.
Proof.
  induction l as [|a l IH]; simpl; [discriminate|].
  destruct (f a) eqn:E; simpl.
  - intros H. destruct (IH H) as (x & Hin & Hx). eauto.
  - eauto.
Qed.

Lemma truthy_of_list l : truthy (string_of_list_ascii l) = true <-> l <> [].
Proof. destruct l; simpl; split; congruence. Qed.

Lemma strip_truthy s :
  truthy (strip s) = true <->
  exists c, In c (list_ascii_of_string s) /\ is_space c = false.
Proof.
  unfold strip. rewrite truthy_of_list. split.
  - intros H. destruct (forallb is_space (list_ascii_of_string s)) eqn:E.
    + now apply strip_list_blank in E.
    + apply forallb_fails in E. destruct E as (c & Hin & Hc). eauto.
  - intros (c & Hin & Hc) H. apply strip_list_blank in H.
    rewrite forallb_forall in H. rewrite (H c Hin) in Hc. discriminate.
Qed.

Lemma strip_of_trimmed s :
  trimmed (list_ascii_of_string s) -> strip s = s.
Proof.
  intros H. unfold strip. rewrite (strip_list_of_trimmed _ H).
  apply string_of_list_ascii_of_string.
Qed.

End PyFacts.

(** ** Field bookkeeping (case_data_extractor.py) *)
Section FieldErrors.
Import CaseDataExtractor Examples.

Lemma dollar_truthy text : is_dollar_amount text = true -> Py.truthy text = true.
Proof.
  unfold is_dollar_amount. destruct text; [discriminate|reflexivity].
Qed.

Lemma scan_amount_divs_stripped divs amount :
  scan_amount_divs divs = Some amount -> exists raw, amount = Py.strip raw.
Proof.
  induction divs as [|d divs IH]; [discriminate|]. simpl.
  destruct (_ && _); [|exact IH]. intros [= <-]. eauto.
Qed.

(** What [extract_bond_amount] can return. *)
Lemma extract_bond_amount_shape dom :
  (is_dollar_amount (extract_bond_amount dom) = true /\
   exists raw, extract_bond_amount dom = Py.strip raw) \/
  extract_bond_amount dom = "Hold Without Bond" \/
  extract_bond_amount dom = "No bond amount set".
Proof.
  assert (Hview : forall v,
    (is_dollar_amount (extract_from_view v) = true /\
     exists raw, extract_from_view v = Py.strip raw) \/
    extract_from_view v = "Hold Without Bond" \/
    extract_from_view v = "No bond amount set").
  { intros v. unfold extract_from_view.
    destruct (hold_without_bond v); [now right; left|].
    destruct (amount_divs v) as [divs|]; [|now right; right].
    destruct (scan_amount_divs divs) as [amount|] eqn:E; [|now right; right].
    left. split; [exact (scan_amount_divs_dollar _ _ E)|].
    exact (scan_amount_divs_stripped _ _ E). }
  unfold extract_bond_amount.
  destruct (scan_gridcells (gridcells dom)) as [[text row]|] eqn:E.
  - destruct (scan_gridcells_sound _ _ _ E) as (raw & _ & -> & Hd & _).
    left. eauto.
  - destruct (settings dom) as [| |s]; [now right; right|now right; right|].
    unfold extract_bond_settings.
    destruct (hold_without_bond (view_now s)); [now right; left|].
    destruct (grid s) as [| |icons]; [now right; right|now right; right|].
    destruct icons as [|icon icons]; [now right; right|].
    destruct (Py.contains _ _); [|apply Hview].
    destruct (view_expanded s) as [v|]; [apply Hview|now right; right].
Qed.

Lemma extract_bond_amount_kept dom :
  Py.truthy (extract_bond_amount dom) = true /\
  Py.strip (extract_bond_amount dom) = extract_bond_amount dom.
Proof.
  destruct (extract_bond_amount_shape dom) as [[Hd [raw E]]|[E|E]].
  - split; [now apply dollar_truthy|]. rewrite E. apply strip_idem.
  - rewrite E. now vm_compute.
  - rewrite E. now vm_compute.
Qed.

Lemma record_required_field label v errs :
  record_field_extraction label v errs true
  = (Py.strip v, (errs ++ missing_field label v)%list).
Proof.
  unfold record_field_extraction, ensure_field_extracted, missing_field.
  destruct (Py.truthy (Py.strip v)) eqn:E; [now rewrite app_nil_r|].
  destruct (Py.strip v); [reflexivity|discriminate].
Qed.

(** X1: the missing-field list of [extract_case_details] names exactly the
    required fields found blank, in the order of the page: Case Number,
    File Date, Judicial Officer, Case Status, Charge Description.  Case
    Type, Disposition and Sentencing are optional and Bond Amount always
    has a value, so none of them is ever listed; a page that does not load
    is reported with no missing field at all. *)
Theorem field_errors_name_blank_required_fields (page : DetailPage) :
  snd (fst (extract_case_details_log page)) =
  if load_idle page then
    (missing_field "Case Number" (found_case_number page)
     ++ missing_field "File Date" (found_file_date page)
     ++ missing_field "Judicial Officer" (found_judicial_officer page)
     ++ missing_field "Case Status" (found_case_status page)
     ++ missing_field "Charge Description" (found_charge_description page))%list
  else [].
Proof.
  unfold extract_case_details_log.
  destruct (load_idle page); [|reflexivity]. simpl negb. cbv iota.
  repeat (rewrite ?record_required_field, ?record_optional_field; cbv beta iota).
  destruct (disposition_values _ _) as [[dv sv] attempted].
  repeat (rewrite ?record_optional_field; cbv beta iota). simpl.
  destruct (extract_bond_amount_kept (bond_dom page)) as [Ht Hs].
  unfold missing_field at 6. rewrite Hs, Ht, app_nil_r.
  now rewrite <- !app_assoc.
Qed.

(** X2: the bond amount of a case is a dollar figure (it starts with "$"
    and holds a digit), "Hold Without Bond" or "No bond amount set": it is
    never blank, it carries no blank at either end, and it is stored in the
    record as extracted. *)
Theorem bond_amount_is_figure_or_marker (page : DetailPage) :
  let amount := extract_bond_amount (bond_dom page) in
  (is_dollar_amount amount = true \/ amount = "Hold Without Bond"
   \/ amount = "No bond amount set") /\
  amount <> "" /\ Py.strip amount = amount /\
  (load_idle page = true -> bond_amount (extract_case_details page) = amount).
Proof.
  cbv zeta. destruct (extract_bond_amount_kept (bond_dom page)) as [Ht Hs].
  split; [|split; [|split]].
  - destruct (extract_bond_amount_shape (bond_dom page)) as [[H _]|[H|H]]; tauto.
  - intros E. rewrite E in Ht. discriminate.
  - exact Hs.
  - intros Hl. unfold extract_case_details.
    destruct (extract_case_details_log_loaded page Hl) as [errs ->]. cbv zeta.
    destruct (disposition_values _ _) as [[dv sv] attempted]. simpl. exact Hs.
Qed.

End FieldErrors.

(** ** The results list and the way back (scraper.py) *)
Section ResultsList.
Import Scraper Examples.

Lemma first_matching_rows_spec answers :
  (first_matching_rows answers = [] /\
   forall elements row, In (Some elements) answers -> In row elements ->
     matches_case_type row = false) \/
  exists before elements after,
    answers = (before ++ Some elements :: after)%list /\
    first_matching_rows answers = List.filter matches_case_type elements /\
    first_matching_rows answers <> [] /\
    forall elements' row, In (Some elements') before -> In row elements' ->
      matches_case_type row = false.
Proof.
  induction answers as [|[elements|] answers IH].
  - left. split; [reflexivity|]. now intros ? ? [].
  - simpl. fold matches_case_type.
    destruct (List.filter matches_case_type elements) as [|r rs] eqn:E.
    + assert (Hno : forall row, In row elements -> matches_case_type row = false).
      { intros row Hin. destruct (matches_case_type row) eqn:Em; [|reflexivity].
        assert (H : In row (List.filter matches_case_type elements))
          by (apply filter_In; auto).
        rewrite E in H. destruct H. }
      destruct IH as [[E0 H0]|(before & els & after & -> & Ef & Hne & Hb)].
      * left. split; [exact E0|]. intros els row [[= <-]|Hin]; eauto.
      * right. exists (Some elements :: before), els, after.
        repeat split; try assumption. intros els' row [[= <-]|Hin]; eauto.
    + right. exists [], elements, answers. rewrite E.
      repeat split; [discriminate|]. now intros ? ? [].
  - simpl. destruct IH as [[E0 H0]|(before & els & after & -> & Ef & Hne & Hb)].
    + left. split; [exact E0|]. intros els row [[=]|Hin]; eauto.
    + right. exists (None :: before), els, after.
      repeat split; try assumption. intros els' row [[=]|Hin]; eauto.
Qed.

(** X3: the rows [get_case_type_rows] returns all come from one selector,
    the first of the four whose elements include a row containing the case
    type ("felony", case-insensitively): they are exactly the matching rows
    of that selector, in page order.  The result is empty only when no
    selector shows a matching row. *)
Theorem case_type_rows_come_from_first_matching_selector (p : Portal) (s : State) :
  let rows := get_case_type_rows p s in
  let shown selector := rows_by_selector p (step s) selector in
  case_type_filter = "felony" /\
  (rows = [] <->
   forall selector elements row,
     In selector row_selectors -> shown selector = Some elements ->
     In row elements -> matches_case_type row = false) /\
  (rows <> [] ->
   exists before selector after elements,
     row_selectors = (before ++ selector :: after)%list /\
     shown selector = Some elements /\
     rows = List.filter matches_case_type elements /\
     forall earlier elements' row,
       In earlier before -> shown earlier = Some elements' ->
       In row elements' -> matches_case_type row = false).
Proof.
  cbv zeta. split; [reflexivity|]. unfold get_case_type_rows.
  destruct (first_matching_rows_spec (map (rows_by_selector p (step s)) row_selectors))
    as [[E0 H0]|(before & els & after & Ea & Ef & Hne & Hb)].
  - rewrite E0. split; [|congruence]. split; [|reflexivity].
    intros _ selector elements row Hs Hshown Hin.
    apply (H0 elements row); [|exact Hin]. rewrite <- Hshown. now apply in_map.
  - split.
    + split; [intros E; now rewrite E in Hne|]. intros Hall. exfalso.
      destruct (List.filter matches_case_type els) as [|r rs] eqn:E;
        [rewrite Ef in Hne; now apply Hne|].
      assert (Hr : In r (List.filter matches_case_type els)) by (rewrite E; now left).
      apply filter_In in Hr. destruct Hr as [Hr Hm].
      assert (Hin : In (Some els) (map (rows_by_selector p (step s)) row_selectors)).
      { rewrite Ea. apply in_or_app. right. now left. }
      apply in_map_iff in Hin. destruct Hin as (selector & Hshown & Hsel).
      rewrite (Hall selector els r Hsel Hshown Hr) in Hm. discriminate.
    + intros _. apply map_eq_app in Ea.
      destruct Ea as (l1 & l2 & El & E1 & E2).
      destruct l2 as [|selector l2]; [discriminate|].
      injection E2 as Hsel E2. exists l1, selector, l2, els.
      split; [exact El|]. split; [exact Hsel|]. split; [exact Ef|].
      intros earlier els' row Hin Hshown. apply Hb. rewrite <- E1, <- Hshown.
      now apply in_map.
Qed.

(** X4: [navigate_back_to_search_results] returns True exactly when one of
    its four 'Search Results' selectors finds a tab that is present,
    visible and clickable and whose click is followed by the
    'Party Search Results' heading within 1200 ms; a selector that fails
    any of these tests, or raises, is passed over. *)
Theorem navigation_back_succeeds_iff_a_tab_confirms (p : Portal) (s : State) :
  navigate_back_to_search_results p s = true <->
  exists selector,
    In selector search_tab_selectors /\
    tab_confirms (search_tab p (step s) selector) = true.
Proof.
  unfold navigate_back_to_search_results. rewrite try_search_tabs_confirms.
  rewrite existsb_exists. split.
  - intros (tab & Hin & Hc). apply in_map_iff in Hin.
    destruct Hin as (selector & <- & Hsel). eauto.
  - intros (selector & Hsel & Hc). exists (search_tab p (step s) selector).
    split; [now apply in_map|exact Hc].
Qed.

End ResultsList.

(** ** Session recovery and the row loop (scraper.py) *)
Section Recovery.
Import CaseDataExtractor Scraper Examples.

Lemma cleanup_step s : step (cleanup s) = step s.
Proof. unfold cleanup. now destruct (has_session s). Qed.

Lemma cleanup_store s : live_sessions (cleanup (store_session s)) = live_sessions s.
Proof. reflexivity. Qed.

Lemma cleanup_abandon s :
  has_session s = false ->
  live_sessions (cleanup (abandon_session s)) = S (live_sessions s).
Proof. intros H. unfold cleanup. simpl. now rewrite H. Qed.

(** Once Playwright runs, no attempt gets a browser. *)
Lemma recovery_attempts_blocked p : forall remaining attempt s,
  (0 < live_sessions s)%nat ->
  recovery_attempts remaining attempt p s = (false, s).
Proof.
  induction remaining as [|n IH]; intros attempt s Hs; [reflexivity|].
  simpl. unfold setup_browser.
  apply Nat.ltb_lt in Hs. rewrite Hs. apply IH. now apply Nat.ltb_lt.
Qed.

(** While nothing runs, the attempts go on until one gets Playwright
    started; that attempt decides. *)
Lemma recovery_attempts_first p : forall remaining attempt s,
  live_sessions s = 0%nat ->
  recovery_attempts remaining attempt p s
  = match first_start (map (recovery p (step s)) (seq attempt remaining)) with
    | None => (false, s)
    | Some a =>
        match att_setup_browser a with
        | SetupReturns => (attempt_succeeds a, store_session s)
        | SetupFailsToStart => (false, s)
        | SetupFailsLater => (false, abandon_session s)
        end
    end.
Proof.
  induction remaining as [|n IH]; intros attempt s Hs; [reflexivity|].
  change (seq attempt (S n)) with (attempt :: seq (S attempt) n).
  simpl map. unfold first_start. simpl List.find. fold (first_start).
  simpl recovery_attempts. unfold setup_browser. rewrite Hs. simpl.
  destruct (att_setup_browser (recovery p (step s) attempt)) eqn:E; simpl.
  - rewrite E. destruct (attempt_succeeds _); [reflexivity|].
    apply recovery_attempts_blocked. simpl. lia.
  - exact (IH (S attempt) s Hs).
  - rewrite E. apply recovery_attempts_blocked. simpl. lia.
Qed.

(** X5: [recover_session] closes the session the scraper holds and then
    tries up to six times to start a browser.  As Playwright runs once per
    thread, the first attempt in which [setup_browser] gets Playwright
    started is the last one that can: if [setup_browser] returns there, the
    scraper holds that session, recovery succeeds exactly when the steps of
    that attempt do, and a later [cleanup] leaves nothing running; if
    [setup_browser] raises there after the start, recovery fails, the
    scraper holds nothing, and what was started stays after [cleanup].
    When no attempt gets that far, recovery fails and nothing runs. *)
Theorem recover_session_starts_playwright_once (p : Portal) (s : State) :
  one_session s ->
  let attempts := map (recovery p (step s)) (seq 0 6) in
  let after := snd (recover_session p s) in
  match first_start attempts with
  | None =>
      fst (recover_session p s) = false /\
      has_session after = false /\ live_sessions after = 0%nat
  | Some a =>
      live_sessions after = 1%nat /\
      match att_setup_browser a with
      | SetupReturns =>
          fst (recover_session p s) = attempt_succeeds a /\
          has_session after = true /\
          live_sessions (cleanup after) = 0%nat
      | _ =>
          fst (recover_session p s) = false /\
          has_session after = false /\
          live_sessions (cleanup after) = 1%nat
      end
  end.
Proof.
  intros Hone. cbv zeta. unfold recover_session.
  pose proof (cleanup_one_session s Hone) as Hlive.
  pose proof (cleanup_closed s) as Hclosed.
  rewrite (recovery_attempts_first p 6 0 (cleanup s) Hlive), cleanup_step.
  destruct (first_start _) as [a|] eqn:Ef; [|now repeat split].
  assert (Ha : att_setup_browser a <> SetupFailsToStart).
  { unfold first_start in Ef. apply find_some in Ef as [_ Ha].
    intros E. rewrite E in Ha. discriminate. }
  destruct (att_setup_browser a); [| contradiction |];
    cbn [fst snd live_sessions has_session abandon_session store_session].
  - rewrite Hlive, cleanup_store. now repeat split.
  - rewrite Hlive, Hclosed, (cleanup_abandon _ Hclosed), Hlive. now repeat split.
Qed.

Lemma recover_session_starts_playwright_once_witness :
  fst (recover_session portal_lost_navigation (init jane)) = true /\
  live_sessions (cleanup (snd (recover_session portal_lost_navigation (init jane))))
  = 0%nat /\
  fst (recover_session portal_setup_fails (init jane)) = false /\
  live_sessions (cleanup (snd (recover_session portal_setup_fails (init jane))))
  = 1%nat.
Proof.
  pose proof (recover_session_starts_playwright_once portal_lost_navigation
                (init jane) eq_refl) as H1.
  pose proof (recover_session_starts_playwright_once portal_setup_fails
                (init jane) eq_refl) as H2.
  cbv zeta in H1, H2.
  change (first_start (map (recovery portal_lost_navigation (step (init jane)))
                           (seq 0 6)))
    with (Some attempt_ok) in H1.
  change (first_start (map (recovery portal_setup_fails (step (init jane)))
                           (seq 0 6)))
    with (Some attempt_setup_fails) in H2.
  simpl att_setup_browser in H1, H2.
  destruct H1 as (_ & H1a & _ & H1b). destruct H2 as (_ & H2a & _ & H2b).
  split; [exact H1a|]. split; [exact H1b|]. split; [exact H2a|exact H2b].
Defined.

End Recovery.

(** ** The tally and the end of the row loop (scraper.py) *)
Section RowLoopEnds.
Import CaseDataExtractor Scraper Examples.

Lemma same_tally_refl s : same_tally s s.
Proof. now repeat split. Qed.

Lemma same_tally_trans s1 s2 s3 :
  same_tally s1 s2 -> same_tally s2 s3 -> same_tally s1 s3.
Proof. intros (?&?&?) (?&?&?). repeat split; congruence. Qed.

Lemma same_tally_tallied s s' : same_tally s s' -> tallied s -> tallied s'.
Proof. intros (Hr & Hc & Ha) [H1 H2]. unfold tallied. now rewrite Hr, Hc, Ha. Qed.

Lemma cleanup_tally s : same_tally s (cleanup s).
Proof. unfold cleanup. destruct (has_session s); now repeat split. Qed.

Lemma setup_browser_tally outcome s :
  same_tally s (snd (setup_browser outcome s)).
Proof.
  unfold setup_browser. destruct (0 <? live_sessions s)%nat; [now repeat split|].
  destruct outcome; now repeat split.
Qed.

Lemma recovery_attempts_tally p : forall remaining attempt s,
  same_tally s (snd (recovery_attempts remaining attempt p s)).
Proof.
  induction remaining as [|n IH]; intros attempt s; [apply same_tally_refl|].
  simpl.
  pose proof (setup_browser_tally
                (att_setup_browser (recovery p (step s) attempt)) s) as Hs.
  destruct (setup_browser _ s) as [[] s1]; simpl in Hs.
  - destruct (attempt_succeeds _); simpl; [exact Hs|].
    apply (same_tally_trans _ s1); [exact Hs|apply IH].
  - apply (same_tally_trans _ s1); [exact Hs|apply IH].
Qed.

Lemma recover_session_tally p s : same_tally s (snd (recover_session p s)).
Proof.
  unfold recover_session.
  apply (same_tally_trans _ (cleanup s)); [apply cleanup_tally|apply recovery_attempts_tally].
Qed.

Lemma on_exception_tally rec p s rows i :
  same_tally s (fst (on_exception rec p s rows i)).
Proof.
  unfold on_exception. destruct rec; [|apply same_tally_refl].
  pose proof (recover_session_tally p s) as H.
  destruct (recover_session p s) as [[] s']; exact H.
Qed.

Lemma leave_case_tally rec p s i :
  same_tally s (fst (leave_case rec p s i)).
Proof.
  unfold leave_case. destruct (navigate_back_to_search_results p s);
    [apply same_tally_refl|].
  destruct rec; [|apply same_tally_refl].
  pose proof (recover_session_tally p s) as H.
  destruct (recover_session p s) as [[] s']; exact H.
Qed.

Lemma process_case_details_tallied s page :
  tallied s -> tallied (process_case_details s page).
Proof.
  intros [Hc Ha]. unfold process_case_details.
  destruct (check_for_charge_keyword _ _); [|now split].
  split; simpl.
  - rewrite length_app, Hc. simpl. lia.
  - apply Forall_app. split; [exact Ha|].
    constructor; [apply (conj eq_refl (conj eq_refl eq_refl))|constructor].
Qed.

Lemma harvest_row_tallied p s row s' :
  harvest_row p s row = Harvested s' -> tallied s -> tallied s'.
Proof.
  unfold harvest_row. destruct (_ && _); [discriminate|].
  destruct (open_case p (step s) row) as [page|]; [|discriminate].
  intros [= <-] H.
  assert (H1 : tallied (process_case_details
                          (log_opened s (get_case_number_from_row row)) page)).
  { apply process_case_details_tallied. exact H. }
  destruct (Py.truthy _); exact H1.
Qed.

Lemma loop_body_tallied rec p s rows i row :
  tallied s -> tallied (fst (loop_body rec p s rows i row)).
Proof.
  intros H. unfold loop_body.
  destruct (row_fault p (step s)) as [[]|].
  - exact (same_tally_tallied _ _ (on_exception_tally _ _ _ _ _) H).
  - destruct (harvest_row p s row) as [| |s1] eqn:E; try exact H.
    apply (same_tally_tallied s1); [apply on_exception_tally|].
    exact (harvest_row_tallied _ _ _ _ E H).
  - destruct (harvest_row p s row) as [| |s1] eqn:E; try exact H.
    apply (same_tally_tallied s1); [apply leave_case_tally|].
    exact (harvest_row_tallied _ _ _ _ E H).
Qed.

Lemma row_loop_tallied rec p : forall fuel s rows i,
  tallied s -> tallied (fst (row_loop fuel rec p s rows i)).
Proof.
  induction fuel as [|fuel IH]; intros s rows i H; simpl;
    destruct (rows !! i) as [row|]; try exact H.
  pose proof (loop_body_tallied rec p s rows i row H) as H1.
  destruct (loop_body rec p s rows i row) as [s1 [rows' i'|]]; simpl in *.
  - apply IH. exact H1.
  - exact H1.
Qed.

Lemma loop_body_attorney rec p s rows i row :
  attorney (fst (loop_body rec p s rows i row)) = attorney s.
Proof.
  destruct (loop_body_cases rec p s rows i row) as [H|(s1 & E & H)].
  - apply H.
  - destruct H as (_ & _ & _ & ->).
    now destruct (harvest_row_spec _ _ _ _ E) as (page & _ & _ & _ & _ & _ & ->).
Qed.

Lemma row_loop_attorney rec p : forall fuel s rows i,
  attorney (fst (row_loop fuel rec p s rows i)) = attorney s.
Proof.
  induction fuel as [|fuel IH]; intros s rows i; simpl;
    destruct (rows !! i) as [row|]; try reflexivity.
  pose proof (loop_body_attorney rec p s rows i row) as H1.
  destruct (loop_body rec p s rows i row) as [s1 [rows' i'|]]; simpl in *.
  - now rewrite IH.
  - exact H1.
Qed.

(** X6: however the row loop runs (rows skipped, links that do not open,
    exceptions, sessions recovered, fuel running out), the scraper's
    counter equals the number of collected results and every result
    carries the name fields of the scraper's own attorney, the full name
    being the first and the last name joined by one space. *)
Theorem results_are_counted_and_attributed
    (fuel : nat) (recovery_enabled : bool) (p : Portal) (a : Attorney)
    (rows : list Row) :
  let final := fst (process_felony_cases fuel recovery_enabled p (init a) rows) in
  attorney final = a /\
  current_attorney_case_count final = List.length (results final) /\
  Forall (fun c => attorney_name c = first_name a +:+ " " +:+ last_name a /\
                   attorney_first_name c = first_name a /\
                   attorney_last_name c = last_name a) (results final).
Proof.
  cbv zeta. unfold process_felony_cases.
  assert (H0 : tallied (init a)) by (split; [reflexivity|constructor]).
  pose proof (row_loop_tallied recovery_enabled p fuel (init a) rows 0%nat H0) as [Hc Ha].
  pose proof (row_loop_attorney recovery_enabled p fuel (init a) rows 0%nat) as Hat.
  simpl attorney at 2 in Hat. rewrite Hat in Ha. now repeat split.
Qed.

Lemma leave_case_control rec p s i :
  snd (leave_case rec p s i) = Return \/
  exists s' i', snd (leave_case rec p s i) = Continue (get_case_type_rows p s') i'.
Proof.
  unfold leave_case. destruct (navigate_back_to_search_results p s); [right; eauto|].
  destruct rec; [|now left].
  destruct (recover_session p s) as [[] s']; [right; eauto|now left].
Qed.

Lemma fewer_unprocessed (known processed : gset string) n :
  n ∈ known -> n ∉ processed ->
  (size (known ∖ ({[n]} ∪ processed)) < size (known ∖ processed))%nat.
Proof.
  intros Hk Hp. apply subset_size. split; [set_solver|].
  intros H. assert (Hn : n ∈ known ∖ processed) by set_solver.
  apply H in Hn. set_solver.
Qed.

Lemma row_loop_ends rec p (known : gset string) (bound : nat) :
  (forall t, row_fault p t = None) ->
  (forall s', listed known bound (get_case_type_rows p s')) ->
  forall fuel s rows i,
    listed known bound rows ->
    (size (known ∖ processed_case_numbers s) * (bound + 1) + (bound - i) < fuel)%nat ->
    snd (row_loop fuel rec p s rows i) = true.
Proof.
  intros Hfault Hlisted.
  induction fuel as [|fuel IH]; intros s rows i Hrows Hm; [lia|].
  simpl. destruct (rows !! i) as [row|] eqn:Ei; [|reflexivity].
  assert (Hi : (i < bound)%nat).
  { apply lookup_lt_Some in Ei. destruct Hrows as [Hlen _]. lia. }
  assert (Hrow : In row rows).
  { apply list_elem_of_In. now apply list_elem_of_lookup_2 in Ei. }
  unfold loop_body. rewrite Hfault.
  destruct (harvest_row p s row) as [| |s1] eqn:Eh.
  - apply IH; [exact Hrows|]. simpl. lia.
  - apply IH; [exact Hrows|]. simpl. lia.
  - destruct (harvest_row_spec _ _ _ _ Eh) as (page & _ & Hnew & _ & Hp & _).
    destruct Hrows as [Hlen Hnum]. destruct (Hnum row Hrow) as [Hne Hk].
    destruct Hnew as [Hnew|Hnew]; [contradiction|].
    apply truthy_nonempty in Hne. rewrite Hne in Hp.
    pose proof (leave_case_same rec p s1 i) as (_ & Hsame & _).
    destruct (leave_case_control rec p s1 i) as [Ec|(s' & i' & Ec)];
      destruct (leave_case rec p s1 i) as [s2 c]; simpl in Ec, Hsame; subst c;
      [reflexivity|].
    apply IH; [apply Hlisted|]. simpl. rewrite Hsame, Hp.
    pose proof (fewer_unprocessed known (processed_case_numbers s) _ Hk Hnew).
    nia.
Qed.

(** X7: when no exception interrupts the loop body and every row of the
    results list shows a readable case number, the row loop ends, with or
    without session recovery and however often the way back fails: with
    at most [bound] rows per list and case numbers out of a set [known],
    it makes fewer than [(size known + 1) * (bound + 1)] iterations.  Each
    case opened joins the processed set, and between two such cases the
    index only moves forward. *)
Theorem row_loop_ends_when_case_numbers_are_readable
    (recovery_enabled : bool) (p : Portal) (known : gset string) (bound : nat)
    (s : State) (rows : list Row) (fuel : nat) :
  (forall t, row_fault p t = None) ->
  listed known bound rows ->
  (forall s', listed known bound (get_case_type_rows p s')) ->
  ((size known + 1) * (bound + 1) <= fuel)%nat ->
  snd (process_felony_cases fuel recovery_enabled p s rows) = true.
Proof.
  intros Hfault Hrows Hlisted Hfuel. unfold process_felony_cases.
  apply (row_loop_ends recovery_enabled p known bound Hfault Hlisted); [exact Hrows|].
  assert (size (known ∖ processed_case_numbers s) <= size known)%nat
    by (apply subseteq_size; set_solver).
  nia.
Qed.

Lemma row_loop_ends_when_case_numbers_are_readable_witness :
  snd (process_felony_cases 9 true portal_two_cases (init jane) two_rows) = true.
Proof.
  assert (Hl : listed {["F-2500001"; "F-2500002"]} 2 two_rows).
  { split; [simpl; lia|].
    intros row [<-|[<-|[]]]; (split; [discriminate|]);
      apply (bool_decide_eq_true_1 (_ ∈ _)); reflexivity. }
  apply (row_loop_ends_when_case_numbers_are_readable true portal_two_cases
           {["F-2500001"; "F-2500002"]} 2 (init jane) two_rows 9).
  - reflexivity.
  - exact Hl.
  - intros s'. exact Hl.
  - vm_compute. lia.
Defined.

End RowLoopEnds.

(** ** What the coordinator hands to the exporter (scraper_pool.py) *)
Section Aggregate.
Import Scraper ScraperPool Examples.

Lemma gather_sound fuel rec min attorneys pool : forall order returns,
  gather fuel rec min attorneys pool order = Some returns ->
  forall w, In w returns ->
  exists idx entry,
    In idx order /\ attorneys !! idx = Some entry /\
    scrape_attorney_worker fuel rec min entry idx (jobs pool idx) = Some w.
Proof.
  induction order as [|i order IH]; intros returns Hg w Hw.
  - injection Hg as <-. destruct Hw.
  - simpl in Hg. destruct (attorneys !! i) as [e|] eqn:Ei.
    + destruct (scrape_attorney_worker fuel rec min e i (jobs pool i)) as [w0|] eqn:Ew;
        [|discriminate].
      destruct (gather fuel rec min attorneys pool order) as [ws|] eqn:Eg;
        [|discriminate].
      injection Hg as <-. destruct Hw as [<-|Hw].
      * exists i, e. split; [now left|]. now split.
      * destruct (IH ws eq_refl w Hw) as (idx & entry & Hin & Hl & Hs).
        exists idx, entry. split; [now right|]. now split.
    + destruct (IH returns Hg w Hw) as (idx & entry & Hin & Hl & Hs).
      exists idx, entry. split; [now right|]. now split.
Qed.

Lemma run_results_attributed fuel rec min st p a :
  Forall (attributed a) (results (snd (run fuel rec min st p (init a)))).
Proof.
  unfold run.
  repeat match goal with
         | |- context [if negb ?b then _ else _] => destruct b; simpl; try constructor
         end.
  assert (H0 : tallied (init a)) by (split; [reflexivity|constructor]).
  pose proof (row_loop_tallied rec p fuel (init a)
                (get_case_type_rows p (init a)) 0%nat H0) as [_ Ha].
  pose proof (row_loop_attorney rec p fuel (init a)
                (get_case_type_rows p (init a)) 0%nat) as Hat.
  unfold process_felony_cases.
  destruct (row_loop _ _ _ _ _ _) as [s1 fin]. simpl in *. now rewrite <- Hat.
Qed.

Lemma worker_results_attributed fuel rec min entry idx job w c :
  scrape_attorney_worker fuel rec min entry idx job = Some w ->
  In c (w_results w) ->
  exists first last,
    entry = Dict (Some first) (Some last) /\ first <> "" /\ last <> "" /\
    attributed (mkAttorney first last) c.
Proof.
  unfold scrape_attorney_worker.
  destruct entry as [|[first|] [last|]]; try (intros [= <-] []).
  destruct (Py.truthy first) eqn:Ef; [|intros [= <-] []].
  destruct (Py.truthy last) eqn:El; [|intros [= <-] []]. simpl.
  destruct (browser_starts job); simpl; [|intros [= <-] []].
  pose proof (run_results_attributed fuel rec min (startup job) (portal job)
                (mkAttorney first last)) as H.
  destruct (run _ _ _ _ _ _) as [[ret entered] s1]. simpl in H.
  destruct ret as [[]|]; [| |discriminate]; intros [= <-]; [|intros []].
  simpl. intros Hc. exists first, last. split; [reflexivity|].
  split; [now apply truthy_nonempty|]. split; [now apply truthy_nonempty|].
  rewrite Forall_forall in H. apply H. now apply list_elem_of_In.
Qed.

Lemma collected_records_attributed fuel rec min attorneys pool records errors :
  run_all_attorneys_concurrent_log fuel rec min attorneys pool
  = Some (Returned records, errors) ->
  forall c, In c records ->
  exists idx first last,
    attorneys !! idx = Some (Dict (Some first) (Some last)) /\
    first <> "" /\ last <> "" /\ attributed (mkAttorney first last) c.
Proof.
  unfold run_all_attorneys_concurrent_log. intros Hrun c Hc.
  destruct attorneys as [|a attorneys]; [injection Hrun as <- _; destruct Hc|].
  destruct (pool_breaks pool); [injection Hrun as <- _; destruct Hc|].
  destruct (gather _ _ _ _ _ _) as [returns|] eqn:Hg; [|discriminate].
  pose proof (collect_concat returns) as Hcc.
  destruct (collect returns) as [shared errs]. simpl in Hcc.
  injection Hrun as <- _. rewrite Hcc in Hc. apply in_concat in Hc.
  destruct Hc as (rs & Hrs & Hc). apply in_map_iff in Hrs.
  destruct Hrs as (w & <- & Hw).
  destruct (gather_sound _ _ _ _ _ _ _ Hg w Hw) as (idx & entry & _ & Hl & Hs).
  destruct (worker_results_attributed _ _ _ _ _ _ _ _ Hs Hc)
    as (first & last & -> & Hf & Hla & Ha).
  exists idx, first, last. split; [exact Hl|]. split; [exact Hf|].
  split; [exact Hla|exact Ha].
Qed.

(** X8: every record the coordinator returns was collected for one of the
    attorneys of the list: an entry that is a dict with a non-empty
    first_name and last_name, whose two names the record carries, with the
    full name made of both joined by a space.  No record is attributed to
    an attorney that was not asked for, in whatever order the workers
    finish. *)
Theorem every_record_names_a_listed_attorney
    (fuel : nat) (recovery_enabled : bool) (min : Z)
    (attorneys : list AttorneyEntry) (pool : Pool)
    (records : list CaseRecord) (errors : list (nat * Exn)) :
  run_all_attorneys_concurrent_log fuel recovery_enabled min attorneys pool
  = Some (Returned records, errors) ->
  forall c, In c records ->
  exists idx first last,
    attorneys !! idx = Some (Dict (Some first) (Some last)) /\
    first <> "" /\ last <> "" /\
    attorney_name c = first +:+ " " +:+ last /\
    attorney_first_name c = first /\ attorney_last_name c = last.
Proof.
  intros Hrun c Hc.
  destruct (collected_records_attributed _ _ _ _ _ _ _ Hrun c Hc)
    as (idx & first & last & Hl & Hf & Hla & Ha).
  exists idx, first, last. split; [exact Hl|]. split; [exact Hf|].
  split; [exact Hla|exact Ha].
Qed.

Lemma every_record_names_a_listed_attorney_witness :
  let c := with_attorney jane (CaseDataExtractor.extract_case_details (page_of "F-2500001")) in
  exists idx first last,
    [jane_entry] !! idx = Some (Dict (Some first) (Some last)) /\
    first <> "" /\ last <> "" /\
    attorney_name c = first +:+ " " +:+ last /\
    attorney_first_name c = first /\ attorney_last_name c = last.
Proof.
  cbv zeta.
  apply (every_record_names_a_listed_attorney 5 true Config.MINIMUM_CASE_YEAR
           [jane_entry] pool_one_case
           [with_attorney jane (CaseDataExtractor.extract_case_details (page_of "F-2500001"))]
           []).
  - now vm_compute.
  - now left.
Defined.

End Aggregate.

(** ** When a captcha counts as solved (captcha_handler.py) *)
Section CaptchaSolved.
Import CaptchaHandler Examples.

Lemma manual_from_true h timeout : forall fuel k0,
  solve_captcha_manually_from fuel h timeout k0 = Some true <->
  exists k, (k0 <= k < k0 + fuel)%nat /\ checkbox_checked h k = true /\
    forall j, (k0 <= j < k)%nat ->
      checkbox_checked h j = false /\ expired timeout (elapsed_ms h j) = false.
Proof.
  induction fuel as [|fuel IH]; intros k0; simpl.
  - split; [discriminate|]. intros (k & Hk & _). lia.
  - destruct (checkbox_checked h k0) eqn:Ec.
    + split; [intros _|reflexivity]. exists k0. split; [lia|]. split; [exact Ec|].
      intros j Hj. lia.
    + assert (Hnext : expired timeout (elapsed_ms h k0) = false ->
        (solve_captcha_manually_from fuel h timeout (S k0) = Some true <->
         exists k, (k0 <= k < k0 + S fuel)%nat /\ checkbox_checked h k = true /\
          forall j, (k0 <= j < k)%nat ->
            checkbox_checked h j = false /\ expired timeout (elapsed_ms h j) = false)).
      { intros Hx. rewrite IH. split.
        - intros (k & Hk & Hck & Hb). exists k. split; [lia|]. split; [exact Hck|].
          intros j Hj. destruct (decide (j = k0)) as [->|Hne]; [now split|].
          apply Hb. lia.
        - intros (k & Hk & Hck & Hb).
          assert (k <> k0) by (intros ->; congruence).
          exists k. split; [lia|]. split; [exact Hck|]. intros j Hj. apply Hb. lia. }
      destruct timeout as [t|]; [|exact (Hnext eq_refl)].
      destruct (t * 1000 <? elapsed_ms h k0) eqn:Et; [|exact (Hnext Et)].
      split; [discriminate|]. intros (k & Hk & Hck & Hb).
      assert (k <> k0) by (intros ->; congruence).
      destruct (Hb k0) as [_ Hx]; [lia|]. simpl in Hx. congruence.
Qed.

Lemma manual_from_false h timeout : forall fuel k0,
  solve_captcha_manually_from fuel h timeout k0 = Some false <->
  exists k, (k0 <= k < k0 + fuel)%nat /\
    checkbox_checked h k = false /\ expired timeout (elapsed_ms h k) = true /\
    forall j, (k0 <= j < k)%nat ->
      checkbox_checked h j = false /\ expired timeout (elapsed_ms h j) = false.
Proof.
  induction fuel as [|fuel IH]; intros k0; simpl.
  - split; [discriminate|]. intros (k & Hk & _). lia.
  - destruct (checkbox_checked h k0) eqn:Ec.
    + split; [discriminate|]. intros (k & Hk & Hck & Hx & Hb).
      destruct (decide (k = k0)) as [->|Hne]; [congruence|].
      destruct (Hb k0) as [Hc0 _]; [lia|]. congruence.
    + assert (Hnext : expired timeout (elapsed_ms h k0) = false ->
        (solve_captcha_manually_from fuel h timeout (S k0) = Some false <->
         exists k, (k0 <= k < k0 + S fuel)%nat /\
           checkbox_checked h k = false /\ expired timeout (elapsed_ms h k) = true /\
           forall j, (k0 <= j < k)%nat ->
             checkbox_checked h j = false /\ expired timeout (elapsed_ms h j) = false)).
      { intros Hx. rewrite IH. split.
        - intros (k & Hk & Hck & Hxk & Hb). exists k. split; [lia|].
          split; [exact Hck|]. split; [exact Hxk|].
          intros j Hj. destruct (decide (j = k0)) as [->|Hne]; [now split|].
          apply Hb. lia.
        - intros (k & Hk & Hck & Hxk & Hb).
          assert (k <> k0) by (intros ->; congruence).
          exists k. split; [lia|]. split; [exact Hck|]. split; [exact Hxk|].
          intros j Hj. apply Hb. lia. }
      destruct timeout as [t|]; [|exact (Hnext eq_refl)].
      destruct (t * 1000 <? elapsed_ms h k0) eqn:Et; [|exact (Hnext Et)].
      split; [intros _|reflexivity]. exists k0. split; [lia|].
      split; [exact Ec|]. split; [exact Et|]. intros j Hj. lia.
Qed.

(** X9: [solve_captcha_manually] reports success exactly when some look
    at the checkbox finds it ticked and no earlier look came after the
    timeout; it reports failure exactly when the timeout is found expired
    at a look that did not find the box ticked.  In one iteration the box
    is looked at first, so a box ticked at the moment the time runs out
    still counts; and a call without timeout never reports failure. *)
Theorem manual_solve_outcome (fuel : nat) (h : Human) (timeout : option Z) :
  (solve_captcha_manually fuel h timeout = Some true <->
   exists k, (k < fuel)%nat /\ checkbox_checked h k = true /\
     forall j, (j < k)%nat ->
       checkbox_checked h j = false /\ expired timeout (elapsed_ms h j) = false) /\
  (solve_captcha_manually fuel h timeout = Some false <->
   exists k, (k < fuel)%nat /\
     checkbox_checked h k = false /\ expired timeout (elapsed_ms h k) = true /\
     forall j, (j < k)%nat ->
       checkbox_checked h j = false /\ expired timeout (elapsed_ms h j) = false) /\
  solve_captcha_manually fuel h None <> Some false.
Proof.
  unfold solve_captcha_manually. split; [|split].
  - rewrite manual_from_true. split; intros (k & Hk & Hc & Hb); exists k;
      (split; [lia|]); (split; [exact Hc|]); intros j Hj; apply Hb; lia.
  - rewrite manual_from_false. split; intros (k & Hk & Hc & Hx & Hb); exists k;
      (split; [lia|]); (split; [exact Hc|]); (split; [exact Hx|]);
      intros j Hj; apply Hb; lia.
  - intros H. apply manual_from_false in H. destruct H as (k & _ & _ & Hx & _).
    discriminate.
Qed.






Lemma manual_true_ticked fuel h timeout :
  solve_captcha_manually fuel h timeout = Some true ->
  exists k, checkbox_checked h k = true.
Proof.
  intros H. apply manual_from_true in H. destruct H as (k & _ & Hc & _). eauto.
Qed.

Lemma service_true fuel env tid tl key :
  returned (solve_captcha_with_service fuel env tid tl key) = Some true ->
  solve_recaptcha_v2_with_2captcha (service env) key = true \/
  exists k, checkbox_checked (human_in_service env) k = true.
Proof.
  unfold solve_captcha_with_service.
  destruct (get_manual_captcha_flag tid tl) as [flag tl'].
  destruct flag; [intros H; right; exact (manual_true_ticked _ _ _ H)|].
  destruct (negb (Py.truthy key)); [intros H; right; exact (manual_true_ticked _ _ _ H)|].
  destruct (service_raises (service env));
    [intros H; right; exact (manual_true_ticked _ _ _ H)|].
  destruct (balance (service env)) as [b|];
    [destruct (below_minimum b);
       [intros H; right; exact (manual_true_ticked _ _ _ H)|]|];
    (destruct (solve_recaptcha_v2_with_2captcha (service env) key);
       [now left|intros H; right; exact (manual_true_ticked _ _ _ H)]).
Qed.

Lemma fallback_true fuel env :
  fst (manual_fallback fuel env) = Some true ->
  fallback_reaches_wait env = true /\
  exists k, checkbox_checked (human_in_fallback env) k = true.
Proof.
  unfold manual_fallback, fallback_reaches_wait.
  destruct (recaptcha_iframe_found env); [|discriminate].
  destruct (checkbox_border_visible env) as [[]|]; try discriminate.
  destruct (checkbox_click_ok env); [|discriminate]. simpl.
  intros H. split; [reflexivity|exact (manual_true_ticked _ _ _ H)].
Qed.

(** X11: [resolve_captcha] never reports a captcha as solved that was not:
    it returns True only when no captcha was detected, or the 2captcha
    solve succeeded, or a person was seen to tick the checkbox, either
    during the wait of [solve_captcha_with_service] or during the manual
    fallback, which must then have found and clicked the checkbox. *)
Theorem captcha_reported_solved_only_if_solved
    (fuel : nat) (env : CaptchaEnv) (tid : nat) (thread_local : gmap nat bool)
    (api_key : option string) (use_service : bool) :
  returned (resolve_captcha fuel env tid thread_local api_key use_service)
  = Some true ->
  captcha_detected env = false \/
  (exists key, api_key = Some key /\ use_service = true /\
     (solve_recaptcha_v2_with_2captcha (service env) key = true \/
      exists k, checkbox_checked (human_in_service env) k = true)) \/
  (fallback_reaches_wait env = true /\
   exists k, checkbox_checked (human_in_fallback env) k = true).
Proof.
  unfold resolve_captcha.
  destruct (captcha_detected env); [|now left]. simpl negb. cbv iota.
  assert (Hf : forall tl (f : list Event -> list Event),
    returned (let '(r, evs) := manual_fallback fuel env in
              mkOutcome r tl (f evs)) = Some true ->
    fallback_reaches_wait env = true /\
    exists k, checkbox_checked (human_in_fallback env) k = true).
  { intros tl f H. apply (fallback_true fuel).
    destruct (manual_fallback fuel env) as [r evs]. exact H. }
  destruct api_key as [key|];
    [|intros H; right; right; exact (Hf _ (fun evs => evs) H)].
  destruct use_service; simpl;
    [|intros H; right; right; exact (Hf _ (fun evs => evs) H)].
  destruct (Py.truthy key);
    [|intros H; right; right; exact (Hf _ (fun evs => evs) H)].
  destruct (returned (solve_captcha_with_service fuel env tid thread_local key))
    as [[]|] eqn:E.
  - intros _. right; left. exists key. split; [reflexivity|]. split; [reflexivity|].
    exact (service_true _ _ _ _ _ E).
  - intros H; right; right.
    exact (Hf _ (fun evs => (history (solve_captcha_with_service fuel env tid
                                        thread_local key) ++ evs)%list) H).
  - rewrite E. discriminate.
Qed.

Lemma captcha_reported_solved_only_if_solved_witness :
  captcha_detected captcha_solved_by_hand = false \/
  (exists key, None = Some key /\ false = true /\
     (solve_recaptcha_v2_with_2captcha (service captcha_solved_by_hand) key = true \/
      exists k, checkbox_checked (human_in_service captcha_solved_by_hand) k = true)) \/
  (fallback_reaches_wait captcha_solved_by_hand = true /\
   exists k, checkbox_checked (human_in_fallback captcha_solved_by_hand) k = true).
Proof.
  apply (captcha_reported_solved_only_if_solved 10 captcha_solved_by_hand 0 ∅ None false).
  reflexivity.
Defined.

End CaptchaSolved.

(** ** Whitespace and lines (case_data_extractor.py) *)
Section SectionText.
Import Py CaseDataExtractor Examples.

Lemma list_ascii_of_string_app a b :
  list_ascii_of_string (a +:+ b)
  = (list_ascii_of_string a ++ list_ascii_of_string b)%list.
Proof. induction a as [|c a IH]; simpl; [reflexivity|now rewrite IH]. Qed.

Lemma split_from_words : forall l word,
  Forall (fun c => is_space c = false) word ->
  Forall (fun w => w <> [] /\ Forall (fun c => is_space c = false) w)
         (split_from word l).
Proof.
  induction l as [|c l IH]; intros word Hw; simpl.
  - destruct word; constructor; [split; [discriminate|exact Hw]|constructor].
  - destruct (is_space c) eqn:Ec.
    + destruct word as [|a word]; [apply IH; constructor|].
      constructor; [split; [discriminate|exact Hw]|apply IH; constructor].
    + apply IH. apply Forall_app. split; [exact Hw|]. now constructor.
Qed.

Lemma split_from_run : forall w word l,
  Forall (fun c => is_space c = false) w ->
  split_from word (w ++ l) = split_from (word ++ w) l.
Proof.
  induction w as [|c w IH]; intros word l Hw; simpl; [now rewrite app_nil_r|].
  inversion Hw as [|? ? Hc Hw']; subst. rewrite Hc.
  rewrite IH by exact Hw'. now rewrite <- app_assoc.
Qed.

(** The words joined by single spaces, as a list of characters. *)
Lemma join_words (ws : list (list ascii)) :
  list_ascii_of_string (join " " (map string_of_list_ascii ws))
  = match ws with
    | [] => []
    | w :: ws' =>
        (w ++ List.concat (map (fun v => " "%char :: v) ws'))%list
    end.
Proof.
  destruct ws as [|w ws]; [reflexivity|].
  revert w. induction ws as [|v ws IH]; intros w.
  - simpl. now rewrite list_ascii_of_string_of_list_ascii, app_nil_r.
  - change (join " " (map string_of_list_ascii (w :: v :: ws)))
      with (string_of_list_ascii w +:+ " " +:+ join " " (map string_of_list_ascii (v :: ws))).
    rewrite !list_ascii_of_string_app, IH, list_ascii_of_string_of_list_ascii.
    reflexivity.
Qed.

Lemma split_joined_words : forall ws w,
  Forall (fun w => w <> [] /\ Forall (fun c => is_space c = false) w) (w :: ws) ->
  split_from [] (w ++ List.concat (map (fun v => " "%char :: v) ws)) = w :: ws.
Proof.
  induction ws as [|v ws IH]; intros w Hw;
    inversion Hw as [|? ? [Hne Hc] Hws]; subst.
  - simpl. rewrite app_nil_r. rewrite <- (app_nil_r w) at 1.
    rewrite split_from_run by exact Hc. simpl. now destruct w.
  - rewrite split_from_run by exact Hc. simpl.
    destruct w as [|a w]; [congruence|]. f_equal. now apply IH.
Qed.

Lemma split_collapsed text : split (collapse_whitespace text) = split text.
Proof.
  unfold collapse_whitespace, split. rewrite join_words.
  pose proof (split_from_words (list_ascii_of_string text) [] (List.Forall_nil _)) as Hw.
  destruct (split_from [] (list_ascii_of_string text)) as [|w ws]; [reflexivity|].
  now rewrite split_joined_words.
Qed.

Lemma collapse_idem text :
  collapse_whitespace (collapse_whitespace text) = collapse_whitespace text.
Proof. unfold collapse_whitespace at 1. now rewrite split_collapsed. Qed.

Lemma collect_events_read rest : forall rs events,
  (List.length events < 4)%nat ->
  collect_events (map RowRead rs ++ rest) events
  = if (4 <=? List.length events + List.length (shown_events rs))%nat
    then Some (events ++ take (4 - List.length events) (shown_events rs))%list
    else collect_events rest (events ++ shown_events rs)%list.
Proof.
  induction rs as [|r rs IH]; intros events Hlen.
  - change (shown_events []) with (@nil string). cbn [map app List.length].
    rewrite Nat.add_0_r, app_nil_r.
    destruct (4 <=? List.length events)%nat eqn:E; [|reflexivity].
    apply Nat.leb_le in E. lia.
  - change (shown_events (r :: rs))
      with (if truthy (collapse_whitespace (event_text r))
            then collapse_whitespace (event_text r) :: shown_events rs
            else shown_events rs).
    cbn [map app collect_events].
    destruct (truthy (collapse_whitespace (event_text r))) eqn:Et.
    + rewrite length_app. cbn [List.length].
      destruct (4 <=? List.length events + 1)%nat eqn:E4.
      * apply Nat.leb_le in E4. assert (List.length events = 3%nat) as E3 by lia.
        rewrite E3. reflexivity.
      * apply Nat.leb_gt in E4.
        rewrite IH by (rewrite length_app; simpl; lia).
        rewrite length_app. cbn [List.length].
        replace (List.length events + 1 + List.length (shown_events rs))%nat
          with (List.length events + S (List.length (shown_events rs)))%nat by lia.
        destruct (4 <=? _)%nat.
        -- rewrite <- app_assoc. cbn [app].
           replace (4 - List.length events)%nat
             with (S (4 - (List.length events + 1)))%nat by lia.
           reflexivity.
        -- now rewrite <- app_assoc.
    + destruct (4 <=? List.length events)%nat eqn:E4;
        [apply Nat.leb_le in E4; lia|].
      rewrite IH by exact Hlen. reflexivity.
Qed.

Lemma shown_events_clean rs :
  Forall (fun e => e <> "" /\ collapse_whitespace e = e) (shown_events rs).
Proof.
  unfold shown_events. apply Forall_forall. intros e He.
  apply list_elem_of_In, filter_In in He. destruct He as [He Ht].
  apply in_map_iff in He. destruct He as (r & <- & _). split.
  - intros E. rewrite E in Ht. discriminate.
  - apply collapse_idem.
Qed.

(** X12: [extract_disposition] reads the rows of the first table selector
    that matches any and returns the first four non-blank events, each
    with its whitespace collapsed, joined by " | ".  Rows after the fourth
    event are never read; but when the driver fails at a row before four
    events are collected, the events read so far are dropped and the
    result is empty. *)
Theorem disposition_keeps_the_first_four_events
    (tables : string -> TableProbe) (rs : list EventRow)
    (rest : list EventRowProbe) :
  first_table (map tables table_selectors) = Some (map RowRead rs ++ rest)%list ->
  let events := shown_events rs in
  (rest = [] \/ (4 <= List.length events)%nat ->
   extract_disposition tables = join " | " (take 4 events)) /\
  ((List.length events < 4)%nat ->
   forall rest', rest = RowRaises :: rest' -> extract_disposition tables = "") /\
  Forall (fun e => e <> "" /\ collapse_whitespace e = e) events.
Proof.
  intros Ht events. unfold extract_disposition. rewrite Ht.
  pose proof (collect_events_read rest rs [] ltac:(simpl; lia)) as Hc.
  cbn [List.length app Nat.add Nat.sub] in Hc. fold events in Hc.
  split; [|split; [|apply shown_events_clean]].
  - intros Hr.
    destruct (map RowRead rs ++ rest)%list as [|row rows] eqn:Erows.
    { apply app_eq_nil in Erows. destruct Erows as [Ers _].
      destruct rs; [reflexivity|discriminate]. }
    rewrite Hc. destruct (4 <=? List.length events)%nat eqn:E4; [reflexivity|].
    apply Nat.leb_gt in E4. destruct Hr as [->|Hr]; [|lia].
    simpl. now rewrite firstn_all2 by lia.
  - intros Hlen rest' ->.
    destruct (map RowRead rs ++ RowRaises :: rest')%list as [|row rows] eqn:Erows;
      [reflexivity|].
    rewrite Hc. destruct (4 <=? List.length events)%nat eqn:E4;
      [apply Nat.leb_le in E4; lia|reflexivity].
Qed.

Lemma disposition_keeps_the_first_four_events_witness :
  extract_disposition grid_of_five
  = "CONVICTED - PLEA OF GUILTY | PROBATION REVOKED | SENTENCED | APPEAL FILED" /\
  extract_disposition grid_failing = "".
Proof.
  split.
  - destruct (disposition_keeps_the_first_four_events grid_of_five
                [ event_titled "CONVICTED -   PLEA OF GUILTY";
                  mkEventRow None (Some "  ") (Some "01/15/2025 Judgment");
                  event_titled "PROBATION REVOKED";
                  event_titled "SENTENCED";
                  event_titled "APPEAL FILED";
                  event_titled "MANDATE ISSUED" ] [] eq_refl) as (H & _).
    rewrite H by now left. reflexivity.
  - destruct (disposition_keeps_the_first_four_events grid_failing
                [event_titled "DISMISSED"] [RowRaises] eq_refl) as (_ & H & _).
    apply (H ltac:(vm_compute; lia) []). reflexivity.
Defined.

End SectionText.

(** ** Labelled values and the charge fallback (case_data_extractor.py) *)
Section Lines.
Import Py CaseDataExtractor Examples.

Lemma lstrip_list_incl l c : In c (lstrip_list l) -> In c l.
Proof.
  destruct (lstrip_list_suffix l) as (b & E & _). intros H.
  rewrite E. apply in_or_app. now right.
Qed.

Lemma strip_list_incl l c : In c (strip_list l) -> In c l.
Proof.
  unfold strip_list. intros H. apply in_rev in H.
  apply lstrip_list_incl in H. apply in_rev in H.
  now apply lstrip_list_incl in H.
Qed.

Lemma splitlines_from_no_break : forall l line after_cr,
  Forall (fun c => is_linebreak c = false) line ->
  Forall (Forall (fun c => is_linebreak c = false))
         (splitlines_from line after_cr l).
Proof.
  induction l as [|c l IH]; intros line after_cr Hl; simpl.
  - destruct line; constructor; [exact Hl|constructor].
  - destruct (after_cr && Ascii.eqb c "010"); [apply IH; constructor|].
    destruct (is_linebreak c) eqn:Ec.
    + constructor; [exact Hl|apply IH; constructor].
    + apply IH. apply Forall_app. split; [exact Hl|now constructor].
Qed.

Lemma linebreak_is_space c : is_space c = false -> is_linebreak c = false.
Proof.
  unfold is_space, is_linebreak. intros H.
  apply orb_false_iff in H. destruct H as [H1 H2].
  apply andb_false_iff in H1. apply andb_false_iff in H2.
  apply orb_false_iff. split; apply andb_false_iff.
  - destruct H1 as [H1|H1]; [apply Nat.leb_gt in H1; left; apply Nat.leb_gt; lia|
                             right; exact H1].
  - destruct H2 as [H2|H2]; [left; exact H2|
                             apply Nat.leb_gt in H2; right; apply Nat.leb_gt; lia].
Qed.

Lemma splitlines_from_covers c : forall l line after_cr,
  is_linebreak c = false -> (after_cr = true -> line = []) ->
  In c line \/ In c l ->
  exists L, In L (splitlines_from line after_cr l) /\ In c L.
Proof.
  intros l line after_cr Hc. revert line after_cr.
  induction l as [|a l IH]; intros line after_cr Hcr Hin; simpl.
  - destruct Hin as [Hin|[]]. destruct line; [destruct Hin|].
    eexists. split; [now left|exact Hin].
  - assert (Hne : is_linebreak a = true -> In c line \/ In c l).
    { intros Ha. destruct Hin as [Hin|[->|Hin]]; auto. congruence. }
    destruct (after_cr && Ascii.eqb a "010") eqn:Ecr.
    + apply andb_true_iff in Ecr. destruct Ecr as [Eaf Ea].
      apply Ascii.eqb_eq in Ea. subst a. rewrite (Hcr Eaf) in Hne.
      destruct (Hne eq_refl) as [[]|Hl].
      destruct (IH [] false (fun _ => eq_refl) (or_intror Hl)) as (L & HL & HcL).
      eauto.
    + destruct (is_linebreak a) eqn:Ea.
      * destruct (Hne eq_refl) as [Hl|Hl].
        -- exists line. split; [now left|exact Hl].
        -- destruct (IH [] (Ascii.eqb a "013") (fun _ => eq_refl) (or_intror Hl))
             as (L & HL & HcL).
           exists L. split; [now right|exact HcL].
      * apply IH; [discriminate|]. destruct Hin as [Hin|[->|Hin]].
        -- left. apply in_or_app. now left.
        -- left. apply in_or_app. right. now left.
        -- now right.
Qed.

Lemma normalize_section_lines_clean text :
  Forall clean_line (normalize_section_lines text).
Proof.
  unfold normalize_section_lines. destruct (negb (truthy text)); [constructor|].
  apply Forall_forall. intros line Hin. apply list_elem_of_In, in_map_iff in Hin.
  destruct Hin as (raw & <- & Hraw). apply filter_In in Hraw.
  destruct Hraw as [Hraw Ht]. split; [|split].
  - intros E. rewrite E in Ht. discriminate.
  - unfold strip. rewrite list_ascii_of_string_of_list_ascii. apply strip_list_trimmed.
  - unfold splitlines in Hraw. apply in_map_iff in Hraw.
    destruct Hraw as (L & <- & HL).
    pose proof (splitlines_from_no_break (list_ascii_of_string text) [] false
                  (List.Forall_nil _)) as Hnb.
    rewrite List.Forall_forall in Hnb. specialize (Hnb L HL).
    unfold strip. rewrite !list_ascii_of_string_of_list_ascii.
    rewrite List.Forall_forall in Hnb. apply List.Forall_forall.
    intros c Hc. apply Hnb. now apply strip_list_incl.
Qed.

Lemma normalize_section_lines_nonempty text c :
  In c (list_ascii_of_string text) -> is_space c = false ->
  normalize_section_lines text <> [].
Proof.
  intros Hin Hc. unfold normalize_section_lines.
  destruct text as [|a text]; [destruct Hin|]. cbn [truthy negb].
  destruct (splitlines_from_covers c (list_ascii_of_string (String a text)) [] false
              (linebreak_is_space c Hc) (fun H => eq_refl) (or_intror Hin))
    as (L & HL & HcL).
  assert (Hkept : In (string_of_list_ascii L)
            (List.filter (fun line => truthy (strip line))
                         (splitlines (String a text)))).
  { apply filter_In. split; [unfold splitlines; now apply in_map|].
    apply strip_truthy. exists c. rewrite list_ascii_of_string_of_list_ascii.
    now split. }
  intros E. apply map_eq_nil in E. rewrite E in Hkept. destruct Hkept.
Qed.

(** *** The matchers *)

Lemma give_back_first {A} (k : list ascii -> option A) j least s r :
  (least <= j)%nat -> k (drop j s) = Some r -> give_back j least s k = Some r.
Proof.
  intros Hl Hk. destruct j; simpl.
  - destruct least; [|lia]. simpl. now rewrite Hk.
  - destruct (S j <? least)%nat eqn:E; [apply Nat.ltb_lt in E; lia|].
    now rewrite Hk.
Qed.

Lemma give_back_result {A} (k : list ascii -> option A) least s r : forall j,
  give_back j least s k = Some r ->
  exists i, (least <= i <= j)%nat /\ k (drop i s) = Some r.
Proof.
  induction j as [|j IH]; simpl.
  - destruct (0 <? least)%nat eqn:E; [discriminate|]. apply Nat.ltb_ge in E.
    destruct (k (drop 0 s)) eqn:Ek; [|discriminate]. intros [= <-].
    exists 0%nat. split; [lia|exact Ek].
  - destruct (S j <? least)%nat eqn:E; [discriminate|]. apply Nat.ltb_ge in E.
    destruct (k (drop (S j) s)) eqn:Ek.
    + intros [= <-]. exists (S j). split; [lia|exact Ek].
    + intros H. destruct (IH H) as (i & Hi & Hki). exists i. split; [lia|exact Hki].
Qed.

Lemma run_length_drop cl s :
  match drop (run_length cl s) s with
  | [] => Forall (fun c => cl c = true) s
  | c :: _ => cl c = false
  end.
Proof.
  induction s as [|c s IH]; simpl; [constructor|].
  destruct (cl c) eqn:Ec; simpl; [|exact Ec].
  destruct (drop (run_length cl s) s); [now constructor|exact IH].
Qed.

Lemma run_length_head cl c s : (1 <= run_length cl (c :: s))%nat -> cl c = true.
Proof. simpl. destruct (cl c); [reflexivity|lia]. Qed.

Lemma run_length_le cl s : (run_length cl s <= List.length s)%nat.
Proof. induction s as [|c s IH]; simpl; [lia|]. destruct (cl c); simpl; lia. Qed.

Lemma run_length_all cl s :
  Forall (fun c => cl c = true) s -> run_length cl s = List.length s.
Proof.
  induction 1 as [|c s Hc _ IH]; simpl; [reflexivity|]. now rewrite Hc, IH.
Qed.

Lemma rest_of_line_all s :
  s <> [] -> Forall (fun c => not_newline c = true) s -> rest_of_line s = Some s.
Proof.
  intros Hne Hs. unfold rest_of_line. rewrite (run_length_all _ _ Hs). cbv zeta.
  rewrite firstn_all. destruct (List.length s) as [|n] eqn:El.
  - destruct s; [congruence|discriminate].
  - rewrite drop_ge by lia. reflexivity.
Qed.

Lemma rest_of_line_result s r :
  Forall (fun c => not_newline c = true) s ->
  rest_of_line s = Some r -> r = s /\ s <> [].
Proof.
  intros Hs H. destruct s as [|c s]; [discriminate|].
  rewrite rest_of_line_all in H by (congruence || exact Hs).
  injection H as <-. now split.
Qed.

Lemma Forall_drop {A} (P : A -> Prop) n (l : list A) :
  Forall P l -> Forall P (drop n l).
Proof.
  intros H. rewrite <- (take_drop n l) in H. now apply Forall_app in H.
Qed.

Lemma last_drop {A} n (l : list A) d :
  drop n l <> [] -> List.last (drop n l) d = List.last l d.
Proof.
  intros Hne. rewrite <- (take_drop n l) at 2.
  destruct (drop n l) as [|x m]; [congruence|]. now rewrite last_app_cons.
Qed.

(** A successful match of the tail pattern returns a non-empty end of the
    input. *)
Lemma value_after_label_result s v :
  Forall (fun c => not_newline c = true) s ->
  value_after_label s = Some v ->
  v <> [] /\ exists n, v = drop n s.
Proof.
  intros Hs H. unfold value_after_label, zero_or_more in H.
  apply give_back_result in H. destruct H as (i & _ & H).
  assert (Hk2 : forall t n, t = drop n s ->
    give_back (run_length is_space t) 0 t rest_of_line = Some v ->
    v <> [] /\ exists n, v = drop n s).
  { intros t n -> Hg. apply give_back_result in Hg. destruct Hg as (j & _ & Hg).
    apply rest_of_line_result in Hg; [|now do 2 apply Forall_drop].
    destruct Hg as [-> Hne]. split; [exact Hne|].
    exists (n + j)%nat. now rewrite drop_drop. }
  unfold zero_or_one in H. destruct (drop i s) as [|c t] eqn:Ed.
  - exact (Hk2 [] i (eq_sym Ed) H).
  - assert (Et : t = drop (S i) s).
    { rewrite <- (Nat.add_1_r i), <- drop_drop, Ed. reflexivity. }
    destruct (Ascii.eqb c ":").
    + destruct (give_back (run_length is_space t) 0 t rest_of_line) eqn:Ek.
      * injection H as ->. exact (Hk2 t (S i) Et Ek).
      * exact (Hk2 (c :: t) i (eq_sym Ed) H).
    + exact (Hk2 (c :: t) i (eq_sym Ed) H).
Qed.

Lemma value_after_label_found s d :
  s <> [] -> is_space (List.last s d) = false ->
  Forall (fun c => not_newline c = true) s ->
  exists v, value_after_label s = Some v.
Proof.
  intros Hne Hlast Hs.
  pose proof (run_length_drop is_space s) as Hd.
  destruct (drop (run_length is_space s) s) as [|c t] eqn:Ed.
  { exfalso. rewrite List.Forall_forall in Hd.
    assert (Hin : In (List.last s d) s).
    { destruct s as [|a s]; [congruence|]. apply (exists_last) in Hne.
      destruct Hne as (m & x & ->). rewrite last_last. apply in_or_app.
      right. now left. }
    rewrite (Hd _ Hin) in Hlast. discriminate. }
  assert (Hct : Forall (fun c => not_newline c = true) (c :: t)).
  { rewrite <- Ed. now apply Forall_drop. }
  assert (Hplain : give_back (run_length is_space (c :: t)) 0 (c :: t) rest_of_line
                   = Some (c :: t)).
  { simpl run_length. rewrite Hd. apply give_back_first; [lia|].
    apply rest_of_line_all; [discriminate|exact Hct]. }
  unfold value_after_label, zero_or_more.
  destruct (zero_or_one ":" (c :: t)
              (fun s0 => give_back (run_length is_space s0) 0 s0 rest_of_line))
    as [v|] eqn:Ek.
  - exists v. apply give_back_first; [lia|]. now rewrite Ed.
  - exfalso. unfold zero_or_one in Ek. destruct (Ascii.eqb c ":").
    + destruct (give_back (run_length is_space t) 0 t rest_of_line);
        [discriminate|]. rewrite Hplain in Ek. discriminate.
    + rewrite Hplain in Ek. discriminate.
Qed.

Lemma linebreak_newline l :
  Forall (fun c => is_linebreak c = false) l ->
  Forall (fun c => not_newline c = true) l.
Proof.
  apply List.Forall_impl. intros c Hc. unfold not_newline.
  destruct (Ascii.eqb c "010") eqn:E; [|reflexivity].
  apply Ascii.eqb_eq in E. subst c. discriminate.
Qed.

Lemma match_literal_end : forall literal s rest,
  match_literal literal s = Some rest -> exists n, rest = drop n s.
Proof.
  induction literal as [|a literal IH]; intros s rest; simpl.
  - intros [= <-]. now exists 0%nat.
  - destruct s as [|c s]; [discriminate|].
    destruct (same_letter a c); [|discriminate]. intros H.
    destruct (IH _ _ H) as [n ->]. now exists (S n).
Qed.

Lemma lower_eq_literal : forall label line,
  String.eqb (lower line) (lower label) = true <->
  match_literal (list_ascii_of_string label) (list_ascii_of_string line) = Some [].
Proof.
  induction label as [|a label IH]; intros line.
  - destruct line; simpl; split; congruence.
  - destruct line as [|c line]; simpl; [split; discriminate|].
    unfold same_letter. rewrite (Ascii.eqb_sym (lower_ascii a)).
    destruct (Ascii.eqb (lower_ascii c) (lower_ascii a)); [apply IH|].
    split; discriminate.
Qed.

(** On a clean line the pattern matches exactly when something follows
    the label, and the value it yields is not blank. *)
Lemma match_label_line_clean label line rest :
  clean_line line ->
  match_literal (list_ascii_of_string label) (list_ascii_of_string line) = Some rest ->
  (rest = [] -> match_label_line label line = None) /\
  (rest <> [] -> exists value,
     match_label_line label line = Some value /\ truthy (strip value) = true).
Proof.
  intros (Hne & Htrim & Hbr) Hm. unfold match_label_line. rewrite Hm. split.
  - intros ->. reflexivity.
  - intros Hrest. destruct (match_literal_end _ _ _ Hm) as [n ->].
    assert (Hl : list_ascii_of_string line <> []).
    { destruct line; [congruence|discriminate]. }
    destruct (list_ascii_of_string line) as [|c0 l0] eqn:El; [congruence|].
    destruct Htrim as [_ Hlast].
    assert (Hnl : Forall (fun c => not_newline c = true) (drop n (c0 :: l0))).
    { apply Forall_drop, linebreak_newline. exact Hbr. }
    assert (Hlast' : is_space (List.last (drop n (c0 :: l0)) c0) = false).
    { now rewrite last_drop. }
    destruct (value_after_label_found _ c0 Hrest Hlast' Hnl) as [v Hv].
    rewrite Hv. eexists. split; [reflexivity|].
    destruct (value_after_label_result _ _ Hnl Hv) as [Hvne [m ->]].
    apply strip_truthy. rewrite list_ascii_of_string_of_list_ascii.
    exists (List.last (drop m (drop n (c0 :: l0))) c0). split.
    + destruct (drop m (drop n (c0 :: l0))) as [|x y] eqn:E; [congruence|].
      destruct (exists_last (l := x :: y)) as (u & z & Ez); [discriminate|].
      rewrite Ez, last_last. apply in_or_app. right. now left.
    + rewrite last_drop by exact Hvne. exact Hlast'.
Qed.

Lemma clean_line_kept line : clean_line line -> strip line = line /\ line <> "".
Proof. intros (Hne & Ht & _). split; [now apply strip_of_trimmed|exact Hne]. Qed.

Lemma extract_value_stripped label : forall lines,
  strip (extract_value_from_lines lines label) = extract_value_from_lines lines label.
Proof.
  induction lines as [|line lines IH]; [reflexivity|]. simpl.
  destruct lines as [|next more].
  - destruct (match_label_line label line); [apply strip_idem|reflexivity].
  - destruct (String.eqb _ _); [apply strip_idem|].
    destruct (match_label_line label line); [apply strip_idem|exact IH].
Qed.

(** X13: in the lines of a section, [extract_value_from_lines] finds a
    value for a label exactly when some line begins with the label
    (letter case aside) and something follows it: more text on the same
    line, or a further line.  A line that is just the label takes the next
    line as its value, whatever that line is; the last line, if it is just
    the label, yields nothing.  The value carries no blank at either
    end. *)
Theorem labelled_value_is_found_iff_something_follows
    (lines : list string) (label : string) :
  Forall clean_line lines ->
  (extract_value_from_lines lines label <> "" <->
   exists i line rest,
     lines !! i = Some line /\
     match_literal (list_ascii_of_string label) (list_ascii_of_string line)
     = Some rest /\
     (rest <> [] \/ (S i < List.length lines)%nat)) /\
  (forall line next more,
     lines = line :: next :: more -> lower line = lower label ->
     extract_value_from_lines lines label = next) /\
  strip (extract_value_from_lines lines label)
  = extract_value_from_lines lines label.
Proof.
  intros Hclean. split; [|split; [|apply extract_value_stripped]].
  - induction Hclean as [|line lines Hline Hlines IH].
    { simpl. split; [congruence|]. intros (i & line & rest & Hl & _). discriminate. }
    assert (Hhere : forall value,
      match_label_line label line = Some value ->
      strip value <> "" /\
      exists rest,
        match_literal (list_ascii_of_string label) (list_ascii_of_string line)
        = Some rest /\ rest <> []).
    { intros value Hv.
      destruct (match_literal (list_ascii_of_string label)
                              (list_ascii_of_string line)) as [rest|] eqn:Em.
      2: { unfold match_label_line in Hv. rewrite Em in Hv. discriminate. }
      destruct (match_label_line_clean label line rest Hline Em) as [H0 H1].
      destruct rest as [|c rest]; [rewrite H0 in Hv by reflexivity; discriminate|].
      destruct H1 as (v' & Hv' & Ht); [discriminate|].
      rewrite Hv in Hv'. injection Hv' as <-. split.
      - intros E. rewrite E in Ht. discriminate.
      - eexists. split; [reflexivity|discriminate]. }
    assert (Hnot : match_label_line label line = None ->
      forall rest,
        match_literal (list_ascii_of_string label) (list_ascii_of_string line)
        = Some rest -> rest = []).
    { intros Hn rest Em.
      destruct (match_label_line_clean label line rest Hline Em) as [_ H1].
      destruct rest as [|c rest]; [reflexivity|].
      destruct H1 as (v' & Hv' & _); [discriminate|]. congruence. }
    simpl. destruct lines as [|next more].
    + destruct (match_label_line label line) as [value|] eqn:Ev.
      * destruct (Hhere value eq_refl) as [Hs (rest & Em & Hr)].
        split; [intros _|intros _; exact Hs].
        exists 0%nat, line, rest. split; [reflexivity|]. split; [exact Em|now left].
      * split; [congruence|]. intros (i & l & rest & Hl & Em & Hr). exfalso.
        destruct i; [|discriminate]. injection Hl as <-.
        destruct Hr as [Hr|Hr]; [apply Hr, (Hnot eq_refl _ Em)|simpl in Hr; lia].
    + destruct (String.eqb (lower line) (lower label)) eqn:Eq.
      * inversion Hlines as [|? ? Hnext _]; subst.
        destruct (clean_line_kept next Hnext) as [-> Hne].
        split; [intros _|intros _; exact Hne].
        exists 0%nat, line, []. split; [reflexivity|].
        split; [now apply lower_eq_literal|right; simpl; lia].
      * destruct (match_label_line label line) as [value|] eqn:Ev.
        -- destruct (Hhere value eq_refl) as [Hs (rest & Em & Hr)].
           split; [intros _|intros _; exact Hs].
           exists 0%nat, line, rest. split; [reflexivity|]. split; [exact Em|now left].
        -- rewrite IH. split.
           ++ intros (i & l & rest & Hl & Em & Hr). exists (S i), l, rest.
              split; [exact Hl|]. split; [exact Em|].
              destruct Hr as [Hr|Hr]; [now left|right; simpl in *; lia].
           ++ intros (i & l & rest & Hl & Em & Hr). destruct i as [|i].
              ** exfalso. injection Hl as <-.
                 pose proof (Hnot eq_refl _ Em) as ->.
                 apply lower_eq_literal in Em. congruence.
              ** exists i, l, rest. split; [exact Hl|]. split; [exact Em|].
                 destruct Hr as [Hr|Hr]; [now left|right; simpl in *; lia].
  - intros line next more -> El. simpl. rewrite El, String.eqb_refl.
    inversion Hclean as [|? ? _ Hrest]; subst.
    inversion Hrest as [|? ? Hnext _]; subst.
    now destruct (clean_line_kept next Hnext).
Qed.

Lemma labelled_value_is_found_iff_something_follows_witness :
  let lines := normalize_section_lines case_information in
  extract_value_from_lines lines "File Date" <> "" /\
  extract_value_from_lines lines "case number" = "F-2500001".
Proof.
  cbv zeta.
  destruct (labelled_value_is_found_iff_something_follows
              (normalize_section_lines case_information) "File Date"
              (normalize_section_lines_clean _)) as (H & _ & _).
  destruct (labelled_value_is_found_iff_something_follows
              (normalize_section_lines case_information) "case number"
              (normalize_section_lines_clean _)) as (_ & Hnext & _).
  split.
  - apply H. exists 2%nat. eexists. eexists. split; [reflexivity|].
    split; [reflexivity|]. left. discriminate.
  - apply (Hnext "Case Number" "F-2500001"
             ["File Date:  01/15/2025"; "Case Status:"]); reflexivity.
Defined.

(** X14: the text fallback of [extract_charge_description] returns a
    charge only from the line that directly follows a line made of digits
    alone (the count number), and never a header token: without a numeric
    line in the Charge section the description stays empty, whatever the
    section says. *)
Theorem charge_fallback_needs_a_numbered_line (lines : list string) :
  let charge := charge_from_lines lines in
  (charge <> "" ->
   exists i number candidate,
     lines !! i = Some number /\ lines !! (S i) = Some candidate /\
     isdigit (strip number) = true /\
     excluded (lower candidate) = false /\ charge = strip candidate) /\
  ((forall line, In line lines -> isdigit (strip line) = false) -> charge = "").
Proof.
  cbv zeta. split.
  - induction lines as [|line lines IH]; [simpl; congruence|]. simpl.
    assert (Hrec : charge_from_lines lines <> "" ->
      exists i number candidate,
        (line :: lines) !! i = Some number /\
        (line :: lines) !! (S i) = Some candidate /\
        isdigit (strip number) = true /\
        excluded (lower candidate) = false /\
        charge_from_lines lines = strip candidate).
    { intros H. destruct (IH H) as (i & n & c & H1 & H2 & H3). exists (S i), n, c.
      split; [exact H1|]. split; [exact H2|exact H3]. }
    destruct (excluded (lower line)); [exact Hrec|].
    destruct lines as [|candidate more]; [congruence|].
    destruct (isdigit (strip line)) eqn:Ed; [|exact Hrec].
    destruct (excluded (lower candidate)) eqn:Ex; [exact Hrec|]. simpl.
    intros _. exists 0%nat, line, candidate. now repeat split.
  - induction lines as [|line lines IH]; intros Hno; [reflexivity|]. simpl.
    assert (Hrest : charge_from_lines lines = "").
    { apply IH. intros l Hl. apply Hno. now right. }
    destruct (excluded (lower line)); [exact Hrest|].
    destruct lines as [|candidate more]; [reflexivity|].
    rewrite (Hno line) by now left. exact Hrest.
Qed.

Lemma charge_fallback_needs_a_numbered_line_witness :
  charge_from_lines (normalize_section_lines charge_section)
  = "ASSAULT FAM/HOUSE MEM IMPEDE BREATH" /\
  charge_from_lines ["Charges"; "ASSAULT FAM/HOUSE MEM IMPEDE BREATH"; "Felony"] = "".
Proof.
  split; [reflexivity|].
  apply (proj2 (charge_fallback_needs_a_numbered_line
                  ["Charges"; "ASSAULT FAM/HOUSE MEM IMPEDE BREATH"; "Felony"])).
  intros line [<-|[<-|[<-|[]]]]; reflexivity.
Defined.

(** *** Durations *)

Lemma digit_not_space c : is_digit c = true -> is_space c = false.
Proof.
  unfold is_digit, is_space. intros H. apply andb_true_iff in H.
  destruct H as [H1 H2]. apply Nat.leb_le in H1. apply Nat.leb_le in H2.
  apply orb_false_iff. split; apply andb_false_iff; right; apply Nat.leb_gt; lia.
Qed.

Lemma duration_at_digit units s m :
  duration_at units s = Some m ->
  exists c m', m = c :: m' /\ is_digit c = true.
Proof.
  unfold duration_at, one_or_more, zero_or_more. intros H.
  apply give_back_result in H. destruct H as (i & Hi & H).
  apply give_back_result in H. destruct H as (j & _ & H).
  destruct (match_unit units _) as [u|]; [|discriminate]. injection H as <-.
  destruct s as [|c s]; [simpl in Hi; lia|].
  assert (Hc : is_digit c = true) by (apply (run_length_head _ c s); lia).
  pose proof (run_length_le is_digit (c :: s)) as Hle.
  rewrite !length_drop.
  destruct (List.length (c :: s) - (List.length (c :: s) - i - j))%nat as [|n] eqn:En;
    [simpl in *; lia|].
  simpl. eauto.
Qed.

Lemma search_duration_digit units : forall s m,
  search_duration units s = Some m ->
  exists c m', m = c :: m' /\ is_digit c = true.
Proof.
  induction s as [|a s IH]; intros m; cbn [search_duration].
  - destruct (duration_at units []) eqn:E; [|discriminate].
    intros [= <-]. exact (duration_at_digit _ _ _ E).
  - destruct (duration_at units (a :: s)) eqn:E.
    + intros [= <-]. exact (duration_at_digit _ _ _ E).
    + apply IH.
Qed.

Lemma title_nonempty s : s <> "" -> title s <> "".
Proof. destruct s; [congruence|discriminate]. Qed.

Lemma duration_titled units line m :
  duration_search units line = Some m -> title (strip m) <> "".
Proof.
  unfold duration_search.
  destruct (search_duration units (list_ascii_of_string line)) as [l|] eqn:E;
    [|discriminate].
  intros [= <-]. destruct (search_duration_digit _ _ _ E) as (c & l' & -> & Hc).
  apply title_nonempty. apply truthy_nonempty, strip_truthy.
  exists c. rewrite list_ascii_of_string_of_list_ascii.
  split; [now left|now apply digit_not_space].
Qed.

Lemma first_duration_found : forall lines duration,
  first_duration lines = Some duration -> duration <> "".
Proof.
  induction lines as [|line lines IH]; intros duration; simpl; [discriminate|].
  destruct (duration_search probation_units line) as [m|] eqn:E; [|apply IH].
  intros [= <-]. exact (duration_titled _ _ _ E).
Qed.

Lemma parse_probation_details_found lines :
  lines <> [] -> Forall clean_line lines -> parse_probation_details lines <> "".
Proof.
  intros Hne Hclean. unfold parse_probation_details.
  destruct lines as [|line lines]; [congruence|].
  destruct (first_duration _) as [d|] eqn:Ed; [exact (first_duration_found _ _ Ed)|].
  assert (Hord : forall l, In l (List.filter mentions_probation (line :: lines)
                    ++ List.filter (fun l => negb (mentions_probation l)) (line :: lines))%list ->
                           clean_line l).
  { intros l Hl. rewrite List.Forall_forall in Hclean. apply Hclean.
    apply in_app_or in Hl. destruct Hl as [Hl|Hl]; now apply filter_In in Hl. }
  destruct (List.filter mentions_probation (line :: lines)
            ++ List.filter (fun l => negb (mentions_probation l)) (line :: lines))%list
    as [|l ls] eqn:E.
  - exfalso. apply app_eq_nil in E. destruct E as [E1 E2]. simpl in E1, E2.
    destruct (mentions_probation line); discriminate.
  - simpl. destruct (clean_line_kept l (Hord l (or_introl eq_refl))) as [-> Hl].
    apply truthy_nonempty in Hl. rewrite Hl. now apply truthy_nonempty.
Qed.

(** X15: a community-service section with any text in it is always
    reported: [parse_probation_details] returns the first duration it
    finds (a number and a unit, in title case) or else a whole line, never
    a blank, so the sentencing summary ends with a "Probation: ..." part. *)
Theorem probation_section_is_always_reported (page : SentencingPage) :
  (exists c, In c (list_ascii_of_string (probation_text page)) /\
             is_space c = false) ->
  exists value,
    value <> "" /\
    probation_value (disposition_dom_of page) = Some value /\
    snd (extract_disposition_and_sentencing (disposition_dom_of page))
    = join " || "
        (labelled "Confinement: " (confinement_value (disposition_dom_of page))
         ++ ["Probation: " +:+ value])%list.
Proof.
  intros (c & Hin & Hc).
  exists (parse_probation_details (normalize_section_lines (probation_text page))).
  assert (Hv : parse_probation_details (normalize_section_lines (probation_text page))
               <> "").
  { apply parse_probation_details_found;
      [exact (normalize_section_lines_nonempty _ c Hin Hc)|
       apply normalize_section_lines_clean]. }
  assert (Ht : truthy (probation_text page) = true).
  { destruct (probation_text page); [destruct Hin|reflexivity]. }
  split; [exact Hv|]. unfold disposition_dom_of. simpl. rewrite Ht.
  split; [reflexivity|]. unfold labelled at 2.
  apply truthy_nonempty in Hv. now rewrite Hv.
Qed.

Lemma probation_section_is_always_reported_witness :
  exists value,
    value <> "" /\
    probation_value (disposition_dom_of sentencing_page) = Some value /\
    snd (extract_disposition_and_sentencing (disposition_dom_of sentencing_page))
    = join " || "
        (labelled "Confinement: "
           (confinement_value (disposition_dom_of sentencing_page))
         ++ ["Probation: " +:+ value])%list.
Proof.
  apply (probation_section_is_always_reported sentencing_page).
  exists "T"%char. split; [now left|reflexivity].
Defined.

End Lines.

(** ** The confinement summary (case_data_extractor.py) *)
Section Confinement.
Import Py CaseDataExtractor Examples.

Lemma not_truthy s : truthy s = false -> s = "".
Proof. destruct s; [reflexivity|discriminate]. Qed.

Lemma first_facility_named lower_line :
  (first_facility lower_line = "" /\
   existsb (fun label => contains (lower label) lower_line) facility_labels = false) \/
  (In (first_facility lower_line) facility_labels /\
   existsb (fun label => contains (lower label) lower_line) facility_labels = true).
Proof.
  unfold first_facility.
  destruct (List.find _ facility_labels) as [label|] eqn:E.
  - right. apply find_some in E. destruct E as [Hin Hc]. split; [exact Hin|].
    apply existsb_exists. eauto.
  - left. split; [reflexivity|].
    destruct (existsb _ facility_labels) eqn:Ex; [|reflexivity].
    apply existsb_exists in Ex. destruct Ex as (label & Hin & Hc).
    apply (find_none _ _ E) in Hin. congruence.
Qed.

Lemma facility_labels_truthy label : In label facility_labels -> truthy label = true.
Proof. intros [<-|[<-|[<-|[<-|[<-|[]]]]]]; reflexivity. Qed.

Lemma first_facility_mentions line :
  truthy (first_facility (lower line)) = mentions_facility line.
Proof.
  unfold mentions_facility.
  destruct (first_facility_named (lower line)) as [[-> ->]|[Hin ->]];
    [reflexivity|now apply facility_labels_truthy].
Qed.

Lemma confinement_facility_cons line lines :
  confinement_facility (line :: lines)
  = if mentions_facility line then first_facility (lower line)
    else confinement_facility lines.
Proof. unfold confinement_facility. simpl. now destruct (mentions_facility line). Qed.

Lemma scan_confinement_spec : forall lines duration facility,
  scan_confinement lines duration facility
  = (if truthy duration then duration else confinement_duration lines,
     if truthy facility then facility else confinement_facility lines).
Proof.
  induction lines as [|line lines IH]; intros duration facility.
  - simpl. destruct (truthy duration) eqn:Ed, (truthy facility) eqn:Ef;
      try rewrite (not_truthy _ Ed); try rewrite (not_truthy _ Ef); reflexivity.
  - cbn [scan_confinement confinement_duration]. rewrite confinement_facility_cons.
    rewrite <- first_facility_mentions.
    destruct (truthy duration) eqn:Ed; cbn [negb].
    + rewrite Ed. destruct (truthy facility) eqn:Ef; cbn [negb andb].
      * rewrite Ef. reflexivity.
      * destruct (truthy (first_facility (lower line))) eqn:Em; [reflexivity|].
        rewrite IH, Ed, Em. reflexivity.
    + rewrite (not_truthy _ Ed).
      destruct (duration_search confinement_units (lower line)) as [m|] eqn:Es.
      * pose proof (duration_titled _ _ _ Es) as Ht. apply truthy_nonempty in Ht.
        rewrite Ht. destruct (truthy facility) eqn:Ef; cbn [negb andb].
        -- rewrite Ef. reflexivity.
        -- destruct (truthy (first_facility (lower line))) eqn:Em; [reflexivity|].
           rewrite IH, Ht, Em. reflexivity.
      * cbn [truthy andb]. rewrite IH. cbn [truthy].
        destruct (truthy facility) eqn:Ef; cbn [negb]; [now rewrite Ef|].
        destruct (truthy (first_facility (lower line))) eqn:Em; reflexivity.
Qed.

Lemma find_prioritized {A} (p : A -> bool) (l : list A) :
  List.find p (List.filter p l ++ List.filter (fun x => negb (p x)) l)%list
  = List.find p l.
Proof.
  assert (Hnone : forall m, List.find p (List.filter (fun x => negb (p x)) m) = None).
  { induction m as [|x m IH]; [reflexivity|]. simpl.
    destruct (p x) eqn:E; simpl; [exact IH|]. now rewrite E. }
  induction l as [|x l IH]; [reflexivity|]. simpl.
  destruct (p x) eqn:E; simpl.
  - now rewrite E.
  - rewrite <- IH.
    clear IH. induction (List.filter p l) as [|y m IHm]; simpl.
    + rewrite E. reflexivity.
    + destruct (p y); [reflexivity|exact IHm].
Qed.

Lemma confinement_duration_none lines :
  confinement_duration lines = "" <->
  forall line, In line lines ->
    duration_search confinement_units (lower line) = None.
Proof.
  induction lines as [|line lines IH]; simpl; [split; [intros _ ? []|reflexivity]|].
  destruct (duration_search confinement_units (lower line)) as [m|] eqn:Es.
  - split.
    + intros E. now apply duration_titled in Es.
    + intros H. specialize (H line (or_introl eq_refl)). congruence.
  - rewrite IH. split.
    + intros H l [<-|Hl]; [exact Es|now apply H].
    + intros H l Hl. apply H. now right.
Qed.

Lemma confinement_facility_none lines :
  confinement_facility lines = "" <->
  forall line, In line lines -> mentions_facility line = false.
Proof.
  induction lines as [|line lines IH]; [split; [intros _ ? []|reflexivity]|].
  rewrite confinement_facility_cons.
  destruct (mentions_facility line) eqn:Em.
  - split.
    + intros E. rewrite <- first_facility_mentions, E in Em. discriminate.
    + intros H. specialize (H line (or_introl eq_refl)). congruence.
  - rewrite IH. split.
    + intros H l [<-|Hl]; [exact Em|now apply H].
    + intros H l Hl. apply H. now right.
Qed.

(** X16: [parse_confinement_details] reports the duration of the first
    line that holds one (lines naming a facility are looked at first) and
    the facility of the first line that names one, joined by ", " when
    both are found.  The facility is one of the five labels of the module,
    the first of them that the line contains, so "STATE JAIL" wins over
    "JAIL"; and the result is empty exactly when no line holds a duration
    in days, months or years and no line names a facility. *)
Theorem confinement_summary_is_first_duration_and_facility (lines : list string) :
  let ordered_lines :=
    (List.filter mentions_facility lines
     ++ List.filter (fun line => negb (mentions_facility line)) lines)%list in
  let duration := confinement_duration ordered_lines in
  let facility := confinement_facility lines in
  parse_confinement_details lines
  = (if truthy duration && truthy facility then duration +:+ ", " +:+ facility
     else if truthy duration then duration else facility) /\
  (facility = "" \/ In facility facility_labels) /\
  (parse_confinement_details lines = "" <->
   forall line, In line lines ->
     duration_search confinement_units (lower line) = None /\
     mentions_facility line = false).
Proof.
  cbv zeta.
  assert (Hform : parse_confinement_details lines
    = (if truthy (confinement_duration
                    (List.filter mentions_facility lines
                     ++ List.filter (fun line => negb (mentions_facility line)) lines))
          && truthy (confinement_facility lines)
       then confinement_duration
              (List.filter mentions_facility lines
               ++ List.filter (fun line => negb (mentions_facility line)) lines)
            +:+ ", " +:+ confinement_facility lines
       else if truthy (confinement_duration
                    (List.filter mentions_facility lines
                     ++ List.filter (fun line => negb (mentions_facility line)) lines))
            then confinement_duration
              (List.filter mentions_facility lines
               ++ List.filter (fun line => negb (mentions_facility line)) lines)
            else confinement_facility lines)).
  { unfold parse_confinement_details. destruct lines as [|line lines]; [reflexivity|].
    rewrite scan_confinement_spec. cbn [truthy].
    unfold confinement_facility at 1 2 3. rewrite find_prioritized.
    fold (confinement_facility (line :: lines)).
    destruct (truthy (confinement_duration _)) eqn:Ed,
             (truthy (confinement_facility (line :: lines))) eqn:Ef;
      cbn [andb]; try reflexivity.
    - unfold confinement_facility. now rewrite find_prioritized.
    - now rewrite (not_truthy _ Ef). }
  split; [exact Hform|]. split.
  - unfold confinement_facility.
    destruct (List.find mentions_facility lines) as [line|]; [|now left].
    destruct (first_facility_named (lower line)) as [[-> _]|[Hin _]]; auto.
  - rewrite Hform.
    set (ordered := (List.filter mentions_facility lines
            ++ List.filter (fun line => negb (mentions_facility line)) lines)%list).
    assert (Hin : forall line, In line ordered <-> In line lines).
    { intros line. unfold ordered. rewrite in_app_iff, !filter_In.
      destruct (mentions_facility line); simpl; tauto. }
    assert (Hboth : confinement_duration ordered = "" /\ confinement_facility lines = ""
                    <-> forall line, In line lines ->
                          duration_search confinement_units (lower line) = None /\
                          mentions_facility line = false).
    { rewrite confinement_duration_none, confinement_facility_none. split.
      - intros [Hd Hf] line Hl. split; [apply Hd; now apply Hin|now apply Hf].
      - intros H. split; intros line Hl; [apply H; now apply Hin|now apply H]. }
    rewrite <- Hboth.
    destruct (confinement_duration ordered) as [|c d];
      destruct (confinement_facility lines) as [|c' f]; cbn [truthy andb];
      split; try tauto; try discriminate; intros [? ?]; discriminate.
Qed.

Lemma confinement_summary_is_first_duration_and_facility_witness :
  parse_confinement_details ["Term: 6 months"; "Facility: State Jail Division"]
  = "6 Months, STATE JAIL" /\
  parse_confinement_details ["Term: 1 year"] = "".
Proof.
  split.
  - rewrite (proj1 (confinement_summary_is_first_duration_and_facility _)).
    reflexivity.
  - apply (proj2 (proj2 (confinement_summary_is_first_duration_and_facility _))).
    intros line [<-|[]]. split; reflexivity.
Defined.

End Confinement.

(** ** Sheet names (result_exporter.py) *)
Section SheetNames.
Import Py ResultExporter Examples.

Lemma string_length_list s : String.length s = List.length (list_ascii_of_string s).
Proof. induction s as [|c s IH]; simpl; [reflexivity|now rewrite IH]. Qed.

Lemma length_string_of_list l : String.length (string_of_list_ascii l) = List.length l.
Proof. now rewrite string_length_list, list_ascii_of_string_of_list_ascii. Qed.

Lemma replace_char_chars old new s c :
  In c (list_ascii_of_string (replace_char old new s)) ->
  c = new \/ (In c (list_ascii_of_string s) /\ c <> old).
Proof.
  unfold replace_char. induction s as [|a s IH]; simpl; [intros []|].
  destruct (Ascii.eqb_spec a old) as [->|Hne].
  - intros [<-|H]; [now left|]. destruct (IH H) as [->|[Hin Hc]]; auto.
  - intros [<-|H]; [right; auto|]. destruct (IH H) as [->|[Hin Hc]]; auto.
Qed.

Lemma replace_chars_valid new : forall olds s c,
  In c (list_ascii_of_string
          (fold_left (fun name char => replace_char char new name) olds s)) ->
  c = new \/ (In c (list_ascii_of_string s) /\ ~ In c olds).
Proof.
  induction olds as [|old olds IH]; intros s c; simpl; [intros H; right; auto|].
  intros H. destruct (IH _ _ H) as [->|[Hin Hno]]; [now left|].
  destruct (replace_char_chars _ _ _ _ Hin) as [->|[Hin' Hne]]; [now left|].
  right. split; [exact Hin'|]. intros [E|E]; [congruence|contradiction].
Qed.

Lemma lstrip_chars_list_end chars l :
  exists removed, l = (removed ++ lstrip_chars_list chars l)%list.
Proof.
  induction l as [|c l [r E]]; [now exists []|]. simpl.
  destruct (in_chars chars c); [|now exists []].
  exists (c :: r). simpl. now f_equal.
Qed.

Lemma lstrip_chars_list_head chars l :
  match lstrip_chars_list chars l with
  | [] => True
  | c :: _ => in_chars chars c = false
  end.
Proof.
  induction l as [|c l IH]; simpl; [exact I|].
  destruct (in_chars chars c) eqn:E; [exact IH|exact E].
Qed.

(** What both trimmings leave: a part of the text that does not begin
    with one of [chars]. *)
Lemma strip_chars_list_spec chars l :
  (exists before after, l = (before ++ strip_chars_list chars l ++ after)%list) /\
  match strip_chars_list chars l with
  | [] => True
  | c :: _ => in_chars chars c = false
  end.
Proof.
  unfold strip_chars_list.
  destruct (lstrip_chars_list_end chars l) as [b Eb].
  destruct (lstrip_chars_list_end chars (rev (lstrip_chars_list chars l))) as [a Ea].
  pose proof (lstrip_chars_list_head chars l) as Hh.
  set (m := lstrip_chars_list chars l) in *.
  set (n := lstrip_chars_list chars (rev m)) in *.
  assert (Em : m = (rev n ++ rev a)%list).
  { rewrite <- (rev_involutive m), Ea, rev_app_distr. reflexivity. }
  split.
  - exists b, (rev a). now rewrite <- Em.
  - destruct (rev n) as [|c k] eqn:En; [exact I|].
    rewrite Em in Hh. exact Hh.
Qed.

Lemma rstrip_list_start l : exists blanks, l = (rstrip_list l ++ blanks)%list.
Proof.
  unfold rstrip_list. destruct (lstrip_list_suffix (rev l)) as (b & E & _).
  exists (rev b). rewrite <- rev_app_distr, <- E. now rewrite rev_involutive.
Qed.

Lemma strip_list_part l :
  exists before after, l = (before ++ strip_list l ++ after)%list.
Proof.
  unfold strip_list.
  destruct (lstrip_list_suffix l) as (b & Eb & _).
  destruct (lstrip_list_suffix (rev (lstrip_list l))) as (a & Ea & _).
  exists b, (rev a). rewrite <- rev_app_distr, <- Ea, rev_involutive. exact Eb.
Qed.

(** How [sanitize_sheet_name] makes its result: [trimmed_name] is the name
    with its characters replaced and its ends trimmed, [cut] is what the
    limit leaves of it. *)
Lemma sanitize_sheet_name_cut (name : string) (max_length : nat) :
  exists trimmed_name cut rest,
    sanitize_sheet_name name max_length
    = (if negb (truthy cut) then "Sheet" else cut) /\
    list_ascii_of_string trimmed_name = (list_ascii_of_string cut ++ rest)%list /\
    (String.length cut <= max_length)%nat /\
    (forall c, In c (list_ascii_of_string trimmed_name) ->
               ~ In c invalid_chars) /\
    match list_ascii_of_string trimmed_name with
    | [] => True
    | c :: _ => in_chars (list_ascii_of_string "'") c = false
    end.
Proof.
  unfold sanitize_sheet_name.
  set (replaced := fold_left _ invalid_chars name).
  assert (Hrep : forall c, In c (list_ascii_of_string replaced) -> ~ In c invalid_chars).
  { intros c Hc. destruct (replace_chars_valid _ _ _ _ Hc) as [->|[_ H]]; [|exact H].
    intros H. repeat (destruct H as [H|H]; [discriminate|]). destruct H. }
  set (trimmed_name := strip_chars "'" (strip replaced)).
  destruct (strip_list_part (list_ascii_of_string replaced)) as (b1 & a1 & E1).
  destruct (strip_chars_list_spec (list_ascii_of_string "'")
              (strip_list (list_ascii_of_string replaced))) as [(b2 & a2 & E2) Hhead].
  assert (Et : list_ascii_of_string trimmed_name
               = strip_chars_list (list_ascii_of_string "'")
                   (strip_list (list_ascii_of_string replaced))).
  { unfold trimmed_name, strip_chars, strip.
    now rewrite !list_ascii_of_string_of_list_ascii. }
  rewrite <- Et in E2, Hhead.
  assert (Htrim : forall c, In c (list_ascii_of_string trimmed_name) ->
                            ~ In c invalid_chars).
  { intros c Hc. apply Hrep. rewrite E1, E2.
    apply in_or_app. right. apply in_or_app. left.
    apply in_or_app. right. apply in_or_app. now left. }
  set (cut := if (max_length <? String.length trimmed_name)%nat
              then rstrip (slice_to max_length trimmed_name) else trimmed_name).
  assert (Hcut : exists rest, list_ascii_of_string trimmed_name
                              = (list_ascii_of_string cut ++ rest)%list).
  { unfold cut. destruct (max_length <? String.length trimmed_name)%nat.
    - unfold rstrip, slice_to. rewrite !list_ascii_of_string_of_list_ascii.
      destruct (rstrip_list_start (take max_length (list_ascii_of_string trimmed_name)))
        as [blanks Eb].
      exists (blanks ++ drop max_length (list_ascii_of_string trimmed_name))%list.
      rewrite app_assoc, <- Eb. now rewrite take_drop.
    - exists []. now rewrite app_nil_r. }
  assert (Hlen : (String.length cut <= max_length)%nat).
  { unfold cut. destruct (max_length <? String.length trimmed_name)%nat eqn:E.
    - unfold rstrip, slice_to. rewrite length_string_of_list,
        list_ascii_of_string_of_list_ascii.
      destruct (rstrip_list_start (take max_length (list_ascii_of_string trimmed_name)))
        as [blanks Eb].
      apply (f_equal (@List.length _)) in Eb. rewrite length_app, length_take in Eb. lia.
    - apply Nat.ltb_ge in E. exact E. }
  destruct Hcut as [rest Hcut].
  exists trimmed_name, cut, rest. repeat split; try assumption.
Qed.

(** X17: whatever the attorney's name, [sanitize_sheet_name] returns a
    name that is not empty, holds none of the characters / \ ? * [ ] :,
    does not begin with an apostrophe and, for a limit of at least five
    characters (the default is 31), is no longer than the limit. *)
Theorem sheet_name_is_valid (name : string) (max_length : nat) :
  (5 <= max_length)%nat ->
  let sheet := sanitize_sheet_name name max_length in
  sheet <> "" /\
  (String.length sheet <= max_length)%nat /\
  (forall c, In c (list_ascii_of_string sheet) -> ~ In c invalid_chars) /\
  startswith "'" sheet = false.
Proof.
  intros Hmax. cbv zeta.
  destruct (sanitize_sheet_name_cut name max_length)
    as (trimmed_name & cut & rest & -> & Hcut & Hlen & Htrim & Hhead).
  destruct cut as [|c cut']; cbn [truthy negb].
  - split; [discriminate|]. split; [simpl; lia|]. split; [|reflexivity].
    intros c Hc H.
    repeat (destruct Hc as [<-|Hc];
            [repeat (destruct H as [H|H]; [discriminate|]); destruct H|]).
    destruct Hc.
  - split; [discriminate|]. split; [exact Hlen|]. split.
    + intros a Ha. apply Htrim. rewrite Hcut. apply in_or_app. now left.
    + rewrite Hcut in Hhead. simpl in Hhead. unfold in_chars in Hhead.
      simpl in Hhead. rewrite orb_false_r in Hhead.
      unfold startswith.
      change (String.prefix "'" (String c cut'))
        with (match ascii_dec "'" c with
              | left _ => String.prefix "" cut'
              | right _ => false
              end).
      destruct (ascii_dec "'" c) as [<-|_]; [discriminate|reflexivity].
Qed.

Lemma sheet_name_is_valid_witness :
  let sheet := sanitize_sheet_name "O'NEIL / SMITH: PARTNERS [DALLAS] & ASSOCIATES" 31 in
  sheet <> "" /\
  (String.length sheet <= 31)%nat /\
  (forall c, In c (list_ascii_of_string sheet) -> ~ In c invalid_chars) /\
  startswith "'" sheet = false.
Proof.
  apply (sheet_name_is_valid "O'NEIL / SMITH: PARTNERS [DALLAS] & ASSOCIATES" 31).
  lia.
Defined.

End SheetNames.

(** ** From the configuration to the exported table (utils.py, main.py) *)
Section Configuration.
Import Py Scraper ScraperPool ResultExporter Utils Main Examples.

Lemma validate_attorneys_accepts : forall attorneys idx,
  validate_attorneys attorneys idx = None <->
  forall entry, In entry attorneys -> lacks_name entry = false.
Proof.
  induction attorneys as [|entry attorneys IH]; intros idx; simpl.
  - split; [intros _ ? []|reflexivity].
  - destruct entry as [|[first|] [last|]]; simpl;
      try (split; [discriminate|intros H; now specialize (H _ (or_introl eq_refl))]).
    destruct (negb (truthy first) || negb (truthy last)) eqn:E.
    + split; [discriminate|]. intros H. specialize (H _ (or_introl eq_refl)).
      simpl in H. congruence.
    + rewrite IH. split.
      * intros H entry [<-|Hin]; [exact E|now apply H].
      * intros H entry Hin. apply H. now right.
Qed.

Lemma validate_attorneys_rejects : forall attorneys idx error,
  validate_attorneys attorneys idx = Some error ->
  exists i entry,
    attorneys !! i = Some entry /\ lacks_name entry = true /\
    (forall j earlier, (j < i)%nat -> attorneys !! j = Some earlier ->
                       lacks_name earlier = false) /\
    (error = NotADictionary (idx + i + 1) \/ error = MissingKeys (idx + i + 1)
     \/ error = EmptyName (idx + i + 1)).
Proof.
  induction attorneys as [|entry attorneys IH]; intros idx error; simpl; [discriminate|].
  assert (Hhere : lacks_name entry = true ->
    (error = NotADictionary (idx + 1) \/ error = MissingKeys (idx + 1)
     \/ error = EmptyName (idx + 1)) ->
    exists i e,
      (entry :: attorneys) !! i = Some e /\ lacks_name e = true /\
      (forall j earlier, (j < i)%nat -> (entry :: attorneys) !! j = Some earlier ->
                         lacks_name earlier = false) /\
      (error = NotADictionary (idx + i + 1) \/ error = MissingKeys (idx + i + 1)
       \/ error = EmptyName (idx + i + 1))).
  { intros Hl He. exists 0%nat, entry. split; [reflexivity|]. split; [exact Hl|].
    split; [intros j e Hj; lia|]. now rewrite Nat.add_0_r. }
  destruct entry as [|[first|] [last|]];
    try (intros [= <-]; apply Hhere; [reflexivity|tauto]).
  destruct (negb (truthy first) || negb (truthy last)) eqn:E.
  - intros [= <-]. apply Hhere; [exact E|tauto].
  - intros H. destruct (IH _ _ H) as (i & e & Hi & Hl & Hb & He).
    exists (S i), e. split; [exact Hi|]. split; [exact Hl|]. split.
    + intros [|j] earlier Hj; simpl; [intros [= <-]; exact E|].
      apply Hb. lia.
    + replace (idx + S i + 1)%nat with (S idx + i + 1)%nat by lia. exact He.
Qed.

(** X18: [validate_config] accepts a configuration exactly when the
    attorney list and the keyword list are not empty and every attorney is
    a dict with a non-empty first_name and last_name; otherwise its
    message numbers the first offending attorney, counting from one.  An
    accepted configuration passes the checks each worker repeats: no
    worker returns a validation error for one of its attorneys. *)
Theorem accepted_configuration_passes_the_worker_checks
    (attorneys : list AttorneyEntry) (charge_keywords : list string) :
  (validate_config attorneys charge_keywords = (true, None) <->
   attorneys <> [] /\ charge_keywords <> [] /\
   forall entry, In entry attorneys -> lacks_name entry = false) /\
  (forall position,
     In (snd (validate_config attorneys charge_keywords))
        [ Some (NotADictionary position); Some (MissingKeys position);
          Some (EmptyName position) ] ->
     exists i entry,
       position = (i + 1)%nat /\ attorneys !! i = Some entry /\
       lacks_name entry = true /\
       forall j earlier, (j < i)%nat -> attorneys !! j = Some earlier ->
                         lacks_name earlier = false) /\
  (validate_config attorneys charge_keywords = (true, None) ->
   forall fuel recovery_enabled min idx entry job w msg,
     attorneys !! idx = Some entry ->
     scrape_attorney_worker fuel recovery_enabled min entry idx job = Some w ->
     w_error w <> Some (ValueError msg)).
Proof.
  assert (Hiff : validate_config attorneys charge_keywords = (true, None) <->
     attorneys <> [] /\ charge_keywords <> [] /\
     forall entry, In entry attorneys -> lacks_name entry = false).
  { unfold validate_config. destruct attorneys as [|a attorneys].
    { split; [discriminate|]. intros [H _]. congruence. }
    destruct (validate_attorneys (a :: attorneys) 0) as [error|] eqn:Ev.
    - split; [discriminate|]. intros (_ & _ & H).
      pose proof (proj2 (validate_attorneys_accepts _ 0%nat) H). congruence.
    - pose proof (proj1 (validate_attorneys_accepts _ _) Ev) as Hall. clear Ev.
      destruct charge_keywords; [split; [discriminate|intros (_ & H & _); congruence]|].
      split; [intros _|reflexivity]. repeat split; try discriminate. exact Hall. }
  split; [exact Hiff|]. split.
  - intros position Hin. unfold validate_config in Hin.
    destruct attorneys as [|a attorneys];
      [simpl in Hin; repeat (destruct Hin as [Hin|Hin]; [discriminate|]); destruct Hin|].
    destruct (validate_attorneys (a :: attorneys) 0) as [error|] eqn:Ev.
    + destruct (validate_attorneys_rejects _ _ _ Ev) as (i & e & Hi & Hl & Hb & He).
      exists i, e. split; [|now repeat split].
      simpl in Hin, He.
      destruct He as [-> | [-> | ->]]; destruct Hin as [H|[H|[H|[]]]];
        try discriminate H; injection H as H; lia.
    + destruct charge_keywords; simpl in Hin;
        repeat (destruct Hin as [Hin|Hin]; [discriminate|]); destruct Hin.
  - intros Hv fuel rec min idx entry job w msg Hl Hw.
    apply Hiff in Hv. destruct Hv as (_ & _ & Hall).
    assert (Hok : lacks_name entry = false).
    { apply Hall. apply list_elem_of_In. now apply list_elem_of_lookup_2 in Hl. }
    unfold scrape_attorney_worker in Hw.
    destruct entry as [|[first|] [last|]]; try discriminate Hok.
    simpl in Hok. rewrite Hok in Hw.
    destruct (negb (browser_starts job)); [injection Hw as <-; discriminate|].
    destruct (run _ _ _ _ _ _) as [[[[]|] entered] s1]; [| |discriminate];
      injection Hw as <-; discriminate.
Qed.

(** X19: [main] calls [export_results] only for an accepted configuration
    and a non-empty list of records, namely the list the coordinator
    returned.  The table written then has one row per record, in the same
    order, with the ten exported columns of that record, and every row
    belongs to an attorney of the configuration. *)
Theorem main_exports_what_the_workers_found
    (fuel : nat) (recovery_enabled : bool) (min : Z)
    (attorneys : list AttorneyEntry) (charge_keywords : list string)
    (pool : Pool) (output_format : string) (file : option OutputFile) :
  main fuel recovery_enabled min attorneys charge_keywords pool output_format
  = Exported file ->
  validate_config attorneys charge_keywords = (true, None) /\
  exists results written,
    run_all_attorneys_concurrent fuel recovery_enabled min attorneys pool
    = Some (Returned results) /\
    results <> [] /\ file = Some written /\
    match written with
    | CsvFile table | ExcelFile table =>
        to_records table = map exported_fields results
    | JsonFile records => records = map exported_fields results
    end /\
    forall c, In c results ->
      exists idx first last,
        attorneys !! idx = Some (Dict (Some first) (Some last)) /\
        attorney_name c = first +:+ " " +:+ last.
Proof.
  unfold main. intros Hmain.
  assert (Hvalid : forall v e, validate_config attorneys charge_keywords = (v, e) ->
                               v = true -> e = None).
  { unfold validate_config. intros v e.
    destruct attorneys; [intros [= <- <-]; discriminate|].
    destruct (validate_attorneys _ _); [intros [= <- <-]; discriminate|].
    destruct charge_keywords; intros [= <- <-]; [discriminate|reflexivity]. }
  destruct (validate_config attorneys charge_keywords) as [[] e] eqn:Ev;
    [|discriminate].
  rewrite (Hvalid _ _ eq_refl eq_refl). split; [reflexivity|]. simpl in Hmain.
  unfold run_all_attorneys_concurrent in *.
  destruct (run_all_attorneys_concurrent_log fuel recovery_enabled min attorneys pool)
    as [[[results|exn] errors]|] eqn:Erun; try discriminate.
  destruct results as [|c cs]; [discriminate|].
  assert (Hfile : file = export_results output_format (c :: cs)) by congruence.
  clear Hmain. subst file.
  pose proof (exported_table c cs) as Htable. cbv zeta in Htable.
  unfold export_results.
  set (df := select _ _) in *.
  assert (Hrows : forall r, In r (c :: cs) ->
    exists idx first last,
      attorneys !! idx = Some (Dict (Some first) (Some last)) /\
      attorney_name r = first +:+ " " +:+ last).
  { intros r Hr.
    destruct (collected_records_attributed _ _ _ _ _ _ _ Erun r Hr)
      as (idx & first & last & Hl & _ & _ & Ha & _). eauto. }
  destruct (String.eqb (lower output_format) "csv");
    [|destruct (String.eqb (lower output_format) "excel");
      [|destruct (String.eqb (lower output_format) "json")]];
    eexists; eexists; (split; [reflexivity|]); (split; [discriminate|]);
    (split; [reflexivity|]); (split; [|exact Hrows]);
    first [exact Htable|reflexivity].
Qed.

Lemma main_exports_what_the_workers_found_witness :
  let c := with_attorney jane (CaseDataExtractor.extract_case_details (page_of "F-2500001")) in
  validate_config [jane_entry] Config.CHARGE_KEYWORDS = (true, None) /\
  exists results written,
    run_all_attorneys_concurrent 5 true Config.MINIMUM_CASE_YEAR [jane_entry] pool_one_case
    = Some (Returned results) /\
    results <> [] /\ export_results "json" [c] = Some written /\
    match written with
    | CsvFile table | ExcelFile table =>
        to_records table = map exported_fields results
    | JsonFile records => records = map exported_fields results
    end /\
    forall c, In c results ->
      exists idx first last,
        [jane_entry] !! idx = Some (Dict (Some first) (Some last)) /\
        attorney_name c = first +:+ " " +:+ last.
Proof.
  cbv zeta.
  apply (main_exports_what_the_workers_found 5 true Config.MINIMUM_CASE_YEAR
           [jane_entry] Config.CHARGE_KEYWORDS pool_one_case "json").
  now vm_compute.
Defined.

End Configuration.

(** ** Starting Chrome for the user agent (utils.py) *)
Section ChromeUserAgent.
Import Utils Examples.

Lemma wait_from_ends chrome timeout poll_interval :
  sleeps chrome poll_interval ->
  forall fuel attempt,
    (1 <= fuel)%nat ->
    timeout <= poll_interval * Z.of_nat (attempt + fuel - 1) ->
    exists result,
      wait_for_chrome_debug_endpoint_from fuel chrome timeout attempt = Some result /\
      match result with
      | EndpointReady k =>
          (attempt <= k)%nat /\ endpoint_reply chrome k = EndpointOk /\
          elapsed_at chrome k < timeout /\
          forall j, (attempt <= j < k)%nat ->
            endpoint_reply chrome j = RequestFails /\ elapsed_at chrome j < timeout
      | WaitTimedOut k =>
          (attempt <= k)%nat /\ timeout <= elapsed_at chrome k /\
          forall j, (attempt <= j < k)%nat ->
            endpoint_reply chrome j = RequestFails /\ elapsed_at chrome j < timeout
      | WaitFailed => exists k, endpoint_reply chrome k = OtherFailure
      end.
Proof.
  intros Hsleep. induction fuel as [|fuel IH]; intros attempt Hfuel Hlate; [lia|].
  simpl. destruct (timeout <=? elapsed_at chrome attempt) eqn:Et.
  - apply Z.leb_le in Et. eexists. split; [reflexivity|]. simpl.
    split; [lia|]. split; [exact Et|]. intros j Hj. lia.
  - apply Z.leb_gt in Et.
    destruct (endpoint_reply chrome attempt) eqn:Er.
    + eexists. split; [reflexivity|]. simpl. split; [lia|]. split; [exact Er|].
      split; [exact Et|]. intros j Hj. lia.
    + assert (Hf : (1 <= fuel)%nat).
      { destruct fuel; [|lia]. exfalso. specialize (Hsleep attempt).
        replace (attempt + 1 - 1)%nat with attempt in Hlate by lia. lia. }
      destruct (IH (S attempt) Hf) as (result & Hr & Hspec).
      { replace (S attempt + fuel - 1)%nat with (attempt + S fuel - 1)%nat by lia.
        exact Hlate. }
      exists result. split; [exact Hr|].
      destruct result as [k|k|]; [| |exact Hspec].
      * destruct Hspec as (Hk & Hok & Hlt & Hb). split; [lia|]. split; [exact Hok|].
        split; [exact Hlt|]. intros j Hj.
        destruct (decide (j = attempt)) as [->|Hne]; [now split|]. apply Hb. lia.
      * destruct Hspec as (Hk & Hge & Hb). split; [lia|]. split; [exact Hge|].
        intros j Hj.
        destruct (decide (j = attempt)) as [->|Hne]; [now split|]. apply Hb. lia.
    + eexists. split; [reflexivity|]. simpl. eauto.
Qed.

(** X20: [wait_for_chrome_debug_endpoint] always ends.  As the loop
    sleeps for the poll interval between two requests, it makes at most
    timeout / poll_interval + 1 requests (51 with the defaults of 10 s and
    0.2 s): it returns at the first request that succeeds, every earlier
    one having failed with a request error before the timeout, or raises
    TimeoutError the first time it finds the timeout reached. *)
Theorem chrome_wait_ends_within_the_timeout
    (chrome : ChromeStart) (timeout poll_interval : Z) :
  0 < poll_interval -> 0 <= timeout -> sleeps chrome poll_interval ->
  exists result,
    wait_for_chrome_debug_endpoint
      (Z.to_nat (timeout / poll_interval) + 2) chrome timeout = Some result /\
    match result with
    | EndpointReady k =>
        endpoint_reply chrome k = EndpointOk /\
        elapsed_at chrome k < timeout /\
        Z.of_nat k * poll_interval < timeout /\
        forall j, (j < k)%nat ->
          endpoint_reply chrome j = RequestFails /\ elapsed_at chrome j < timeout
    | WaitTimedOut k =>
        timeout <= elapsed_at chrome k /\
        forall j, (j < k)%nat ->
          endpoint_reply chrome j = RequestFails /\ elapsed_at chrome j < timeout
    | WaitFailed => exists k, endpoint_reply chrome k = OtherFailure
    end.
Proof.
  intros Hpoll Htimeout Hsleep. unfold wait_for_chrome_debug_endpoint.
  destruct (wait_from_ends chrome timeout poll_interval Hsleep
              (Z.to_nat (timeout / poll_interval) + 2) 0 ltac:(lia))
    as (result & Hr & Hspec).
  { replace (0 + (Z.to_nat (timeout / poll_interval) + 2) - 1)%nat
      with (Z.to_nat (timeout / poll_interval) + 1)%nat by lia.
    rewrite Nat2Z.inj_add, Z2Nat.id by (apply Z.div_pos; lia).
    pose proof (Z.mul_succ_div_gt timeout poll_interval Hpoll). lia. }
  exists result. split; [exact Hr|]. destruct result as [k|k|]; [| |exact Hspec].
  - destruct Hspec as (_ & Hok & Hlt & Hb). split; [exact Hok|]. split; [exact Hlt|].
    split; [specialize (Hsleep k); lia|]. intros j Hj. apply Hb. lia.
  - destruct Hspec as (_ & Hge & Hb). split; [exact Hge|]. intros j Hj. apply Hb. lia.
Qed.

Lemma chrome_wait_ends_within_the_timeout_witness :
  wait_for_chrome_debug_endpoint
    (Z.to_nat (CHROME_STARTUP_TIMEOUT / CHROME_STARTUP_POLL_INTERVAL) + 2)
    chrome_slow CHROME_STARTUP_TIMEOUT
  = Some (EndpointReady 3).
Proof.
  destruct (chrome_wait_ends_within_the_timeout chrome_slow
              CHROME_STARTUP_TIMEOUT CHROME_STARTUP_POLL_INTERVAL)
    as (result & Hr & _).
  - reflexivity.
  - discriminate.
  - intros k. simpl. unfold CHROME_STARTUP_POLL_INTERVAL. lia.
  - rewrite Hr. f_equal. vm_compute in Hr. now injection Hr as <-.
Defined.

Lemma cached_user_agent fuel e cached n :
  get_chrome_user_agent fuel e (mkUserAgentState (Some cached) n)
  = Some (cached, mkUserAgentState (Some cached) n).
Proof. reflexivity. Qed.

Lemma first_user_agent fuel e n ua st :
  get_chrome_user_agent fuel e (mkUserAgentState None n) = Some (ua, st) ->
  ua_cache st = Some ua /\
  (launches st = n /\ ua = fallback_ua \/ launches st = S n).
Proof.
  unfold get_chrome_user_agent. simpl.
  destruct (port_assigned e); simpl; [|intros [= <- <-]; auto].
  destruct (temp_dir_created e); simpl; [|intros [= <- <-]; auto].
  destruct (chrome_started e); simpl; [|intros [= <- <-]; auto].
  destruct (wait_for_chrome_debug_endpoint _ _ _) as [[k|k|]|];
    [|intros [= <- <-]; auto..|discriminate].
  destruct (version_reply e) as [| |[ua'|]]; intros [= <- <-]; auto.
Qed.

Lemma cached_user_agents fuel cached n : forall calls uas st,
  user_agents fuel calls (mkUserAgentState (Some cached) n) = Some (uas, st) ->
  st = mkUserAgentState (Some cached) n /\ Forall (fun ua => ua = cached) uas.
Proof.
  induction calls as [|e calls IH]; intros uas st; simpl.
  - intros [= <- <-]. split; [reflexivity|constructor].
  - destruct (user_agents fuel calls _) as [[uas' st']|]; [|discriminate].
    intros [= <- <-]. destruct (IH _ _ eq_refl) as [-> H]. split; [reflexivity|].
    now constructor.
Qed.

(** X21: [get_chrome_user_agent] extracts the user agent once per
    process.  In a series of calls Chrome is launched at most once, by the
    first call; what that call returns (the "User-Agent" of the debugger
    endpoint, or the built-in fallback when any step fails) is cached and
    returned by every later call, whatever a later extraction would have
    met.  If Chrome was never launched, every call returns the
    fallback. *)
Theorem user_agent_is_extracted_once
    (fuel : nat) (calls : list Extraction) (uas : list string)
    (st : UserAgentState) :
  user_agents fuel calls (mkUserAgentState None 0) = Some (uas, st) ->
  (launches st <= 1)%nat /\
  (forall ua, In ua uas -> ua_cache st = Some ua) /\
  (launches st = 0%nat -> forall ua, In ua uas -> ua = fallback_ua).
Proof.
  destruct calls as [|e calls]; simpl.
  - intros [= <- <-]. simpl. split; [lia|]. split; intros ? []; intros [].
  - destruct (get_chrome_user_agent fuel e _) as [[ua st1]|] eqn:E1; [|discriminate].
    destruct (first_user_agent _ _ _ _ _ E1) as [Hc Hl].
    destruct st1 as [cache n]. simpl in Hc, Hl. subst cache.
    destruct (user_agents fuel calls _) as [[uas' st']|] eqn:E2; [|discriminate].
    intros [= <- <-]. destruct (cached_user_agents _ _ _ _ _ _ E2) as [-> Hall].
    rewrite List.Forall_forall in Hall. simpl. split; [lia|]. split.
    + intros u [<-|Hu]; [reflexivity|]. now rewrite (Hall u Hu).
    + intros Hn u Hu. destruct Hl as [[_ ->]|Hl]; [|lia].
      destruct Hu as [<-|Hu]; [reflexivity|now apply Hall].
Qed.

Lemma user_agent_is_extracted_once_witness :
  let st := mkUserAgentState (Some chrome_140) 1 in
  (launches st <= 1)%nat /\
  (forall ua, In ua [chrome_140; chrome_140] -> ua_cache st = Some ua) /\
  (launches st = 0%nat ->
   forall ua, In ua [chrome_140; chrome_140] -> ua = fallback_ua).
Proof.
  cbv zeta.
  apply (user_agent_is_extracted_once 52 [extraction_ok; extraction_no_chrome]).
  reflexivity.
Defined.

End ChromeUserAgent.

(** ** Which cases are collected (scraper.py) *)
Section Collected.
Import Py CaseDataExtractor Scraper Examples.

Lemma get_case_type_rows_match p s :
  Forall (fun row => matches_case_type row = true) (get_case_type_rows p s).
Proof.
  unfold get_case_type_rows.
  destruct (first_matching_rows_spec (map (rows_by_selector p (step s)) row_selectors))
    as [[-> _]|(before & els & after & _ & -> & _)]; [constructor|].
  apply List.Forall_forall. intros row Hin. now apply filter_In in Hin.
Qed.

(** The list the loop goes on with matches the case type when the
    present one does. *)
Lemma loop_body_rows rec p s rows i row rows' i' :
  Forall (fun row => matches_case_type row = true) rows ->
  snd (loop_body rec p s rows i row) = Continue rows' i' ->
  Forall (fun row => matches_case_type row = true) rows'.
Proof.
  intros Hrows.
  assert (Hex : forall s0, snd (on_exception rec p s0 rows i) = Continue rows' i' ->
                           Forall (fun row => matches_case_type row = true) rows').
  { intros s0. unfold on_exception. destruct rec; [|now intros [= <- _]].
    destruct (recover_session p s0) as [[] s1]; [|discriminate].
    intros [= <- _]. apply get_case_type_rows_match. }
  assert (Hlv : forall s0, snd (leave_case rec p s0 i) = Continue rows' i' ->
                           Forall (fun row => matches_case_type row = true) rows').
  { intros s0 H. destruct (leave_case_control rec p s0 i) as [E|(s1 & j & E)];
      rewrite E in H; [discriminate|]. injection H as <- _.
    apply get_case_type_rows_match. }
  unfold loop_body. destruct (row_fault p (step s)) as [[]|]; [apply Hex| |];
    destruct (harvest_row p s row) as [| |s1]; simpl;
    first [apply Hex | apply Hlv | intros [= <- _]; exact Hrows].
Qed.

Lemma loop_body_collected rec p a s rows i row :
  attorney s = a -> In row rows ->
  Forall (fun row => matches_case_type row = true) rows ->
  Forall (collected_from p a) (results s) ->
  Forall (collected_from p a) (results (fst (loop_body rec p s rows i row))).
Proof.
  intros Ha Hrow Hrows Hres.
  destruct (loop_body_cases rec p s rows i row) as [H|(s1 & E & H)].
  - destruct H as (-> & _). exact Hres.
  - destruct H as (-> & _).
    destruct (harvest_row_spec _ _ _ _ E) as (page & Ho & _ & -> & _).
    apply Forall_app. split; [exact Hres|].
    destruct (check_for_charge_keyword page Config.CHARGE_KEYWORDS) eqn:Ek;
      [|constructor].
    constructor; [|constructor]. exists (step s), row, page.
    rewrite List.Forall_forall in Hrows. rewrite Ha. now repeat split; auto.
Qed.

Lemma row_loop_collected rec p a : forall fuel s rows i,
  attorney s = a ->
  Forall (fun row => matches_case_type row = true) rows ->
  Forall (collected_from p a) (results s) ->
  Forall (collected_from p a) (results (fst (row_loop fuel rec p s rows i))).
Proof.
  induction fuel as [|fuel IH]; intros s rows i Ha Hrows Hres; simpl;
    destruct (rows !! i) as [row|] eqn:Ei; try exact Hres.
  assert (Hrow : In row rows).
  { apply list_elem_of_In. now apply list_elem_of_lookup_2 in Ei. }
  pose proof (loop_body_collected rec p a s rows i row Ha Hrow Hrows Hres) as H1.
  pose proof (loop_body_attorney rec p s rows i row) as H2.
  pose proof (loop_body_rows rec p s rows i row) as H3.
  destruct (loop_body rec p s rows i row) as [s1 [rows' i'|]]; simpl in *.
  - apply IH; [simpl; congruence|now apply (H3 rows' i')|exact H1].
  - exact H1.
Qed.

(** X22: [run] collects a case only from a row of the results list whose
    text contains the case type and whose detail page holds one of the
    charge keywords, letter case aside ("assault" with the shipped
    configuration); the record is what [extract_case_details] read from
    that page, with the scraper's attorney added.  No other row or page
    ever contributes a record, with or without session recovery. *)
Theorem only_keyword_cases_of_the_case_type_are_collected
    (fuel : nat) (recovery_enabled : bool) (min : Z) (st : Startup)
    (p : Portal) (a : Attorney) :
  Forall (fun c =>
            exists t row page,
              contains "felony" (lower (row_text row)) = true /\
              open_case p t row = Some page /\
              contains "assault" (lower (body_text page)) = true /\
              c = with_attorney a (extract_case_details page))
         (results (snd (run fuel recovery_enabled min st p (init a)))).
Proof.
  assert (H : Forall (collected_from p a)
                (results (snd (run fuel recovery_enabled min st p (init a))))).
  { unfold run.
    repeat match goal with
           | |- context [if negb ?b then _ else _] => destruct b; simpl; try constructor
           end.
    pose proof (row_loop_collected recovery_enabled p a fuel (init a)
                  (get_case_type_rows p (init a)) 0%nat eq_refl
                  (get_case_type_rows_match p (init a)) (List.Forall_nil _)) as H.
    unfold process_felony_cases. destruct (row_loop _ _ _ _ _ _) as [s1 fin].
    exact H. }
  revert H. apply List.Forall_impl. intros c (t & row & page & Hm & Ho & Hk & ->).
  exists t, row, page. split; [exact Hm|]. split; [exact Ho|]. split; [|reflexivity].
  unfold check_for_charge_keyword in Hk. simpl in Hk.
  now rewrite orb_false_r in Hk.
Qed.

End Collected.

(** ** When the paid service is asked (captcha_handler.py) *)
Section PaidService.
Import Py CaptchaHandler Examples.

Lemma service_attempts fuel env tid tl key :
  List.filter is_automated (history (solve_captcha_with_service fuel env tid tl key))
  = if service_allowed env tid tl key then [AutomatedAttempt] else [].
Proof.
  unfold solve_captcha_with_service, service_allowed.
  destruct (get_manual_captcha_flag tid tl) as [[] tl']; [reflexivity|]. simpl.
  destruct (truthy key); [|reflexivity]. simpl.
  destruct (service_raises (service env)); [reflexivity|]. simpl.
  destruct (balance (service env)) as [b|];
    [destruct (below_minimum b); [reflexivity|]|];
    now destruct (solve_recaptcha_v2_with_2captcha (service env) key).
Qed.

Lemma fallback_not_automated fuel env :
  List.filter is_automated (snd (manual_fallback fuel env)) = [].
Proof. rewrite fallback_events. now destruct (fallback_reaches_wait env). Qed.

(** X23: one call of [resolve_captcha] asks the paid 2captcha service at
    most once, and only when a captcha was detected, the service is
    switched on with a non-empty API key, the thread has not fallen back
    to manual solving before, nothing raised on the way, and the balance,
    if it could be read, is not below $0.003.  A thread that once failed
    with the service never pays for another attempt. *)
Theorem paid_service_is_asked_at_most_once_and_only_when_allowed
    (fuel : nat) (env : CaptchaEnv) (tid : nat) (thread_local : gmap nat bool)
    (api_key : option string) (use_service : bool) :
  let attempts :=
    List.filter is_automated
      (history (resolve_captcha fuel env tid thread_local api_key use_service)) in
  (List.length attempts <= 1)%nat /\
  (attempts <> [] <->
   captcha_detected env = true /\ use_service = true /\
   exists key, api_key = Some key /\
               service_allowed env tid thread_local key = true) /\
  (thread_local !! tid = Some true -> attempts = []).
Proof.
  cbv zeta.
  assert (Hcases :
    List.filter is_automated
      (history (resolve_captcha fuel env tid thread_local api_key use_service))
    = if captcha_detected env && use_service
      then match api_key with
           | Some key => if service_allowed env tid thread_local key
                         then [AutomatedAttempt] else []
           | None => []
           end
      else []).
  { unfold resolve_captcha.
    assert (Hf : forall tl hist,
      List.filter is_automated
        (history (let '(r, evs) := manual_fallback fuel env in
                  mkOutcome r tl (hist ++ evs)%list))
      = List.filter is_automated hist).
    { intros tl hist. pose proof (fallback_not_automated fuel env) as H.
      destruct (manual_fallback fuel env) as [r evs]. simpl in *.
      now rewrite List.filter_app, H, app_nil_r. }
    destruct (captcha_detected env); [|reflexivity]. cbn [negb andb].
    destruct api_key as [key|]; [|destruct use_service; exact (Hf _ [])].
    destruct use_service; cbn [andb]; [|exact (Hf _ [])].
    destruct (truthy key) eqn:Ek.
    - pose proof (service_attempts fuel env tid thread_local key) as Hs.
      destruct (returned (solve_captcha_with_service fuel env tid thread_local key))
        as [[]|]; try exact Hs.
      rewrite Hf. exact Hs.
    - rewrite (Hf _ []). unfold service_allowed. rewrite Ek.
      now rewrite andb_false_r. }
  rewrite Hcases. split; [|split].
  - destruct (captcha_detected env && use_service); [|simpl; lia].
    destruct api_key as [key|]; [|simpl; lia].
    destruct (service_allowed _ _ _ _); simpl; lia.
  - destruct (captcha_detected env), use_service; cbn [andb];
      try (split; [congruence|intros (? & ? & _); congruence]).
    destruct api_key as [key|].
    + destruct (service_allowed env tid thread_local key) eqn:Ea.
      * split; [intros _|discriminate]. repeat split. eauto.
      * split; [congruence|]. intros (_ & _ & k & [= <-] & Hk). congruence.
    + split; [congruence|]. intros (_ & _ & k & [=] & _).
  - intros Hflag. destruct (captcha_detected env && use_service); [|reflexivity].
    destruct api_key as [key|]; [|reflexivity].
    unfold service_allowed. rewrite (get_flag_true _ _ Hflag). reflexivity.
Qed.

Lemma paid_service_is_asked_at_most_once_and_only_when_allowed_witness :
  List.filter is_automated
    (history (resolve_captcha 200 captcha_unsolved 0 ∅ (Some api_key_32) true))
  = [AutomatedAttempt] /\
  List.filter is_automated
    (history (resolve_captcha 200 captcha_unsolved 0 {[ 0%nat := true ]}
                (Some api_key_32) true))
  = [].
Proof.
  split.
  - reflexivity.
  - apply (paid_service_is_asked_at_most_once_and_only_when_allowed
             200 captcha_unsolved 0 {[ 0%nat := true ]} (Some api_key_32) true).
    reflexivity.
Defined.

End PaidService.

(** ** One sheet per attorney (result_exporter.py) *)
Section UniqueSheets.
Import Py ResultExporter Examples.

Lemma pretty_N_char_digit x : is_digit (pretty_N_char x) = true.
Proof. unfold pretty_N_char. repeat case_match; reflexivity. Qed.

Lemma pretty_N_go_digits x : forall s,
  forallb is_digit (list_ascii_of_string s) = true ->
  forallb is_digit (list_ascii_of_string (pretty_N_go x s)) = true.
Proof.
  induction (N.lt_wf_0 x) as [x _ IH]. intros s Hs.
  destruct (decide (0 < x)%N) as [Hx|Hx].
  - rewrite pretty_N_go_step by exact Hx. apply IH.
    + apply N.div_lt; lia.
    + simpl. now rewrite pretty_N_char_digit.
  - replace x with 0%N by lia. now rewrite pretty_N_go_0.
Qed.

Lemma str_digits n : forallb is_digit (list_ascii_of_string (str n)) = true.
Proof.
  unfold str, pretty, pretty_nat, pretty, pretty_N.
  destruct (decide (N.of_nat n = 0%N)); [reflexivity|].
  now apply pretty_N_go_digits.
Qed.

Lemma pretty_N_go_length k : forall x s,
  (x < 10 ^ N.of_nat k)%N ->
  (String.length (pretty_N_go x s) <= k + String.length s)%nat.
Proof.
  induction k as [|k IH]; intros x s Hx.
  - replace x with 0%N by (simpl in Hx; lia). rewrite pretty_N_go_0. lia.
  - destruct (decide (0 < x)%N) as [Hpos|Hpos].
    + rewrite pretty_N_go_step by exact Hpos.
      etransitivity; [apply IH|simpl; lia].
      apply N.Div0.div_lt_upper_bound.
      rewrite Nat2N.inj_succ, N.pow_succ_r' in Hx. exact Hx.
    + replace x with 0%N by lia. rewrite pretty_N_go_0. lia.
Qed.

Lemma str_length n :
  (N.of_nat n < 10 ^ 30)%N -> (String.length (str n) <= 30)%nat.
Proof.
  intros Hn. unfold str, pretty, pretty_nat, pretty, pretty_N.
  destruct (decide (N.of_nat n = 0%N)); [simpl; lia|].
  pose proof (pretty_N_go_length 30 (N.of_nat n) "" Hn) as H. simpl in H. lia.
Qed.

Lemma first_occurrence {A} (x : A) : forall a b p q : list A,
  ~ In x a -> ~ In x b -> (a ++ x :: p = b ++ x :: q)%list -> a = b.
Proof.
  induction a as [|y a IH]; intros [|z b] p q Ha Hb E; simpl in *.
  - reflexivity.
  - injection E as E _. subst z. exfalso. apply Hb. now left.
  - injection E as E _. subst y. exfalso. apply Ha. now left.
  - injection E as E1 E2. subst z. f_equal. apply (IH b p q); tauto.
Qed.

Lemma last_occurrence {A} (x : A) (a b p q : list A) :
  ~ In x a -> ~ In x b -> (p ++ x :: a = q ++ x :: b)%list -> a = b.
Proof.
  intros Ha Hb E. apply (f_equal (@rev A)) in E.
  rewrite !rev_app_distr in E. simpl in E. rewrite <- !app_assoc in E.
  simpl in E. rewrite <- (rev_involutive a), <- (rev_involutive b). f_equal.
  apply (first_occurrence x _ _ _ _) with (3 := E); rewrite <- in_rev; assumption.
Qed.

Lemma digits_no_dash l :
  forallb is_digit l = true -> ~ In "-"%char l.
Proof.
  intros H Hin. rewrite forallb_forall in H. specialize (H _ Hin). discriminate.
Qed.

Lemma numbered_sheet_name_list base counter :
  list_ascii_of_string (numbered_sheet_name base counter)
  = (list_ascii_of_string
       (rstrip (slice_to_Z (31 - Z.of_nat (String.length (str counter)) - 1) base))
     ++ "-"%char :: list_ascii_of_string (str counter))%list.
Proof.
  unfold numbered_sheet_name. cbv zeta.
  rewrite !list_ascii_of_string_app. reflexivity.
Qed.

(** Two numbers never give the same name: the number is what follows the
    last dash. *)
Lemma numbered_sheet_name_inj base c1 c2 :
  numbered_sheet_name base c1 = numbered_sheet_name base c2 -> c1 = c2.
Proof.
  intros E. apply (f_equal list_ascii_of_string) in E.
  rewrite !numbered_sheet_name_list in E.
  apply last_occurrence in E; try (apply digits_no_dash, str_digits).
  apply (f_equal string_of_list_ascii) in E.
  rewrite !string_of_list_ascii_of_string in E.
  unfold str in E. exact (inj pretty _ _ E).
Qed.

(** The names of [n] numbers in a row are [n] different names. *)
Lemma numbered_names_fill base (used : gset string) counter n :
  (forall c, (counter <= c < counter + n)%nat ->
             numbered_sheet_name base c ∈ used) ->
  (n <= size used)%nat.
Proof.
  intros Hall.
  set (l := numbered_sheet_name base <$> seq counter n).
  assert (Hnd : NoDup l).
  { apply NoDup_fmap_2; [intros c1 c2; apply numbered_sheet_name_inj|].
    apply NoDup_seq. }
  assert (Hsub : (list_to_set l : gset string) ⊆ used).
  { intros name Hname. apply elem_of_list_to_set in Hname.
    apply list_elem_of_fmap in Hname as (c & -> & Hc).
    apply elem_of_seq in Hc. apply Hall. lia. }
  apply subseteq_size in Hsub. rewrite size_list_to_set in Hsub by exact Hnd.
  unfold l in Hsub. rewrite length_fmap, length_seq in Hsub. exact Hsub.
Qed.

Lemma unique_sheet_name_step fuel base used sheet_name counter :
  unique_sheet_name (S fuel) base used sheet_name counter
  = if bool_decide (sheet_name ∈ used)
    then unique_sheet_name fuel base used
           (numbered_sheet_name base counter) (S counter)
    else Some sheet_name.
Proof. reflexivity. Qed.

Lemma unique_sheet_name_running base used : forall fuel sheet_name counter,
  unique_sheet_name fuel base used sheet_name counter = None ->
  sheet_name ∈ used /\
  forall c, (counter <= c < counter + fuel)%nat ->
            numbered_sheet_name base c ∈ used.
Proof.
  induction fuel as [|fuel IH]; intros sheet_name counter.
  - simpl. destruct (bool_decide_reflect (sheet_name ∈ used)) as [Hin|Hin];
      [|discriminate].
    intros _. split; [exact Hin|]. intros c Hc. lia.
  - rewrite unique_sheet_name_step.
    destruct (bool_decide_reflect (sheet_name ∈ used)) as [Hin|Hin];
      [|discriminate].
    intros H. apply IH in H as [Hfirst Hrest]. split; [exact Hin|].
    intros c Hc. destruct (decide (c = counter)) as [->|Hne];
      [exact Hfirst|apply Hrest; lia].
Qed.

Lemma unique_sheet_name_found base used : forall fuel sheet_name counter name,
  unique_sheet_name fuel base used sheet_name counter = Some name ->
  (name ∉ used) /\
  (name = sheet_name \/
   sheet_name ∈ used /\
   exists c, (counter <= c)%nat /\ name = numbered_sheet_name base c /\
             forall c', (counter <= c' < c)%nat ->
                        numbered_sheet_name base c' ∈ used).
Proof.
  induction fuel as [|fuel IH]; intros sheet_name counter name.
  - simpl. destruct (bool_decide_reflect (sheet_name ∈ used)) as [Hin|Hin];
      [discriminate|].
    intros [= <-]. split; [exact Hin|now left].
  - rewrite unique_sheet_name_step.
    destruct (bool_decide_reflect (sheet_name ∈ used)) as [Hin|Hin].
    + intros H. apply IH in H as [Hnew [-> | [Hfirst (c & Hc & -> & Hbelow)]]].
      * split; [exact Hnew|]. right. split; [exact Hin|]. exists counter.
        split; [lia|]. split; [reflexivity|]. intros c' Hc'. lia.
      * split; [exact Hnew|]. right. split; [exact Hin|]. exists c.
        split; [lia|]. split; [reflexivity|]. intros c' Hc'.
        destruct (decide (c' = counter)) as [->|Hne];
          [exact Hfirst|apply Hbelow; lia].
    + intros [= <-]. split; [exact Hin|now left].
Qed.

(** The loop ends once it has run more often than there are used names. *)
Lemma unique_sheet_name_ends fuel base (used : gset string) sheet_name counter :
  (size used < fuel)%nat ->
  exists name, unique_sheet_name fuel base used sheet_name counter = Some name.
Proof.
  intros Hfuel.
  destruct (unique_sheet_name fuel base used sheet_name counter) as [name|] eqn:E;
    [now exists name|].
  apply unique_sheet_name_running in E as [_ Hall].
  apply numbered_names_fill in Hall. lia.
Qed.

Lemma size_add (name : string) (used : gset string) :
  (size ({[name]} ∪ used) <= S (size used))%nat.
Proof.
  rewrite size_union_alt, size_singleton.
  pose proof (subseteq_size (used ∖ {[name]}) used ltac:(set_solver)). lia.
Qed.

Lemma used_after_size written_as sheet_name used :
  (size (used_after written_as sheet_name used) <= 2 + size used)%nat.
Proof.
  unfold used_after. cbv zeta. destruct (String.eqb _ _).
  - pose proof (size_add sheet_name used). lia.
  - pose proof (size_add (written_as ({[sheet_name]} ∪ used) sheet_name)
                         ({[sheet_name]} ∪ used)).
    pose proof (size_add sheet_name used). lia.
Qed.

Lemma used_after_keeps written_as sheet_name used name :
  name ∉ used_after written_as sheet_name used ->
  name <> sheet_name /\ name ∉ used.
Proof.
  unfold used_after. cbv zeta. destruct (String.eqb _ _); set_solver.
Qed.

Lemma attorney_sheets_step fuel written_as attorney rest used :
  String.eqb attorney "UNKNOWN" = false ->
  attorney_sheets fuel written_as (Some attorney :: rest) used
  = match unique_sheet_name fuel (sanitize_sheet_name attorney 31) used
            (sanitize_sheet_name attorney 31) 1 with
    | None => None
    | Some sheet_name =>
        match attorney_sheets fuel written_as rest
                (used_after written_as sheet_name used) with
        | None => None
        | Some sheets => Some ((sheet_name, attorney) :: sheets)
        end
    end.
Proof.
  intros E. cbn [attorney_sheets]. rewrite E. unfold used_after.
  destruct (unique_sheet_name _ _ _ _ _) as [sheet_name|]; [|reflexivity].
  cbv zeta. destruct (String.eqb _ sheet_name); reflexivity.
Qed.

(** Every attorney gets a name as long as the loop may run more often than
    there can be used names. *)
Lemma attorney_sheets_ends fuel written_as : forall attorneys used,
  (size used + 2 * List.length attorneys < fuel)%nat ->
  exists sheets, attorney_sheets fuel written_as attorneys used = Some sheets.
Proof.
  induction attorneys as [|[attorney|] rest IH]; intros used Hfuel.
  - now exists [].
  - destruct (String.eqb attorney "UNKNOWN") eqn:E.
    + cbn [attorney_sheets]. rewrite E. apply IH. simpl in Hfuel. lia.
    + rewrite attorney_sheets_step by exact E.
      destruct (unique_sheet_name_ends fuel (sanitize_sheet_name attorney 31)
                  used (sanitize_sheet_name attorney 31) 1%nat) as [name ->].
      { simpl in Hfuel. lia. }
      destruct (IH (used_after written_as name used)) as [sheets ->].
      { pose proof (used_after_size written_as name used).
        simpl in Hfuel. lia. }
      now eexists.
  - cbn [attorney_sheets]. apply IH. simpl in Hfuel. lia.
Qed.

(** What the loop hands to [to_excel]: one name per attorney with a sheet,
    in order, each new at its turn, and either the sanitized name or a
    numbered one whose number is at most the number of used names. *)
Lemma attorney_sheets_sound fuel written_as : forall attorneys used sheets,
  attorney_sheets fuel written_as attorneys used = Some sheets ->
  map snd sheets = with_sheet attorneys /\
  List.NoDup (map fst sheets) /\
  (forall name, In name (map fst sheets) -> name ∉ used) /\
  (forall name attorney, In (name, attorney) sheets ->
     name = sanitize_sheet_name attorney 31 \/
     exists c, (c <= size used + 2 * List.length attorneys)%nat /\
               name = numbered_sheet_name (sanitize_sheet_name attorney 31) c).
Proof.
  induction attorneys as [|[attorney|] rest IH]; intros used sheets.
  - intros [= <-]. split; [reflexivity|]. split; [constructor|].
    split; [intros ? []|intros ? ? []].
  - destruct (String.eqb attorney "UNKNOWN") eqn:E.
    + cbn [attorney_sheets]. rewrite E. intros H.
      destruct (IH _ _ H) as (Hsnd & Hnd & Hnew & Hshape).
      repeat split; try assumption.
      * rewrite Hsnd. unfold with_sheet. simpl. now rewrite E.
      * intros name a Hin. destruct (Hshape _ _ Hin) as [->|(c & Hc & ->)];
          [now left|right]. exists c. split; [simpl; lia|reflexivity].
    + rewrite attorney_sheets_step by exact E.
      destruct (unique_sheet_name _ _ _ _ _) as [sheet_name|] eqn:Eu;
        [|discriminate].
      destruct (attorney_sheets fuel written_as rest _) as [sheets'|] eqn:Er;
        [|discriminate].
      intros [= <-].
      destruct (IH _ _ Er) as (Hsnd & Hnd & Hnew & Hshape).
      apply unique_sheet_name_found in Eu as [Hfresh Hname].
      repeat split.
      * simpl. rewrite Hsnd. unfold with_sheet. simpl. now rewrite E.
      * simpl. constructor; [|exact Hnd].
        intros Hin. apply Hnew, used_after_keeps in Hin as [Hne _]. congruence.
      * intros name [<-|Hin]; [exact Hfresh|].
        now apply Hnew, used_after_keeps in Hin as [_ Hno].
      * intros name a [[= <- <-]|Hin].
        -- destruct Hname as [->|[_ (c & Hc & -> & Hbelow)]]; [now left|right].
           exists c. split; [|reflexivity].
           assert (Hfill : (c - 1 <= size used)%nat).
           { apply (numbered_names_fill (sanitize_sheet_name attorney 31) used 1).
             intros c' Hc'. apply Hbelow. lia. }
           simpl. lia.
        -- destruct (Hshape _ _ Hin) as [->|(c & Hc & ->)]; [now left|right].
           exists c. split; [|reflexivity].
           pose proof (used_after_size written_as sheet_name used). simpl. lia.
  - cbn [attorney_sheets]. intros H.
    destruct (IH _ _ H) as (Hsnd & Hnd & Hnew & Hshape).
    repeat split; try assumption.
    intros name a Hin. destruct (Hshape _ _ Hin) as [->|(c & Hc & ->)];
      [now left|right]. exists c. split; [simpl; lia|reflexivity].
Qed.

Lemma cut_is_a_start k base :
  exists rest,
    list_ascii_of_string base
    = (list_ascii_of_string (rstrip (slice_to_Z k base)) ++ rest)%list.
Proof.
  assert (H : forall n, exists rest,
            list_ascii_of_string base
            = (list_ascii_of_string (rstrip (slice_to n base)) ++ rest)%list).
  { intros n. unfold rstrip, slice_to.
    rewrite !list_ascii_of_string_of_list_ascii.
    destruct (rstrip_list_start (take n (list_ascii_of_string base)))
      as [blanks Eb].
    exists (blanks ++ drop n (list_ascii_of_string base))%list.
    rewrite app_assoc, <- Eb. now rewrite take_drop. }
  unfold slice_to_Z. destruct (0 <=? k); apply H.
Qed.

Lemma cut_length k base :
  0 <= k -> (String.length (rstrip (slice_to_Z k base)) <= Z.to_nat k)%nat.
Proof.
  intros Hk. unfold slice_to_Z. destruct (Z.leb_spec 0 k) as [_|]; [|lia].
  unfold rstrip, slice_to.
  rewrite length_string_of_list, list_ascii_of_string_of_list_ascii.
  destruct (rstrip_list_start (take (Z.to_nat k) (list_ascii_of_string base)))
    as [blanks Eb].
  apply (f_equal (@List.length _)) in Eb.
  rewrite length_app, length_take in Eb. lia.
Qed.

Lemma digit_not_invalid c : is_digit c = true -> ~ In c invalid_chars.
Proof.
  intros Hc H. repeat (destruct H as [<-|H]; [discriminate|]). destruct H.
Qed.

(** A numbered name is as good a sheet name as the name it is made from,
    as long as the number has at most thirty digits. *)
Lemma numbered_sheet_name_valid base counter :
  valid_sheet_name base ->
  (N.of_nat counter < 10 ^ 30)%N ->
  valid_sheet_name (numbered_sheet_name base counter).
Proof.
  intros (_ & _ & Hchars) Hcounter.
  pose proof (str_length counter Hcounter) as Hdigits.
  pose proof (numbered_sheet_name_list base counter) as El.
  set (k := 31 - Z.of_nat (String.length (str counter)) - 1) in *.
  split; [|split].
  - intros E. rewrite E in El. simpl in El.
    destruct (list_ascii_of_string (rstrip (slice_to_Z k base))); discriminate.
  - rewrite string_length_list, El, length_app. simpl.
    rewrite <- !string_length_list.
    pose proof (cut_length k base ltac:(lia)). lia.
  - intros c Hc. rewrite El in Hc. apply in_app_or in Hc as [Hc|[<-|Hc]].
    + apply Hchars. destruct (cut_is_a_start k base) as [rest ->].
      apply in_or_app. now left.
    + intros H. repeat (destruct H as [H|H]; [discriminate|]). destruct H.
    + apply digit_not_invalid.
      pose proof (str_digits counter) as Hd. rewrite forallb_forall in Hd.
      now apply Hd.
Qed.

Lemma sanitize_sheet_name_valid attorney :
  valid_sheet_name (sanitize_sheet_name attorney 31).
Proof.
  destruct (sanitize_sheet_name_cut attorney 31)
    as (trimmed_name & cut & rest & -> & Hcut & Hlen & Htrim & _).
  destruct cut as [|c cut']; cbn [truthy negb].
  - split; [discriminate|]. split; [simpl; lia|].
    intros c Hc H.
    repeat (destruct Hc as [<-|Hc];
            [repeat (destruct H as [H|H]; [discriminate|]); destruct H|]).
    destruct Hc.
  - split; [discriminate|]. split; [exact Hlen|].
    intros a Ha. apply Htrim. rewrite Hcut. apply in_or_app. now left.
Qed.

(** X24: the loop of [export_excel] that names the sheets ends for every
    list of attorneys, whatever titles the workbook gives: each attorney
    other than a missing one and UNKNOWN gets one sheet, in order, no two
    sheets are written under the same name and none under the name of the
    sheet of all cases. *)
Theorem every_attorney_gets_a_sheet_of_its_own
    (written_as : gset string -> string -> string)
    (attorneys : list (option string)) :
  exists sheets,
    attorney_sheets (2 * List.length attorneys + 2) written_as attorneys
                    {["All Cases"]} = Some sheets /\
    map snd sheets = with_sheet attorneys /\
    List.NoDup (map fst sheets) /\
    ~ In "All Cases" (map fst sheets).
Proof.
  destruct (attorney_sheets_ends (2 * List.length attorneys + 2) written_as
              attorneys {["All Cases"]}) as [sheets E].
  { rewrite size_singleton. lia. }
  exists sheets. split; [exact E|].
  destruct (attorney_sheets_sound _ _ _ _ _ E) as (Hsnd & Hnd & Hnew & _).
  split; [exact Hsnd|]. split; [exact Hnd|].
  intros Hin. apply Hnew in Hin. set_solver.
Qed.


(** X25: with fewer than 10^29 attorneys, every name under which
    [export_excel] writes an attorney's sheet is one Excel accepts: not
    empty, at most 31 characters, none of the characters / \ ? * [ ] :. *)
Theorem attorney_sheets_have_valid_names
    (fuel : nat) (written_as : gset string -> string -> string)
    (attorneys : list (option string)) (sheets : list (string * string)) :
  (N.of_nat (List.length attorneys) < 10 ^ 29)%N ->
  attorney_sheets fuel written_as attorneys {["All Cases"]} = Some sheets ->
  List.Forall valid_sheet_name (map fst sheets).
Proof.
  intros Hfew E.
  destruct (attorney_sheets_sound _ _ _ _ _ E) as (_ & _ & _ & Hshape).
  rewrite List.Forall_forall. intros name Hin.
  apply in_map_iff in Hin as ([name' attorney] & <- & Hin). simpl.
  destruct (Hshape _ _ Hin) as [->|(c & Hc & ->)].
  - apply sanitize_sheet_name_valid.
  - apply numbered_sheet_name_valid; [apply sanitize_sheet_name_valid|].
    rewrite size_singleton in Hc.
    assert (H30 : (10 ^ 30 = 10 * 10 ^ 29)%N) by (vm_compute; reflexivity).
    lia.
Qed.

Lemma attorney_sheets_have_valid_names_witness :
  List.Forall valid_sheet_name
    (map fst [ ("DOE- JANE", "DOE/ JANE"); ("DOE- JANE-1", "DOE: JANE");
               ("DOE- JANE-2", "DOE- JANE") ]).
Proof.
  apply (attorney_sheets_have_valid_names 8 (fun _ name => name)
           [ Some "DOE/ JANE"; None; Some "DOE: JANE"; Some "UNKNOWN";
             Some "DOE- JANE" ]).
  - reflexivity.
  - vm_compute. reflexivity.
Defined.

End UniqueSheets.
